(** * Undoable document operations of veusz: a shallow embedding

    The development follows [veusz/document/operations.py] (the
    [Operation*] classes with their [do]/[undo] methods) and
    [veusz/dataimport/simpleread.py] (the descriptor, the stream of
    items and the readers of 1D and 2D data).

    Python objects are mutable and raise exceptions; both are made
    explicit: every method is a computation over a state (the operation
    object [self] paired with the document) that returns either a value or
    an exception, and the state reached when an exception is raised is kept,
    as Python keeps it. *)

From stdpp Require Import base option list gmap sets strings sorting pretty.
From Stdlib Require Import ZArith Lia Ascii.

Set Warnings "-register-all,-clear-no-such-hyp".

Local Open Scope string_scope.
Local Open Scope list_scope.

(** ** Python prelude: exceptions and stateful computations *)

Module Py.

(** The exception classes that the modelled code can raise. *)
Inductive exn : Type :=
| KeyError
| IndexError
| ValueError
| AttributeError
| TypeError
| AssertionError
| RuntimeError (msg : string)
| ExternalError (msg : string).

Inductive res (A : Type) : Type :=
| Ok (a : A)
| Raise (e : exn).
Arguments Ok {A} a.
Arguments Raise {A} e.

Definition is_ok {A} (r : res A) : bool :=
match r with Ok _ => true | Raise _ => false end.

(** A computation over a mutable state [St]: the state after an exception
is the state at the point where it was raised. *)
Definition M (St A : Type) : Type := St -> res A * St.

Definition ret {St A} (a : A) : M St A := fun s => (Ok a, s).
Definition raise {St A} (e : exn) : M St A := fun s => (Raise e, s).
Definition bind {St A B} (m : M St A) (k : A -> M St B) : M St B :=
fun s => match m s with
     | (Ok a, s') => k a s'
     | (Raise e, s') => (Raise e, s')
     end.

Definition gets {St A} (f : St -> A) : M St A := fun s => (Ok (f s), s).
Definition modify {St} (f : St -> St) : M St unit := fun s => (Ok tt, f s).

(** [lift_opt e o]: the value of a lookup, or exception [e]. *)
Definition lift_opt {St A} (e : exn) (o : option A) : M St A :=
match o with Some a => ret a | None => raise e end.

(** [try: m except KeyError: pass] *)
Definition try_pass_KeyError {St} (m : M St unit) : M St unit :=
fun s => match m s with
     | (Raise KeyError, s') => (Ok tt, s')
     | r => r
     end.

(** [try: m  except: h; raise] (a bare [except] that re-raises). *)
Definition try_except_reraise {St A} (m : M St A) (h : M St unit) : M St A :=
fun s => match m s with
     | (Raise e, s') =>
         match h s' with
         | (Ok _, s'') => (Raise e, s'')
         | (Raise e', s'') => (Raise e', s'')
         end
     | r => r
     end.

End Py.
Import Py.

Notation "'let!' x ':=' m 'in' k" := (bind m (fun x => k))
  (at level 10, x name, m at level 100, k at level 200, only parsing).
Notation "m '>>>' k" := (bind m (fun _ => k))
  (at level 95, k at level 200, right associativity, only parsing).

(** [for x in l: body x] *)
Fixpoint for_each {St A} (l : list A) (body : A -> M St unit) : M St unit :=
  match l with
  | [] => ret tt
  | x :: l' => body x >>> for_each l' body
  end.


(** ** The document and what it holds *)

(** Values held by settings. *)
Inductive PyVal : Type :=
| VNone
| VBool (b : bool)
| VInt (z : Z)
| VStr (s : string).

(** What a [Setting] object stores in [_val]: a literal value, or a
    reference binding to another setting. *)
Inductive SettingVal : Type :=
| Literal (v : PyVal)
| Reference (target : string).

(** A [Setting] (leaf) or a [Settings] group of named entries. *)
Inductive Setting : Type :=
| SLeaf (val : SettingVal)
| SGroup (setdict : list (string * Setting)).

(** A widget with its ordered children.  A reference to a live widget
    object is its position in the tree (the child indices from the root);
    [parent] is the position without its last index. *)
Module Widget.
Inductive t : Type :=
mk { name : string;
 typename : string;
 settings : Setting;
 children : list t }.
End Widget.

(** The import parameters of a linked file; [renames] maps the name a
    dataset has in the file to the name it has been given.  It is [None]
    until the first rename. *)
Module ImportParams.
Record t : Type := mk { renames : option (gmap string string) }.
End ImportParams.

(** A [LinkedFile] object.  All datasets read from one file share one
    such object, so they live in a store of the document model and the
    datasets hold references (keys of the store). *)
Module LinkedFile.
Record t : Type := mk { filename : string; params : ImportParams.t }.
End LinkedFile.

Module Dataset.
(** A dataset: its columns, its link to the file it was read from and
its tags.  Cell values are only copied, stored and zero-filled by
the operations; they are integers here. *)
Record t : Type :=
mk { data : option (list Z);
 serr : option (list Z);
 perr : option (list Z);
 nerr : option (list Z);
 linked : option nat;
 tags : gset string }.

Definition with_tags (g : gset string) (d : t) : t :=
mk (data d) (serr d) (perr d) (nerr d) (linked d) g.
Definition with_linked (l : option nat) (d : t) : t :=
mk (data d) (serr d) (perr d) (nerr d) l (tags d).
End Dataset.

Module Document.
(** The document: widget tree, datasets by name, the linked-file
objects, the custom definitions and the history batch that is open
(if any). *)
Record t : Type :=
mk { basewidget : Widget.t;
 data : gmap string Dataset.t;
 linkstore : gmap nat LinkedFile.t;
 customs : list (string * string * string);
 historybatch : option string }.

Definition with_basewidget (w : Widget.t) (d : t) : t :=
mk w (data d) (linkstore d) (customs d) (historybatch d).
Definition with_data (m : gmap string Dataset.t) (d : t) : t :=
mk (basewidget d) m (linkstore d) (customs d) (historybatch d).
Definition with_linkstore (m : gmap nat LinkedFile.t) (d : t) : t :=
mk (basewidget d) (data d) m (customs d) (historybatch d).
Definition with_customs (c : list (string * string * string)) (d : t) : t :=
mk (basewidget d) (data d) (linkstore d) c (historybatch d).
Definition with_historybatch (h : option string) (d : t) : t :=
mk (basewidget d) (data d) (linkstore d) (customs d) h.
End Document.

(** ** The widget tree: positions and paths *)

Definition with_children (cs : list Widget.t) (w : Widget.t) : Widget.t :=
  Widget.mk (Widget.name w) (Widget.typename w) (Widget.settings w) cs.

Definition with_settings (s : Setting) (w : Widget.t) : Widget.t :=
  Widget.mk (Widget.name w) (Widget.typename w) s (Widget.children w).

Definition with_name (n : string) (w : Widget.t) : Widget.t :=
  Widget.mk n (Widget.typename w) (Widget.settings w) (Widget.children w).

(** The widget object at a position. *)
Fixpoint get_at (pos : list nat) (w : Widget.t) : option Widget.t :=
  match pos with
  | [] => Some w
  | i :: pos' =>
      match Widget.children w !! i with
      | Some c => get_at pos' c
      | None => None
      end
  end.

(** In-place change of the widget object at a position. *)
Fixpoint modify_at (pos : list nat) (f : Widget.t -> Widget.t) (w : Widget.t)
  : Widget.t :=
  match pos with
  | [] => f w
  | i :: pos' =>
      match Widget.children w !! i with
      | Some c => with_children (<[i := modify_at pos' f c]> (Widget.children w)) w
      | None => w
      end
  end.

(** [w.parent] and the index of [w] among its parent's children; the
    root has no parent. *)
Definition parent_of (pos : list nat) : option (list nat * nat) :=
  match reverse pos with
  | [] => None
  | i :: rpos => Some (reverse rpos, i)
  end.

(** The names of the widgets met on the way from the root to a position. *)
Fixpoint names_at (pos : list nat) (w : Widget.t) : option (list string) :=
  match pos with
  | [] => Some []
  | i :: pos' =>
      match Widget.children w !! i with
      | Some c =>
          match names_at pos' c with
          | Some ns => Some (Widget.name c :: ns)
          | None => None
          end
      | None => None
      end
  end.

(** Modelled from the spec: the [path] property of a widget, the names
    from below the root joined with ['/'], and ["/"] for the root. *)
Definition widget_path (names : list string) : string :=
  match names with
  | [] => "/"
  | _ => String.concat "" (map (String.append "/") names)
  end.

(** [path.split('/')] *)
Fixpoint split_slash (s : string) (cur : string) : list string :=
  match s with
  | EmptyString => [cur]
  | String c s' =>
      if Ascii.eqb c "/"%char then cur :: split_slash s' ""
      else split_slash s' (cur +:+ String c "")
  end.

(** [[i for i in path.split('/') if i != '']] *)
Definition path_parts (path : string) : list string :=
  filter (fun s => s ≠ "") (split_slash path "").

(** The index of the first child called [name]. *)
Fixpoint find_child (name : string) (cs : list Widget.t) : option nat :=
  match cs with
  | [] => None
  | c :: cs' =>
      if decide (Widget.name c = name) then Some 0
      else S <$> find_child name cs'
  end.

(** Walking down from a widget by child names, the first child of each
    name being taken. *)
Fixpoint resolve_parts (parts : list string) (w : Widget.t) : option (list nat) :=
  match parts with
  | [] => Some []
  | p :: parts' =>
      match find_child p (Widget.children w) with
      | Some i =>
          match Widget.children w !! i with
          | Some c => cons i <$> resolve_parts parts' c
          | None => None
          end
      | None => None
      end
  end.

(** A name that the path syntax can carry: not empty and without ['/']. *)
Fixpoint has_slash (s : string) : bool :=
  match s with
  | EmptyString => false
  | String c s' => Ascii.eqb c "/"%char || has_slash s'
  end.

Definition valid_name (s : string) : bool :=
  negb (String.eqb s "") && negb (has_slash s).

(** All widgets below the root have valid names. *)
Fixpoint names_ok (w : Widget.t) : bool :=
  forallb (fun c => valid_name (Widget.name c) && names_ok c) (Widget.children w).

(** Python list methods on the children of a widget. *)
Definition list_insert_at {A} (i : nat) (x : A) (l : list A) : list A :=
  take i l ++ x :: drop i l.

(** ** Settings of a widget *)

Fixpoint setdict_get (name : string) (d : list (string * Setting)) : option Setting :=
  match d with
  | [] => None
  | (k, s) :: d' => if decide (k = name) then Some s else setdict_get name d'
  end.

(** [for i in path: s = s.get(i)]: a [Settings] group returns the entry
    of that name ([KeyError] without one); on a [Setting], [get] takes no
    argument ([TypeError]). *)
Fixpoint setting_get (path : list string) (s : Setting) : res Setting :=
  match path with
  | [] => Ok s
  | i :: path' =>
      match s with
      | SGroup d =>
          match setdict_get i d with
          | Some s' => setting_get path' s'
          | None => Raise KeyError
          end
      | SLeaf _ => Raise TypeError
      end
  end.

(** The settings tree after [set(v)] on the setting reached by [path]. *)
Fixpoint setting_set (path : list string) (v : SettingVal) (s : Setting) : Setting :=
  match path with
  | [] => match s with SLeaf _ => SLeaf v | SGroup d => SGroup d end
  | i :: path' =>
      match s with
      | SGroup d =>
          SGroup ((fix upd (d : list (string * Setting)) :=
                     match d with
                     | [] => []
                     | (k, s') :: d' =>
                         if decide (k = i) then (k, setting_set path' v s') :: d'
                         else (k, s') :: upd d'
                     end) d)
      | SLeaf x => SLeaf x
      end
  end.

(** The state an operation's method runs in: the operation object and
    the document it is passed. *)
Section World.
Context {Self : Type}.
Abbreviation W := (Self * Document.t)%type.

Definition get_self : M W Self := gets fst.
Definition set_self (s : Self) : M W unit := modify (fun w => (s, w.2)).
Definition get_doc : M W Document.t := gets snd.
Definition set_doc (d : Document.t) : M W unit := modify (fun w => (w.1, d)).

(** [document.data[name]] *)
Definition doc_data_get (name : string) : M W Dataset.t :=
let! d := get_doc in lift_opt KeyError (Document.data d !! name).

(** [document.data.get(name, None)] *)
Definition doc_data_lookup (name : string) : M W (option Dataset.t) :=
let! d := get_doc in ret (Document.data d !! name).

(** Assignment to an attribute of the object [document.data[name]]
(the caller has looked the object up: the name is present). *)
Definition doc_data_store (name : string) (ds : Dataset.t) : M W unit :=
let! d := get_doc in
set_doc (Document.with_data (<[name := ds]> (Document.data d)) d).

(** Modelled from the spec: [Document.setData(name, ds)] of the
document class, which installs [ds] under [name]. *)
Definition setData (name : string) (ds : Dataset.t) : M W unit :=
let! d := get_doc in
set_doc (Document.with_data (<[name := ds]> (Document.data d)) d).

(** Modelled from the spec: [Document.deleteData(name)] of the document
class, [del self.data[name]]: a [KeyError] when the name is absent. *)
Definition deleteData (name : string) : M W unit :=
let! d := get_doc in
match Document.data d !! name with
| Some _ => set_doc (Document.with_data (delete name (Document.data d)) d)
| None => raise KeyError
end.

(** Modelled from the spec: [Document.renameDataset(old, new)] of the
document class, which moves the dataset object to its new name. *)
Definition renameDataset (oldname newname : string) : M W unit :=
let! d := get_doc in
match Document.data d !! oldname with
| Some ds =>
set_doc (Document.with_data
           (<[newname := ds]> (delete oldname (Document.data d))) d)
| None => raise KeyError
end.

(** The [LinkedFile] object behind a reference. *)
Definition link_get (l : nat) : M W LinkedFile.t :=
let! d := get_doc in lift_opt AttributeError (Document.linkstore d !! l).

Definition link_store (l : nat) (lf : LinkedFile.t) : M W unit :=
let! d := get_doc in
set_doc (Document.with_linkstore (<[l := lf]> (Document.linkstore d)) d).

(** Modelled from the spec: [Document.batchHistory(batch)] of the
document class: a command opens the grouping transaction, [None]
closes it. *)
Definition batchHistory (batch : option string) : M W unit :=
let! d := get_doc in set_doc (Document.with_historybatch batch d).

Definition get_tree : M W Widget.t :=
let! d := get_doc in ret (Document.basewidget d).

Definition set_tree (w : Widget.t) : M W unit :=
let! d := get_doc in set_doc (Document.with_basewidget w d).

(** Modelled from the spec: [Document.resolveFullWidgetPath(path)] of
the document class: the widget reached from the root by the names
in the path (empty parts skipped); the lookup is asserted. *)
Definition resolveFullWidgetPath (path : string) : M W (list nat) :=
let! root := get_tree in
lift_opt AssertionError (resolve_parts (path_parts path) root).

(** Reading the widget object behind a reference. *)
Definition widget_at (pos : list nat) : M W Widget.t :=
let! root := get_tree in lift_opt AttributeError (get_at pos root).

(** [w.path] for the widget at [pos]. *)
Definition path_of (pos : list nat) : M W string :=
let! root := get_tree in
let! ns := lift_opt AttributeError (names_at pos root) in
ret (widget_path ns).

(** Modelled from the spec: [Widget.removeChild(name)] of the widget
class: the first child of that name leaves the children; an error
when there is none. *)
Definition removeChild (parent : list nat) (name : string) : M W unit :=
let! p := widget_at parent in
match find_child name (Widget.children p) with
| Some i =>
let! root := get_tree in
set_tree (modify_at parent (with_children (delete i (Widget.children p))) root)
| None => raise ValueError
end.

(** Modelled from the spec: [Widget.addChild(w, index)] of the widget
class, [self.children.insert(index, w)]. *)
Definition addChild (parent : list nat) (w : Widget.t) (index : nat) : M W unit :=
let! p := widget_at parent in
let! root := get_tree in
set_tree (modify_at parent
        (with_children (list_insert_at index w (Widget.children p))) root).

(** Modelled from the spec: [Widget.moveChild(w, direction) -> bool] of
the widget class: the child at index [i] is taken out and put back
[direction] places further; at a list boundary nothing moves and the
result is [False]. *)
Definition moveChild (parent : list nat) (i : nat) (direction : Z) : M W bool :=
let! p := widget_at parent in
let cs := Widget.children p in
match cs !! i with
| Some w =>
let rest := delete i cs in
let newindex := (Z.of_nat i + direction)%Z in
if decide (newindex < 0 \/ newindex > Z.of_nat (length rest))%Z then ret false
else
  let! root := get_tree in
  set_tree (modify_at parent
              (with_children (list_insert_at (Z.to_nat newindex) w rest)) root) >>>
  ret true
| None => raise ValueError
end.
End World.

(** Python [set] methods on a dataset's tags. *)
Definition set_add (x : string) (s : gset string) : gset string := s ∪ {[x]}.

(** [s.remove(x)]: a [KeyError] when [x] is not a member. *)
Definition set_remove {St} (x : string) (s : gset string) : M St (gset string) :=
  if decide (x ∈ s) then ret (s ∖ {[x]}) else raise KeyError.

(** ** Setting operations *)

(** Modelled from the spec: [Document.resolveFullSettingPath(path)] of the
    document class.  The leading parts of the path name widgets, as far as
    children of those names exist; the remaining parts name the setting
    inside the settings of the widget reached. *)
Fixpoint resolve_setting_parts (parts : list string) (w : Widget.t)
  : list nat * list string :=
  match parts with
  | [] => ([], [])
  | p :: parts' =>
      match find_child p (Widget.children w) with
      | Some i =>
          match Widget.children w !! i with
          | Some c =>
              let r := resolve_setting_parts parts' c in (i :: r.1, r.2)
          | None => ([], parts)
          end
      | None => ([], parts)
      end
  end.

(** A reference to a live [Setting] object: the widget it belongs to and
    its place in the settings of that widget. *)
Definition SettingRef : Type := (list nat * list string)%type.

Definition resolveFullSettingPath {Self} (path : string)
  : M (Self * Document.t) SettingRef :=
  let! root := get_tree in
  let r := resolve_setting_parts (path_parts path) root in
  let! w := widget_at r.1 in
  match setting_get r.2 (Widget.settings w) with
  | Ok (SLeaf _) => ret r
  | _ => raise AssertionError
  end.

(** The stored [_val] of the setting behind a reference. *)
Definition setting_stored {Self} (r : SettingRef) : M (Self * Document.t) SettingVal :=
  let! w := widget_at r.1 in
  match setting_get r.2 (Widget.settings w) with
  | Ok (SLeaf sv) => ret sv
  | Ok (SGroup _) => raise AttributeError
  | Raise e => raise e
  end.

(** Modelled from the spec: [Setting.set(value)] of the setting class:
    the setting now holds the value, or the reference binding, given. *)
Definition setting_store {Self} (r : SettingRef) (v : SettingVal)
  : M (Self * Document.t) unit :=
  let! w := widget_at r.1 in
  let! root := get_tree in
  set_tree (modify_at r.1 (with_settings (setting_set r.2 v (Widget.settings w))) root).

Module OperationSettingSet.
Record t : Type :=
mk { settingpath : string;
 value : SettingVal;
 oldvalue : option SettingVal }.

Definition init (settingpath : string) (value : SettingVal) : t :=
mk settingpath value None.

Definition do : M (t * Document.t) unit :=
let! self := get_self in
let! setting := resolveFullSettingPath (settingpath self) in
let! sv := setting_stored setting in
let old :=
match sv with
| Reference r => Reference r   (* [setting.getReference()] *)
| Literal v => Literal v       (* [setting.get()] *)
end in
set_self (mk (settingpath self) (value self) (Some old)) >>>
setting_store setting (value self).

Definition undo : M (t * Document.t) unit :=
let! self := get_self in
let! setting := resolveFullSettingPath (settingpath self) in
let! old := lift_opt AttributeError (oldvalue self) in
setting_store setting old.
End OperationSettingSet.

Module OperationSettingPropagate.
(** The attributes that [__init__] derives from the setting and its
arguments, and [restorevals], set by [do]. *)
Record t : Type :=
mk { val : PyVal;
 widgetname : option string;
 rootpath : option string;
 maxlevels : Z;
 setpath : list string;
 widgettype : string;
 restorevals : option (gmap string PyVal) }.

Definition init (val : PyVal) (widgetname : option string)
(rootpath : option string) (maxlevels : Z) (setpath : list string)
(widgettype : string) : t :=
mk val widgetname rootpath maxlevels setpath widgettype None.

Definition set_restorevals (m : gmap string PyVal) (self : t) : t :=
mk (val self) (widgetname self) (rootpath self) (maxlevels self)
(setpath self) (widgettype self) (Some m).

(** [(w.name == name or name is None) and
(w.typename == typename or typename is None)] *)
Definition matches (name typename : option string) (w : Widget.t) : bool :=
match name with
| Some n => bool_decide (Widget.name w = n)
| None => true
end
&& match typename with
| Some ty => bool_decide (Widget.typename w = ty)
| None => true
end.

(** [_recursiveGet(root, name, typename, outlist, maxlevels)]: the
widgets appended to [outlist], as references (positions; [rootpos]
is the position of [root]). *)
Fixpoint recursiveGet (root : Widget.t) (rootpos : list nat)
(name typename : option string) (maxlevels : Z) {struct root}
: list (list nat) :=
if decide (maxlevels ≠ 0%Z) then
let newmaxlevels := (maxlevels - 1)%Z in
(fix loop (cs : list Widget.t) (i : nat) {struct cs} : list (list nat) :=
 match cs with
 | [] => []
 | w :: cs' =>
     (if matches name typename w then [rootpos ++ [i]] else [])
     ++ recursiveGet w (rootpos ++ [i]) name typename newmaxlevels
     ++ loop cs' (S i)
 end) (Widget.children root) 0%nat
else [].

(** Modelled from the spec: the [path] property of a setting, the path
of its widget followed by the names leading to the setting. *)
Definition setting_path (widgetnames : list string) (setpath : list string) : string :=
String.concat "" (map (String.append "/") (widgetnames ++ setpath)).

(** The [val] property of a setting: its value; a reference binding is
followed.  What a reference resolves to is decided outside this
file, by [deref] (the tree, the path of the setting, the target). *)
Definition val_of (deref : Widget.t -> string -> string -> PyVal)
(root : Widget.t) (path : string) (sv : SettingVal) : PyVal :=
match sv with
| Literal v => v
| Reference target => deref root path target
end.

(** One turn of [for w in widgetlist]. *)
Definition do_body (deref : Widget.t -> string -> string -> PyVal)
(pos : list nat) : M (t * Document.t) unit :=
let! self := get_self in
let! sv := setting_stored (pos, setpath self) in
let! root := get_tree in
let! ns := lift_opt AttributeError (names_at pos root) in
let path := setting_path ns (setpath self) in
let! rv := lift_opt AttributeError (restorevals self) in
set_self (set_restorevals (<[path := val_of deref root path sv]> rv) self) >>>
setting_store (pos, setpath self) (Literal (val self)).

Definition do (deref : Widget.t -> string -> string -> PyVal)
: M (t * Document.t) unit :=
let! self := get_self in
let! rootpos :=
match rootpath self with
| None => ret []
| Some p => if decide (p = "") then ret [] else resolveFullWidgetPath p
end in
let! root := widget_at rootpos in
let widgetlist :=
recursiveGet root rootpos (widgetname self) (Some (widgettype self))
(maxlevels self) in
set_self (set_restorevals ∅ self) >>>
for_each widgetlist (do_body deref).

Definition undo : M (t * Document.t) unit :=
let! self := get_self in
let! rv := lift_opt AttributeError (restorevals self) in
for_each (map_to_list rv) (fun item =>
let! setting := resolveFullSettingPath item.1 in
setting_store setting (Literal item.2)).
End OperationSettingPropagate.

(** ** Widget operations *)

Module OperationWidgetDelete.
Record t : Type :=
mk { widgetpath : string;
 oldwidget : option Widget.t;
 oldparentpath : option string;
 oldindex : option nat }.

Definition init (widgetpath : string) : t := mk widgetpath None None None.

Definition do : M (t * Document.t) unit :=
let! self := get_self in
let! pos := resolveFullWidgetPath (widgetpath self) in
let! w := widget_at pos in
set_self (mk (widgetpath self) (Some w) None None) >>>
match parent_of pos with
| None => raise AttributeError
| Some (ppos, i) =>
let! ppath := path_of ppos in
set_self (mk (widgetpath self) (Some w) (Some ppath) (Some i)) >>>
removeChild ppos (Widget.name w)
end.

Definition undo : M (t * Document.t) unit :=
let! self := get_self in
let! ppath := lift_opt AttributeError (oldparentpath self) in
let! ppos := resolveFullWidgetPath ppath in
let! w := lift_opt AttributeError (oldwidget self) in
let! i := lift_opt AttributeError (oldindex self) in
addChild ppos w i.
End OperationWidgetDelete.

Module OperationWidgetsDelete.
Record t : Type :=
mk { widgetpaths : list string;
 oldwidgets : option (list Widget.t);
 oldparentpaths : option (list string);
 oldindexes : option (list nat) }.

Definition init (widgetpaths : list string) : t :=
mk widgetpaths None None None.

(** [widgetpaths.sort(key=len)]: Python's sort is stable; so is this
insertion sort (a path goes before the first path that is not
shorter). *)
Fixpoint insert_by_len (p : string) (l : list string) : list string :=
match l with
| [] => [p]
| q :: l' =>
if (String.length p <=? String.length q)%nat then p :: q :: l'
else q :: insert_by_len p l'
end.

Definition sort_by_len (l : list string) : list string :=
foldr insert_by_len [] l.

(** [wp[:len(kept)+1] == kept+'/'] *)
Definition shares_ancestry (wp kept : string) : bool :=
bool_decide (String.substring 0 (String.length kept + 1) wp = kept +:+ "/").

(** The [while] loop: [kept] is [widgetpaths[:i]], [rest] is
[widgetpaths[i:]]; a path is deleted from the list when one of the
paths before it is its ancestor, otherwise [i] moves on. *)
Fixpoint drop_descendants (kept rest : list string) : list string :=
match rest with
| [] => kept
| wp :: rest' =>
if existsb (shares_ancestry wp) kept then drop_descendants kept rest'
else drop_descendants (kept ++ [wp]) rest'
end.

Definition distinct_ancestry (paths : list string) : list string :=
drop_descendants [] (sort_by_len paths).

(** One turn of [for path in widgetpaths]. *)
Definition do_body (path : string) : M (t * Document.t) unit :=
let! pos := resolveFullWidgetPath path in
let! w := widget_at pos in
let! self := get_self in
let! ows := lift_opt AttributeError (oldwidgets self) in
set_self (mk (widgetpaths self) (Some (ows ++ [w]))
        (oldparentpaths self) (oldindexes self)) >>>
match parent_of pos with
| None => raise AttributeError
| Some (ppos, i) =>
let! ppath := path_of ppos in
let! self := get_self in
let! opp := lift_opt AttributeError (oldparentpaths self) in
let! ois := lift_opt AttributeError (oldindexes self) in
set_self (mk (widgetpaths self) (oldwidgets self)
            (Some (opp ++ [ppath])) (Some (ois ++ [i]))) >>>
removeChild ppos (Widget.name w)
end.

Definition do : M (t * Document.t) unit :=
let! self := get_self in
let widgetpaths' := distinct_ancestry (widgetpaths self) in
set_self (mk (widgetpaths self) (Some []) (Some []) (Some [])) >>>
for_each widgetpaths' do_body.

(** One turn of [for i in crange(len(self.oldwidgets)-1,-1,-1)]. *)
Definition undo_body (i : nat) : M (t * Document.t) unit :=
let! self := get_self in
let! opp := lift_opt AttributeError (oldparentpaths self) in
let! ppath := lift_opt IndexError (opp !! i) in
let! ppos := resolveFullWidgetPath ppath in
let! ows := lift_opt AttributeError (oldwidgets self) in
let! w := lift_opt IndexError (ows !! i) in
let! ois := lift_opt AttributeError (oldindexes self) in
let! idx := lift_opt IndexError (ois !! i) in
addChild ppos w idx.

Definition undo : M (t * Document.t) unit :=
let! self := get_self in
let! ows := lift_opt AttributeError (oldwidgets self) in
for_each (reverse (seq 0 (length ows))) undo_body.
End OperationWidgetsDelete.

Module OperationWidgetMoveUpDown.
Record t : Type :=
mk { widgetpath : string;
 direction : Z;
 suceeded : option bool;
 newpath : option string }.

Definition init (widgetpath : string) (direction : Z) : t :=
mk widgetpath direction None None.

Definition do : M (t * Document.t) unit :=
let! self := get_self in
let! pos := resolveFullWidgetPath (widgetpath self) in
let! widget := widget_at pos in
match parent_of pos with
| None => raise AttributeError
| Some (ppos, i) =>
let! ok := moveChild ppos i (direction self) in
set_self (mk (widgetpath self) (direction self) (Some ok) None) >>>
(* [widget.path]: the widget has kept its parent and its name *)
let! root := get_tree in
let! ns := lift_opt AttributeError (names_at ppos root) in
set_self (mk (widgetpath self) (direction self) (Some ok)
            (Some (widget_path (ns ++ [Widget.name widget]))))
end.

Definition undo : M (t * Document.t) unit :=
let! self := get_self in
let! ok := lift_opt AttributeError (suceeded self) in
if ok then
let! np := lift_opt AttributeError (newpath self) in
let! pos := resolveFullWidgetPath np in
match parent_of pos with
| None => raise AttributeError
| Some (ppos, i) => moveChild ppos i (- direction self) >>> ret tt
end
else ret tt.
End OperationWidgetMoveUpDown.

(** ** Dataset operations *)

Module OperationDataTag.
(** [removetags] is set by [do]; an attribute that was never assigned
is [None] here and reading it raises [AttributeError]. *)
Record t : Type :=
mk { tag : string;
 datasetnames : list string;
 removetags : option (list string) }.

Definition init (tag : string) (datasetnames : list string) : t :=
mk tag datasetnames None.

Definition set_removetags (l : list string) (self : t) : t :=
mk (tag self) (datasetnames self) (Some l).

Definition do_body (name : string) : M (t * Document.t) unit :=
let! self := get_self in
let! ds := doc_data_get name in
let existing := Dataset.tags ds in
if decide (tag self ∈ existing) then ret tt
else
doc_data_store name (Dataset.with_tags (set_add (tag self) existing) ds) >>>
let! rt := lift_opt AttributeError (removetags self) in
set_self (set_removetags (rt ++ [name]) self).

Definition do : M (t * Document.t) unit :=
let! self := get_self in
set_self (set_removetags [] self) >>>
for_each (datasetnames self) do_body.

Definition undo_body (name : string) : M (t * Document.t) unit :=
let! self := get_self in
let! ds := doc_data_get name in
let! tags' := set_remove (tag self) (Dataset.tags ds) in
doc_data_store name (Dataset.with_tags tags' ds).

Definition undo : M (t * Document.t) unit :=
let! self := get_self in
let! rt := lift_opt AttributeError (removetags self) in
for_each rt undo_body.
End OperationDataTag.

Module OperationDataUntag.
Record t : Type := mk { tag : string; datasetnames : list string }.

Definition init (tag : string) (datasetnames : list string) : t :=
mk tag datasetnames.

Definition do_body (name : string) : M (t * Document.t) unit :=
let! self := get_self in
let! ds := doc_data_get name in
let! tags' := set_remove (tag self) (Dataset.tags ds) in
doc_data_store name (Dataset.with_tags tags' ds).

Definition do : M (t * Document.t) unit :=
let! self := get_self in
for_each (datasetnames self) do_body.

Definition undo_body (name : string) : M (t * Document.t) unit :=
let! self := get_self in
let! ds := doc_data_get name in
doc_data_store name (Dataset.with_tags (set_add (tag self) (Dataset.tags ds)) ds).

Definition undo : M (t * Document.t) unit :=
let! self := get_self in
for_each (datasetnames self) undo_body.
End OperationDataUntag.

Module OperationDatasetUnlinkByFile.
Record t : Type :=
mk { filename : string;
 oldlinks : option (gmap string nat) }.

Definition init (filename : string) : t := mk filename None.

Definition set_oldlinks (m : gmap string nat) (self : t) : t :=
mk (filename self) (Some m).

(** One turn of [for name, ds in citems(document.data)]. *)
Definition do_body (item : string * Dataset.t) : M (t * Document.t) unit :=
let name := item.1 in
let ds := item.2 in
let! self := get_self in
match Dataset.linked ds with
| Some l =>
let! lf := link_get l in
if decide (LinkedFile.filename lf = filename self) then
  let! ol := lift_opt AttributeError (oldlinks self) in
  set_self (set_oldlinks (<[name := l]> ol) self) >>>
  doc_data_store name (Dataset.with_linked None ds)
else ret tt
| None => ret tt
end.

Definition do : M (t * Document.t) unit :=
let! self := get_self in
set_self (set_oldlinks ∅ self) >>>
let! d := get_doc in
for_each (map_to_list (Document.data d)) do_body.

(** One turn of [for name, link in citems(self.oldlinks)]: the
assignment to [document.data[name].linked] inside [try], a
[KeyError] from the lookup passed over. *)
Definition undo_body (item : string * nat) : M (t * Document.t) unit :=
try_pass_KeyError
(let! ds := doc_data_get item.1 in
doc_data_store item.1 (Dataset.with_linked (Some item.2) ds)).

Definition undo : M (t * Document.t) unit :=
let! self := get_self in
let! ol := lift_opt AttributeError (oldlinks self) in
for_each (map_to_list ol) undo_body.
End OperationDatasetUnlinkByFile.

Module OperationDatasetSet.
Record t : Type :=
mk { datasetname : string;
 dataset : Dataset.t;
 olddata : option (option Dataset.t) }.

Definition init (datasetname : string) (dataset : Dataset.t) : t :=
mk datasetname dataset None.

Definition do : M (t * Document.t) unit :=
let! self := get_self in
let! old := doc_data_lookup (datasetname self) in
set_self (mk (datasetname self) (dataset self) (Some old)) >>>
setData (datasetname self) (dataset self).

Definition undo : M (t * Document.t) unit :=
let! self := get_self in
deleteData (datasetname self) >>>
let! old := lift_opt AttributeError (olddata self) in
match old with
| Some ds => setData (datasetname self) ds
| None => ret tt
end.
End OperationDatasetSet.

Module OperationDatasetDelete.
Record t : Type :=
mk { datasetname : string; olddata : option Dataset.t }.

Definition init (datasetname : string) : t := mk datasetname None.

Definition do : M (t * Document.t) unit :=
let! self := get_self in
let! ds := doc_data_get (datasetname self) in
set_self (mk (datasetname self) (Some ds)) >>>
deleteData (datasetname self).

Definition undo : M (t * Document.t) unit :=
let! self := get_self in
let! ds := lift_opt AttributeError (olddata self) in
setData (datasetname self) ds.
End OperationDatasetDelete.

(** Modelled from the spec: [returnCopy()] of the dataset classes, a new
    dataset object with copies of the columns, not linked and without
    tags. *)
Definition returnCopy (ds : Dataset.t) : Dataset.t :=
  Dataset.mk (Dataset.data ds) (Dataset.serr ds) (Dataset.perr ds)
    (Dataset.nerr ds) None ∅.

Module OperationDatasetDuplicate.
Record t : Type :=
mk { origname : string;
 duplname : string;
 olddata : option (option Dataset.t) }.

Definition init (origname duplname : string) : t := mk origname duplname None.

Definition do : M (t * Document.t) unit :=
let! self := get_self in
let! old := doc_data_lookup (duplname self) in
set_self (mk (origname self) (duplname self) (Some old)) >>>
let! dataset := doc_data_get (origname self) in
setData (duplname self) (returnCopy dataset).

Definition undo : M (t * Document.t) unit :=
let! self := get_self in
let! old := lift_opt AttributeError (olddata self) in
match old with
| None => deleteData (duplname self)
| Some ds => setData (duplname self) ds
end.
End OperationDatasetDuplicate.

Module OperationDatasetUnlinkFile.
Record t : Type :=
mk { datasetname : string; oldfilelink : option (option nat) }.

Definition init (datasetname : string) : t := mk datasetname None.

Definition do : M (t * Document.t) unit :=
let! self := get_self in
let! dataset := doc_data_get (datasetname self) in
set_self (mk (datasetname self) (Some (Dataset.linked dataset))) >>>
doc_data_store (datasetname self) (Dataset.with_linked None dataset).

Definition undo : M (t * Document.t) unit :=
let! self := get_self in
let! dataset := doc_data_get (datasetname self) in
let! link := lift_opt AttributeError (oldfilelink self) in
doc_data_store (datasetname self) (Dataset.with_linked link dataset).
End OperationDatasetUnlinkFile.

Module OperationDatasetUnlinkRelation.
Record t : Type :=
mk { datasetname : string; olddataset : option Dataset.t }.

Definition init (datasetname : string) : t := mk datasetname None.

Definition do : M (t * Document.t) unit :=
let! self := get_self in
let! dataset := doc_data_get (datasetname self) in
set_self (mk (datasetname self) (Some dataset)) >>>
setData (datasetname self) (returnCopy dataset).

Definition undo : M (t * Document.t) unit :=
let! self := get_self in
let! ds := lift_opt AttributeError (olddataset self) in
setData (datasetname self) ds.
End OperationDatasetUnlinkRelation.

Module OperationDatasetCreate.
(** The base class of the dataset-creating operations.  ([self.parts]
is read by the subclasses only, where they build the dataset.) *)
Record t : Type :=
mk { datasetname : string;
 olddataset : option (option Dataset.t) }.

Definition init (datasetname : string) : t := mk datasetname None.

(** [OperationDatasetCreate.do]: record the old dataset if it exists. *)
Definition do : M (t * Document.t) unit :=
let! self := get_self in
let! old := doc_data_lookup (datasetname self) in
set_self (mk (datasetname self) (Some old)).

Definition undo : M (t * Document.t) unit :=
let! self := get_self in
deleteData (datasetname self) >>>
let! old := lift_opt AttributeError (olddataset self) in
match old with
| Some ds => setData (datasetname self) ds
| None => ret tt
end.
End OperationDatasetCreate.

(** A method of a base class run on an object of a subclass: [get] and
[set] give and replace the attributes of the base class. *)
Definition inherited {T B A} (get : T -> B) (set : B -> T -> T)
(m : M (B * Document.t) A) : M (T * Document.t) A :=
fun w => let r := m (get w.1, w.2) in (r.1, (set r.2.1 w.1, r.2.2)).

Module OperationDatasetCreateRange.
(** [OperationDatasetCreateRange]: the attributes of the base class,
and for [numsteps], [parts] and [linked] the dataset that [do] builds
from them, [made]: the lookup [self.parts['data']] and the constructors
[datasets.DatasetRange] and [datasets.Dataset] are outside this file and
may raise. *)
Record t : Type :=
mk { base : OperationDatasetCreate.t;
 made : res Dataset.t }.

Definition with_base (b : OperationDatasetCreate.t) (self : t) : t :=
mk b (made self).

(** [do]; the dataset that the method returns is not kept. *)
Definition do : M (t * Document.t) unit :=
inherited base with_base OperationDatasetCreate.do >>>
let! self := get_self in
let! ds := (fun w => (made self, w)) in
setData (OperationDatasetCreate.datasetname (base self)) ds.

(** [undo] is that of the base class. *)
Definition undo : M (t * Document.t) unit :=
inherited base with_base OperationDatasetCreate.undo.
End OperationDatasetCreateRange.

Module OperationDatasetCreateParameteric.
(** [OperationDatasetCreateParameteric]: the attributes of the base
class, and for [t0], [t1], [numsteps], [parts] and [linked] the dataset
that [do] builds from them and the document, [make]:
[datasets.DatasetExpression], given the document, and [datasets.Dataset]
are outside this file and may raise. *)
Record t : Type :=
mk { base : OperationDatasetCreate.t;
 make : Document.t -> res Dataset.t }.

Definition with_base (b : OperationDatasetCreate.t) (self : t) : t :=
mk b (make self).

Definition do : M (t * Document.t) unit :=
inherited base with_base OperationDatasetCreate.do >>>
let! self := get_self in
let! d := get_doc in
let! ds := (fun w => (make self d, w)) in
setData (OperationDatasetCreate.datasetname (base self)) ds.

Definition undo : M (t * Document.t) unit :=
inherited base with_base OperationDatasetCreate.undo.
End OperationDatasetCreateParameteric.

Module OperationDatasetCreateExpression.
(** [OperationDatasetCreateExpression]: the attributes of the base
class, and for [parts], [link] and [parametric] the dataset that [do]
builds from them and the document, [make], as for
[OperationDatasetCreateParameteric]. *)
Record t : Type :=
mk { base : OperationDatasetCreate.t;
 make : Document.t -> res Dataset.t }.

Definition with_base (b : OperationDatasetCreate.t) (self : t) : t :=
mk b (make self).

Definition do : M (t * Document.t) unit :=
inherited base with_base OperationDatasetCreate.do >>>
let! self := get_self in
let! d := get_doc in
let! ds := (fun w => (make self d, w)) in
setData (OperationDatasetCreate.datasetname (base self)) ds.

Definition undo : M (t * Document.t) unit :=
inherited base with_base OperationDatasetCreate.undo.
End OperationDatasetCreateExpression.

Module OperationDatasetDeleteByFile.
Record t : Type :=
mk { filename : string;
 olddatasets : option (gmap string Dataset.t) }.

Definition init (filename : string) : t := mk filename None.

(** One turn of [for name, ds in list(document.data.items())]. *)
Definition do_body (item : string * Dataset.t) : M (t * Document.t) unit :=
let name := item.1 in
let ds := item.2 in
let! self := get_self in
match Dataset.linked ds with
| Some l =>
let! lf := link_get l in
if decide (LinkedFile.filename lf = filename self) then
  let! od := lift_opt AttributeError (olddatasets self) in
  set_self (mk (filename self) (Some (<[name := ds]> od))) >>>
  deleteData name
else ret tt
| None => ret tt
end.

Definition do : M (t * Document.t) unit :=
let! self := get_self in
set_self (mk (filename self) (Some ∅)) >>>
let! d := get_doc in
for_each (map_to_list (Document.data d)) do_body.

Definition undo : M (t * Document.t) unit :=
let! self := get_self in
let! od := lift_opt AttributeError (olddatasets self) in
for_each (map_to_list od) (fun item => setData item.1 item.2).
End OperationDatasetDeleteByFile.

(** The columns of a dataset by attribute name. *)
Inductive Column : Type := ColData | ColSerr | ColPerr | ColNerr.

Definition column_of_name (s : string) : option Column :=
  if decide (s = "data") then Some ColData
  else if decide (s = "serr") then Some ColSerr
  else if decide (s = "perr") then Some ColPerr
  else if decide (s = "nerr") then Some ColNerr
  else None.

Definition get_column (c : Column) (ds : Dataset.t) : option (list Z) :=
  match c with
  | ColData => Dataset.data ds
  | ColSerr => Dataset.serr ds
  | ColPerr => Dataset.perr ds
  | ColNerr => Dataset.nerr ds
  end.

Definition set_column (c : Column) (v : option (list Z)) (ds : Dataset.t) : Dataset.t :=
  match c with
  | ColData => Dataset.mk v (Dataset.serr ds) (Dataset.perr ds) (Dataset.nerr ds)
                 (Dataset.linked ds) (Dataset.tags ds)
  | ColSerr => Dataset.mk (Dataset.data ds) v (Dataset.perr ds) (Dataset.nerr ds)
                 (Dataset.linked ds) (Dataset.tags ds)
  | ColPerr => Dataset.mk (Dataset.data ds) (Dataset.serr ds) v (Dataset.nerr ds)
                 (Dataset.linked ds) (Dataset.tags ds)
  | ColNerr => Dataset.mk (Dataset.data ds) (Dataset.serr ds) (Dataset.perr ds) v
                 (Dataset.linked ds) (Dataset.tags ds)
  end.

Module OperationDatasetAddColumn.
Record t : Type := mk { datasetname : string; columnname : string }.

Definition init (datasetname columnname : string) : t := mk datasetname columnname.

Definition invalid : exn := RuntimeError "Invalid column name for dataset".

(** The column is zero-filled to the shape of the [data] column.  A name
that is not a column of the dataset class, and a [data] column that
is [None] (no [shape]), end in the [RuntimeError] of the [except]
clause. *)
Definition do : M (t * Document.t) unit :=
let! self := get_self in
let! ds := doc_data_get (datasetname self) in
let! c := lift_opt invalid (column_of_name (columnname self)) in
let! datacol := lift_opt invalid (Dataset.data ds) in
setData (datasetname self)
(set_column c (Some (List.repeat 0%Z (length datacol))) ds).

Definition undo : M (t * Document.t) unit :=
let! self := get_self in
let! ds := doc_data_get (datasetname self) in
let! c := lift_opt AttributeError (column_of_name (columnname self)) in
setData (datasetname self) (set_column c None ds).
End OperationDatasetAddColumn.

(** Python indexing [l[i]] with a possibly negative index. *)
Definition py_index (len : nat) (i : Z) : option nat :=
  if decide (0 <= i < Z.of_nat len)%Z then Some (Z.to_nat i)
  else if decide (- Z.of_nat len <= i < 0)%Z then Some (Z.to_nat (Z.of_nat len + i))
  else None.

Module OperationDatasetSetVal.
Record t : Type :=
mk { datasetname : string;
 columnname : string;
 row : Z;
 val : Z;
 oldval : option Z }.

Definition init (datasetname columnname : string) (row val : Z) : t :=
mk datasetname columnname row val None.

(** [datacol = getattr(ds, columnname)], then item access and
assignment on it: [TypeError] when the column is [None],
[IndexError] when the row is out of range. *)
Definition locate (self : t) (ds : Dataset.t)
: M (t * Document.t) (Column * list Z * nat) :=
let! c := lift_opt AttributeError (column_of_name (columnname self)) in
let! datacol := lift_opt TypeError (get_column c ds) in
let! i := lift_opt IndexError (py_index (length datacol) (row self)) in
ret (c, datacol, i).

Definition do : M (t * Document.t) unit :=
let! self := get_self in
let! ds := doc_data_get (datasetname self) in
let! loc := locate self ds in
let! old := lift_opt IndexError (loc.1.2 !! loc.2) in
set_self (mk (datasetname self) (columnname self) (row self) (val self) (Some old)) >>>
doc_data_store (datasetname self)
(set_column loc.1.1 (Some (<[loc.2 := val self]> loc.1.2)) ds).

Definition undo : M (t * Document.t) unit :=
let! self := get_self in
let! ds := doc_data_get (datasetname self) in
let! c := lift_opt AttributeError (column_of_name (columnname self)) in
let! old := lift_opt AttributeError (oldval self) in
let! datacol := lift_opt TypeError (get_column c ds) in
let! i := lift_opt IndexError (py_index (length datacol) (row self)) in
doc_data_store (datasetname self)
(set_column c (Some (<[i := old]> datacol)) ds).
End OperationDatasetSetVal.

Module OperationSetCustom.
Record t : Type :=
mk { customvals : list (string * string * string);
 oldval : option (list (string * string * string)) }.

Definition init (vals : list (string * string * string)) : t := mk vals None.

(** [document.updateEvalContext()] rebuilds the evaluation context from
[document.customs]; it holds no state of its own in this model. *)
Definition do : M (t * Document.t) unit :=
let! self := get_self in
let! d := get_doc in
set_self (mk (customvals self) (Some (Document.customs d))) >>>
set_doc (Document.with_customs (customvals self) d).

Definition undo : M (t * Document.t) unit :=
let! self := get_self in
let! old := lift_opt AttributeError (oldval self) in
let! d := get_doc in
set_doc (Document.with_customs old d).
End OperationSetCustom.


(** A change to the settings of the widget at one position. *)
Definition touch (F : Setting -> Setting) (t : Widget.t) (pos : list nat) : Widget.t :=
  modify_at pos (fun w => with_settings (F (Widget.settings w)) w) t.

(** The widget that [OperationSettingPropagate.do] starts from: the
    document root when no root path was given. *)
Definition propagate_root (self : OperationSettingPropagate.t) (tree : Widget.t)
  : option (list nat) :=
  match OperationSettingPropagate.rootpath self with
  | None => Some []
  | Some p => if decide (p = "") then Some [] else resolve_parts (path_parts p) tree
  end.



(** The setting that the propagation overwrites, overwritten. *)
Definition propagated (self : OperationSettingPropagate.t) (s : Setting) : Setting :=
  setting_set (OperationSettingPropagate.setpath self)
    (Literal (OperationSettingPropagate.val self)) s.

(** [t'] is [t] with other settings: the same widgets at the same
    positions, with their names, types and numbers of children, the
    settings of the widget at [q] being what [C q] makes of those it has
    in [t]. *)
Definition resettled (C : list nat -> Setting -> Setting) (t t' : Widget.t) : Prop :=
  forall q x,
    get_at q t = Some x ->
    exists x',
      get_at q t' = Some x' /\
      Widget.name x' = Widget.name x /\
      Widget.typename x' = Widget.typename x /\
      length (Widget.children x') = length (Widget.children x) /\
      Widget.settings x' = C q (Widget.settings x).



(** A requested path that has no ancestor among the requested paths. *)
Definition without_ancestor (paths : list string) (p : string) : bool :=
  forallb (fun q => negb (OperationWidgetsDelete.shares_ancestry p q)) paths.

(** The order [sort(key=len)] establishes. *)
Definition by_len (a b : string) : Prop := String.length a <= String.length b.

(** The operation object with another list of requested paths. *)
Definition with_widgetpaths (paths : list string) (self : OperationWidgetsDelete.t)
  : OperationWidgetsDelete.t :=
  OperationWidgetsDelete.mk paths (OperationWidgetsDelete.oldwidgets self)
    (OperationWidgetsDelete.oldparentpaths self)
    (OperationWidgetsDelete.oldindexes self).

(** The widget at [path] taken out of the tree: the widget, the path of
    its parent, its index among the children of its parent, and the tree
    without it. *)
Definition detach (path : string) (root : Widget.t)
  : option (Widget.t * string * nat * Widget.t) :=
  match resolve_parts (path_parts path) root with
  | Some pos =>
      match parent_of pos, get_at pos root with
      | Some (ppos, i), Some w =>
          match get_at ppos root, names_at ppos root with
          | Some p, Some ns =>
              Some (w, widget_path ns, i,
                    modify_at ppos
                      (with_children (delete i (Widget.children p))) root)
          | _, _ => None
          end
      | _, _ => None
      end
  | None => None
  end.

(** The widgets at [paths] taken out one after the other, each from the
    tree that the ones before it leave: the widgets, the paths of their
    parents and their indices, in this order, and the tree that is
    left. *)
Fixpoint detach_all (paths : list string) (root : Widget.t)
  : option (list Widget.t * list string * list nat * Widget.t) :=
  match paths with
  | [] => Some ([], [], [], root)
  | path :: rest =>
      match detach path root with
      | Some (w, ppath, i, root1) =>
          match detach_all rest root1 with
          | Some (ws, pps, ids, root') =>
              Some (w :: ws, ppath :: pps, i :: ids, root')
          | None => None
          end
      | None => None
      end
  end.

(** Putting a retained widget back: what one turn of the loop of
    [OperationWidgetsDelete.undo] does with the items it reads from the
    three lists. *)
Definition reattach {Self} (ppath : string) (w : Widget.t) (index : nat)
  : M (Self * Document.t) unit :=
  let! ppos := resolveFullWidgetPath ppath in
  addChild ppos w index.

(** What restoring the saved links amounts to, entry by entry: a dataset
    still in the document gets its saved link back, any other dataset is
    left as it is, and no name is added. *)
Definition relinked (ol : gmap string nat) (data : gmap string Dataset.t)
  : gmap string Dataset.t :=
  map_imap (fun name ds =>
              Some (match ol !! name with
                    | Some l => Dataset.with_linked (Some l) ds
                    | None => ds
                    end)) data.

(** What [OperationDataTag.do] and [undo] do to the dataset under name [n],
    given the list of names where the tag is added or removed. *)
Definition tagged_at (tg : string) (new : list string) (n : string)
  (ds : Dataset.t) : Dataset.t :=
  if decide (n ∈ new)
  then Dataset.with_tags (set_add tg (Dataset.tags ds)) ds else ds.

Definition untagged_at (tg : string) (rt : list string) (n : string)
  (ds : Dataset.t) : Dataset.t :=
  if decide (n ∈ rt)
  then Dataset.with_tags (Dataset.tags ds ∖ {[tg]}) ds else ds.

Module OperationDatasetRename.
(** [origname] and [origrename] are set by [do]: the outer [option] is
[None] while the attribute has not been assigned, the inner one is
Python's [None]. *)
Record t : Type :=
mk { oldname : string;
 newname : string;
 origname : option (option string);
 origrename : option (option (string * string)) }.

Definition init (oldname newname : string) : t := mk oldname newname None None.

(** The loop [for o, n in list(citems(p.renames)): if n == self.oldname:
...; break]: the first entry met that maps to [oldname].  The
entries come in the enumeration order of the map; which entry is met
first matters only if several map to [oldname]. *)
Definition find_rename (oldname : string) (renames : gmap string string)
: option (string * string) :=
List.find (fun on => bool_decide (on.2 = oldname)) (map_to_list renames).

Definition with_renames (r : gmap string string) (lf : LinkedFile.t) : LinkedFile.t :=
LinkedFile.mk (LinkedFile.filename lf) (ImportParams.mk (Some r)).

Definition do : M (t * Document.t) unit :=
let! self := get_self in
let! ds := doc_data_get (oldname self) in
set_self (mk (oldname self) (newname self) (Some None) (Some None)) >>>
match Dataset.linked ds with
| Some l =>
let! lf := link_get l in
let renames :=
  match ImportParams.renames (LinkedFile.params lf) with
  | None => ∅
  | Some r => r
  end in
let found := find_rename (oldname self) renames in
let origname' :=
  match found with Some on => on.1 | None => oldname self end in
link_store l (with_renames (<[origname' := newname self]> renames) lf) >>>
set_self (mk (oldname self) (newname self) (Some (Some origname')) (Some found))
| None => ret tt
end >>>
renameDataset (oldname self) (newname self).

Definition undo : M (t * Document.t) unit :=
let! self := get_self in
let! ds := doc_data_get (newname self) in
match Dataset.linked ds with
| Some l =>
let! lf := link_get l in
let! on := lift_opt AttributeError (origname self) in
let! r := lift_opt TypeError (ImportParams.renames (LinkedFile.params lf)) in
let! k := lift_opt KeyError on in
(if decide (is_Some (r !! k)) then ret tt else raise KeyError) >>>
let r1 := delete k r in
link_store l (with_renames r1 lf) >>>
let! orr := lift_opt AttributeError (origrename self) in
match orr with
| Some on' => link_store l (with_renames (<[on'.1 := on'.2]> r1) lf)
| None => ret tt
end
| None => ret tt
end >>>
renameDataset (newname self) (oldname self).
End OperationDatasetRename.




(** ** Batches *)

Module OperationMultiple.
(** [do] and [undo] of [OperationMultiple] over its list
[self.operations], for children of any type [Op] with their own
[do] and [undo].  Each child is an object whose attributes its
methods may set, so the list comes back with the children as they
are afterwards. *)
Section Children.
Context {Op : Type}.
Variable child_do : Op -> Document.t -> res unit * (Op * Document.t).
Variable child_undo : Op -> Document.t -> res unit * (Op * Document.t).

(** [for op in self.operations: op.do(document)] *)
Fixpoint do (operations : list Op) (doc : Document.t)
: res unit * (list Op * Document.t) :=
match operations with
| [] => (Ok tt, ([], doc))
| op :: rest =>
match child_do op doc with
| (Ok _, (op', doc')) =>
let r := do rest doc' in (r.1, (op' :: r.2.1, r.2.2))
| (Raise e, (op', doc')) => (Raise e, (op' :: rest, doc'))
end
end.

(** [for op in self.operations[::-1]: op.undo(document)]: the
children after [op] in the list are undone before [op]. *)
Fixpoint undo (operations : list Op) (doc : Document.t)
: res unit * (list Op * Document.t) :=
match operations with
| [] => (Ok tt, ([], doc))
| op :: rest =>
match undo rest doc with
| (Ok _, (rest', doc')) =>
let r := child_undo op doc' in (r.1, (r.2.1 :: rest', r.2.2))
| (Raise e, (rest', doc')) => (Raise e, (op :: rest', doc'))
end
end.

(** The same loop written over the reversed list, from its first
element on; the children come back in reversed order. *)
Fixpoint undo_reversed (reversed : list Op) (doc : Document.t)
: res unit * (list Op * Document.t) :=
match reversed with
| [] => (Ok tt, ([], doc))
| op :: rest =>
match child_undo op doc with
| (Ok _, (op', doc')) =>
let r := undo_reversed rest doc' in (r.1, (op' :: r.2.1, r.2.2))
| (Raise e, (op', doc')) => (Raise e, (op' :: rest, doc'))
end
end.
End Children.
End OperationMultiple.

(** The operations that a batch can hold in this development.  An
    [OperationSettingPropagate] comes with [deref], which says what a
    setting bound by reference resolves to ([s.val] follows the
    reference outside this file). *)
Inductive Operation : Type :=
| OpSettingSet (o : OperationSettingSet.t)
| OpSettingPropagate (deref : Widget.t -> string -> string -> PyVal)
    (o : OperationSettingPropagate.t)
| OpWidgetDelete (o : OperationWidgetDelete.t)
| OpWidgetsDelete (o : OperationWidgetsDelete.t)
| OpWidgetMoveUpDown (o : OperationWidgetMoveUpDown.t)
| OpDatasetSet (o : OperationDatasetSet.t)
| OpDatasetDelete (o : OperationDatasetDelete.t)
| OpDatasetRename (o : OperationDatasetRename.t)
| OpDatasetDuplicate (o : OperationDatasetDuplicate.t)
| OpDatasetUnlinkFile (o : OperationDatasetUnlinkFile.t)
| OpDatasetUnlinkRelation (o : OperationDatasetUnlinkRelation.t)
| OpDatasetCreateRange (o : OperationDatasetCreateRange.t)
| OpDatasetCreateParameteric (o : OperationDatasetCreateParameteric.t)
| OpDatasetCreateExpression (o : OperationDatasetCreateExpression.t)
| OpDatasetUnlinkByFile (o : OperationDatasetUnlinkByFile.t)
| OpDatasetDeleteByFile (o : OperationDatasetDeleteByFile.t)
| OpDataTag (o : OperationDataTag.t)
| OpDataUntag (o : OperationDataUntag.t)
| OpDatasetAddColumn (o : OperationDatasetAddColumn.t)
| OpDatasetSetVal (o : OperationDatasetSetVal.t)
| OpSetCustom (o : OperationSetCustom.t)
| OpMultiple (operations : list Operation) (descr : string).

(** A method of a concrete class run on an object held as [Operation]. *)
Definition as_op {T} (inj : T -> Operation) (m : M (T * Document.t) unit)
  (o : T) (doc : Document.t) : res unit * (Operation * Document.t) :=
  let r := m (o, doc) in (r.1, (inj r.2.1, r.2.2)).

(** [op.do(document)] *)
Fixpoint op_do (op : Operation) (doc : Document.t)
  : res unit * (Operation * Document.t) :=
  match op with
  | OpSettingSet o => as_op OpSettingSet OperationSettingSet.do o doc
  | OpSettingPropagate deref o =>
      as_op (OpSettingPropagate deref) (OperationSettingPropagate.do deref) o doc
  | OpWidgetDelete o => as_op OpWidgetDelete OperationWidgetDelete.do o doc
  | OpWidgetsDelete o => as_op OpWidgetsDelete OperationWidgetsDelete.do o doc
  | OpWidgetMoveUpDown o => as_op OpWidgetMoveUpDown OperationWidgetMoveUpDown.do o doc
  | OpDatasetSet o => as_op OpDatasetSet OperationDatasetSet.do o doc
  | OpDatasetDelete o => as_op OpDatasetDelete OperationDatasetDelete.do o doc
  | OpDatasetRename o => as_op OpDatasetRename OperationDatasetRename.do o doc
  | OpDatasetDuplicate o => as_op OpDatasetDuplicate OperationDatasetDuplicate.do o doc
  | OpDatasetUnlinkFile o => as_op OpDatasetUnlinkFile OperationDatasetUnlinkFile.do o doc
  | OpDatasetUnlinkRelation o =>
      as_op OpDatasetUnlinkRelation OperationDatasetUnlinkRelation.do o doc
  | OpDatasetCreateRange o =>
      as_op OpDatasetCreateRange OperationDatasetCreateRange.do o doc
  | OpDatasetCreateParameteric o =>
      as_op OpDatasetCreateParameteric OperationDatasetCreateParameteric.do o doc
  | OpDatasetCreateExpression o =>
      as_op OpDatasetCreateExpression OperationDatasetCreateExpression.do o doc
  | OpDatasetUnlinkByFile o =>
      as_op OpDatasetUnlinkByFile OperationDatasetUnlinkByFile.do o doc
  | OpDatasetDeleteByFile o =>
      as_op OpDatasetDeleteByFile OperationDatasetDeleteByFile.do o doc
  | OpDataTag o => as_op OpDataTag OperationDataTag.do o doc
  | OpDataUntag o => as_op OpDataUntag OperationDataUntag.do o doc
  | OpDatasetAddColumn o => as_op OpDatasetAddColumn OperationDatasetAddColumn.do o doc
  | OpDatasetSetVal o => as_op OpDatasetSetVal OperationDatasetSetVal.do o doc
  | OpSetCustom o => as_op OpSetCustom OperationSetCustom.do o doc
  | OpMultiple operations descr =>
      let r := OperationMultiple.do op_do operations doc in
      (r.1, (OpMultiple r.2.1 descr, r.2.2))
  end.

(** [op.undo(document)] *)
Fixpoint op_undo (op : Operation) (doc : Document.t)
  : res unit * (Operation * Document.t) :=
  match op with
  | OpSettingSet o => as_op OpSettingSet OperationSettingSet.undo o doc
  | OpSettingPropagate deref o =>
      as_op (OpSettingPropagate deref) OperationSettingPropagate.undo o doc
  | OpWidgetDelete o => as_op OpWidgetDelete OperationWidgetDelete.undo o doc
  | OpWidgetsDelete o => as_op OpWidgetsDelete OperationWidgetsDelete.undo o doc
  | OpWidgetMoveUpDown o => as_op OpWidgetMoveUpDown OperationWidgetMoveUpDown.undo o doc
  | OpDatasetSet o => as_op OpDatasetSet OperationDatasetSet.undo o doc
  | OpDatasetDelete o => as_op OpDatasetDelete OperationDatasetDelete.undo o doc
  | OpDatasetRename o => as_op OpDatasetRename OperationDatasetRename.undo o doc
  | OpDatasetDuplicate o => as_op OpDatasetDuplicate OperationDatasetDuplicate.undo o doc
  | OpDatasetUnlinkFile o => as_op OpDatasetUnlinkFile OperationDatasetUnlinkFile.undo o doc
  | OpDatasetUnlinkRelation o =>
      as_op OpDatasetUnlinkRelation OperationDatasetUnlinkRelation.undo o doc
  | OpDatasetCreateRange o =>
      as_op OpDatasetCreateRange OperationDatasetCreateRange.undo o doc
  | OpDatasetCreateParameteric o =>
      as_op OpDatasetCreateParameteric OperationDatasetCreateParameteric.undo o doc
  | OpDatasetCreateExpression o =>
      as_op OpDatasetCreateExpression OperationDatasetCreateExpression.undo o doc
  | OpDatasetUnlinkByFile o =>
      as_op OpDatasetUnlinkByFile OperationDatasetUnlinkByFile.undo o doc
  | OpDatasetDeleteByFile o =>
      as_op OpDatasetDeleteByFile OperationDatasetDeleteByFile.undo o doc
  | OpDataTag o => as_op OpDataTag OperationDataTag.undo o doc
  | OpDataUntag o => as_op OpDataUntag OperationDataUntag.undo o doc
  | OpDatasetAddColumn o => as_op OpDatasetAddColumn OperationDatasetAddColumn.undo o doc
  | OpDatasetSetVal o => as_op OpDatasetSetVal OperationDatasetSetVal.undo o doc
  | OpSetCustom o => as_op OpSetCustom OperationSetCustom.undo o doc
  | OpMultiple operations descr =>
      let r := OperationMultiple.undo op_undo operations doc in
      (r.1, (OpMultiple r.2.1 descr, r.2.2))
  end.

(** ** Batches that drive the history *)

Module OperationLoadStyleSheet.
(** A subclass of [OperationMultiple]; [OperationLoadCustom] is this
class with another [descr]. *)
Record t : Type :=
mk { operations : list Operation;
 descr : string;
 filename : string }.

Definition init (filename : string) : t := mk [] "load stylesheet" filename.
Definition init_custom (filename : string) : t :=
mk [] "load custom definitions" filename.

(** [runFile] stands for the command interpreter reading the file
([interpreter.runFile(io.open(self.filename, ...))]): it may change
the document and the batch, and may raise. *)
Definition do (runFile : string -> M (t * Document.t) unit)
: M (t * Document.t) unit :=
let! self := get_self in
batchHistory (Some (descr self)) >>>
try_except_reraise (runFile (filename self)) (batchHistory None).
End OperationLoadStyleSheet.

Module OperationToolsPlugin.
Record t : Type :=
mk { operations : list Operation;
 descr : string;
 fields : list (string * string) }.

Definition init (pluginname : string) (fields : list (string * string)) : t :=
mk [] pluginname fields.

(** [apply] stands for [self.plugin.apply(ifc, self.fields)]. *)
Definition do (apply : list (string * string) -> M (t * Document.t) unit)
: M (t * Document.t) unit :=
let! self := get_self in
batchHistory (Some (descr self)) >>>
try_except_reraise (apply (fields self)) (batchHistory None) >>>
batchHistory None.
End OperationToolsPlugin.

(** ** The 2D text reader: orientation of the matrix that was read

    [SimpleRead2D.readData] in [dataimport/simpleread.py], from the point
    where [self.data] is a 2D array: the steps that invert the columns,
    invert the rows and transpose.  The numbers are only moved around, so
    their type is a parameter. *)

Module SimpleRead2D.
Section Reader.
Context {num : Type}.

(** The flags and grids set by the parameter lines of the stream. *)
Record Params : Type :=
mkParams { p_xgrid : option (list num);
 p_ygrid : option (list num);
 invertrows : bool;
 invertcols : bool;
 transpose : bool;
 gridatedge : bool }.

(** The reader object: [self.params], [self.data] (rows of the
matrix), [self.xgrid], [self.ygrid]. *)
Record t : Type :=
mk { params : Params;
data : list (list num);
xgrid : option (list num);
ygrid : option (list num) }.

(** [N.transpose] of a 2D array with [ncols] columns. *)
Fixpoint N_transpose (ncols : nat) (m : list (list num)) : list (list num) :=
match m with
| [] => replicate ncols []
| row :: rest => zip_with cons row (N_transpose ncols rest)
end.

Definition ncols (m : list (list num)) : nat :=
match m with
| [] => 0
| row :: _ => length row
end.

(** [if self.params.invertcols: self.data = self.data[:,::-1]; if
self.xgrid is not None: self.xgrid = self.xgrid[::-1]] *)
Definition invertcols_step (self : t) : t :=
if invertcols (params self) then
mk (params self) (map reverse (data self))
(match xgrid self with Some g => Some (reverse g) | None => None end)
(ygrid self)
else self.

(** [if self.params.invertrows: self.data = self.data[::-1,:]; if
self.ygrid is not None: self.ygrid = self.ygrid[::-1]] *)
Definition invertrows_step (self : t) : t :=
if invertrows (params self) then
mk (params self) (reverse (data self)) (xgrid self)
(match ygrid self with Some g => Some (reverse g) | None => None end)
else self.

(** [if self.params.transpose: self.data = N.transpose(self.data).copy();
self.xgrid, self.ygrid = self.xgrid, self.ygrid].  The right-hand
tuple is built first, then its two items are assigned in order. *)
Definition transpose_step (self : t) : t :=
if transpose (params self) then
let self1 :=
mk (params self) (N_transpose (ncols (data self)) (data self))
(xgrid self) (ygrid self) in
let rhs := (xgrid self1, ygrid self1) in
let self2 := mk (params self1) (data self1) rhs.1 (ygrid self1) in
mk (params self2) (data self2) (xgrid self2) rhs.2
else self.

Definition orient (self : t) : t :=
transpose_step (invertrows_step (invertcols_step self)).
End Reader.
Arguments Params : clear implicits.
Arguments t : clear implicits.
End SimpleRead2D.

(** ** What the round trip of [do] and [undo] relies on *)







(** ** Sample documents *)

Module Sample.
Definition colour (c : string) : Setting :=
SGroup [("Line", SGroup [("color", SLeaf (Literal (VStr c)))])].

Definition leaf (name type : string) (c : string) : Widget.t :=
Widget.mk name type (colour c) [].

(** [/page1/graph1/{x,y,xy1}], [/page1/graph2/{x,inset/{x}}], [/page2]. *)
Definition graph1 : Widget.t :=
Widget.mk "graph1" "graph" (colour "grey")
[leaf "x" "axis" "black"; leaf "y" "axis" "black"; leaf "xy1" "xy" "red"].

Definition inset : Widget.t :=
Widget.mk "inset" "graph" (colour "grey") [leaf "x" "axis" "blue"].

Definition graph2 : Widget.t :=
Widget.mk "graph2" "graph" (colour "grey") [leaf "x" "axis" "black"; inset].

Definition page1 : Widget.t :=
Widget.mk "page1" "page" (SGroup []) [graph1; graph2].

Definition page2 : Widget.t := Widget.mk "page2" "page" (SGroup []) [].

Definition root : Widget.t := Widget.mk "/" "document" (SGroup []) [page1; page2].

Definition plain (tags : gset string) : Dataset.t :=
Dataset.mk (Some [1; 2]%Z) None None None None tags.

Definition from_file (l : nat) : Dataset.t :=
Dataset.mk (Some [1; 2]%Z) None None None (Some l) ∅.

(** A document with dataset [x] read from [data.csv], never renamed, and
a dataset [a] without tags. *)
Definition doc_linked : Document.t :=
Document.mk root
{[ "x" := from_file 0; "a" := plain ∅ ]}
{[ 0%nat := LinkedFile.mk "data.csv" (ImportParams.mk None) ]}
[] None.

(** Datasets [a] (no tag) and [t] (tagged [T]); tagging [a], [t], [a]
with [T]. *)
Definition doc_tags : Document.t :=
Document.mk root {[ "a" := plain ∅; "t" := plain {[ "T" ]} ]} ∅ [] None.
Definition tag_op : OperationDataTag.t :=
OperationDataTag.init "T" ["a"; "t"; "a"].
Definition tag_done : OperationDataTag.t :=
OperationDataTag.mk "T" ["a"; "t"; "a"] (Some ["a"]).
Definition doc_tagged : Document.t :=
Document.mk root {[ "a" := plain {[ "T" ]}; "t" := plain {[ "T" ]} ]} ∅ [] None.

(** After [OperationDatasetUnlinkByFile("data.csv").do] on a document
that also held a dataset [gone] from that file, and the deletion of
[gone]. *)
Definition unlink_done : OperationDatasetUnlinkByFile.t :=
OperationDatasetUnlinkByFile.mk "data.csv"
(Some {[ "x" := 0%nat; "gone" := 0%nat ]}).
Definition doc_unlinked : Document.t :=
Document.with_data {[ "x" := plain ∅; "a" := plain ∅ ]} doc_linked.

(** Deleting [/page1/graph1/y] and [/page1/graph1]. *)
Definition delete_op : OperationWidgetsDelete.t :=
OperationWidgetsDelete.init ["/page1/graph1/y"; "/page1/graph1"].

(** Propagating a green line colour to the axes called [x], three
levels down from the document root; no setting is a reference. *)
Definition propagate_op : OperationSettingPropagate.t :=
OperationSettingPropagate.init (VStr "green") (Some "x") None 3
["Line"; "color"] "axis".
Definition no_deref : Widget.t -> string -> string -> PyVal :=
fun _ _ _ => VNone.

(** A reader that has read a 2 x 3 matrix with grids at the edges and
is asked to transpose. *)
Definition reader : SimpleRead2D.t Z :=
SimpleRead2D.mk
(SimpleRead2D.mkParams None None false false true false)
[[1; 2; 3]; [4; 5; 6]]%Z (Some [0; 1; 2; 3]%Z) (Some [10; 20; 30]%Z).

(** A batch of three: install [b], delete a dataset that does not
exist, delete [a]. *)
Definition batch_first : Operation :=
OpDatasetSet (OperationDatasetSet.init "b" (plain ∅)).
Definition batch_second : Operation :=
OpDatasetDelete (OperationDatasetDelete.init "missing").
Definition batch_third : Operation :=
OpDatasetDelete (OperationDatasetDelete.init "a").

(** The first child after its [do], and the document with [b] in it. *)
Definition batch_first_done : Operation :=
OpDatasetSet (OperationDatasetSet.mk "b" (plain ∅) (Some None)).
Definition doc_first_applied : Document.t :=
Document.with_data (<["b" := plain ∅]> (Document.data doc_linked)) doc_linked.

(** A document whose file link carries an empty table of renames, and a
batch run on it: recolour the axis [/page1/graph1/x], move
[/page1/graph1/y] one place down, delete [/page1/graph2] with its
inset, rename [x] to [y], add an error column to [a], and an inner
batch that tags [a] and [y] and deletes [a]. *)
Definition doc_session : Document.t :=
Document.mk root
{[ "x" := from_file 0; "a" := plain ∅ ]}
{[ 0%nat := LinkedFile.mk "data.csv" (ImportParams.mk (Some ∅)) ]}
[] None.

Definition session : Operation :=
OpMultiple
[ OpSettingSet
  (OperationSettingSet.init "/page1/graph1/x/Line/color"
     (Literal (VStr "green")));
OpWidgetMoveUpDown (OperationWidgetMoveUpDown.init "/page1/graph1/y" 1);
OpWidgetsDelete
  (OperationWidgetsDelete.init ["/page1/graph2/inset"; "/page1/graph2"]);
OpDatasetRename (OperationDatasetRename.init "x" "y");
OpDatasetAddColumn (OperationDatasetAddColumn.init "a" "serr");
OpMultiple
  [ OpDataTag (OperationDataTag.init "T" ["a"; "y"]);
    OpDatasetDelete (OperationDatasetDelete.init "a") ]
  "tag and delete" ]
"session".

(** The batch and the document as [session.do] leaves them. *)
Definition session_done : Operation := (op_do session doc_session).2.1.
Definition doc_session_done : Document.t := (op_do session doc_session).2.2.

(** The batch after a propagation of the green line colour to the axes
called [x]. *)
Definition session_all : Operation :=
OpMultiple [OpSettingPropagate no_deref propagate_op; session] "all".
Definition session_all_done : Operation := (op_do session_all doc_session).2.1.
Definition doc_session_all_done : Document.t :=
(op_do session_all doc_session).2.2.

(** A document whose only axis takes its line colour from the style
sheet, by reference; references resolve to black.  Propagating a green
line colour to every axis. *)
Definition root_reference : Widget.t :=
Widget.mk "/" "document" (SGroup [])
[Widget.mk "page1" "page" (SGroup [])
  [Widget.mk "x" "axis"
     (SGroup [("Line", SGroup [("color",
        SLeaf (Reference "/StyleSheet/axis/Line/color"))])]) []]].
Definition doc_reference : Document.t :=
Document.mk root_reference ∅ ∅ [] None.
Definition black_deref : Widget.t -> string -> string -> PyVal :=
fun _ _ _ => VStr "black".
Definition propagate_all : Operation :=
OpSettingPropagate black_deref
(OperationSettingPropagate.init (VStr "green") None None (-1)
   ["Line"; "color"] "axis").

End Sample.
(** ** Datasets that come from a file *)

(** [ds.linked is not None and ds.linked.filename == filename], the test
    of [OperationDatasetUnlinkByFile.do] and
    [OperationDatasetDeleteByFile.do], on the link objects [links]. *)
Definition linked_to (links : gmap nat LinkedFile.t) (filename : string)
  (ds : Dataset.t) : bool :=
  match Dataset.linked ds with
  | Some l =>
      match links !! l with
      | Some lf => bool_decide (LinkedFile.filename lf = filename)
      | None => false
      end
  | None => false
  end.

(** ** More sample runs *)

Module Cases.
(** Unlinking, and deleting, the datasets of [data.csv] in the document
  [Sample.doc_linked], whose dataset [x] comes from that file. *)
Definition unlink_op : OperationDatasetUnlinkByFile.t :=
OperationDatasetUnlinkByFile.init "data.csv".
Definition unlink_result : OperationDatasetUnlinkByFile.t * Document.t :=
(OperationDatasetUnlinkByFile.do (unlink_op, Sample.doc_linked)).2.

Definition delete_file_op : OperationDatasetDeleteByFile.t :=
OperationDatasetDeleteByFile.init "data.csv".
Definition delete_file_result : OperationDatasetDeleteByFile.t * Document.t :=
(OperationDatasetDeleteByFile.do (delete_file_op, Sample.doc_linked)).2.

(** Tagging [a], a dataset that does not exist, and [t]. *)
Definition tag_missing : OperationDataTag.t :=
OperationDataTag.init "T" ["a"; "missing"; "t"].
Definition tag_missing_result : OperationDataTag.t * Document.t :=
(OperationDataTag.do (tag_missing, Sample.doc_tags)).2.
End Cases.


(** * Reading text data: [veusz/dataimport/simpleread.py]

    The classes [Stream], [FileStream] and [SimpleRead2D], method by
    method.  A reader raises exceptions of its own, and the state reached
    when one is raised is kept as before. *)

Module Rd.

(** The exceptions that the readers raise or let through. *)
Inductive exc : Type :=
| IndexError
| ValueError
| Read2DError (msg : string)
| RuntimeError (msg : string).

Inductive outcome (A : Type) : Type :=
| Done (a : A)
| Throw (e : exc).
Arguments Done {A} a.
Arguments Throw {A} e.

Definition M (St A : Type) : Type := St -> outcome A * St.

Definition ret {St A} (a : A) : M St A := fun s => (Done a, s).
Definition throw {St A} (e : exc) : M St A := fun s => (Throw e, s).
Definition bind {St A B} (m : M St A) (k : A -> M St B) : M St B :=
  fun s => match m s with
           | (Done a, s') => k a s'
           | (Throw e, s') => (Throw e, s')
           end.
Definition gets {St A} (f : St -> A) : M St A := fun s => (Done (f s), s).
Definition modify {St} (f : St -> St) : M St unit := fun s => (Done tt, f s).

(** The value of a lookup, or exception [e]. *)
Definition or_throw {St A} (e : exc) (o : option A) : M St A :=
  match o with Some a => ret a | None => throw e end.

(** A computation on one component of a pair of objects. *)
Definition on_fst {S1 S2 A} (m : M S1 A) : M (S1 * S2) A :=
  fun s => let r := m s.1 in (r.1, (r.2, s.2)).
Definition on_snd {S1 S2 A} (m : M S2 A) : M (S1 * S2) A :=
  fun s => let r := m s.2 in (r.1, (s.1, r.2)).

(** [[f(x) for x in l]], stopping at the first exception. *)
Fixpoint map_or_throw {A B} (e : exc) (f : A -> option B) (l : list A)
  : exc + list B :=
  match l with
  | [] => inr []
  | x :: l' =>
      match f x with
      | None => inl e
      | Some y =>
          match map_or_throw e f l' with
          | inl e' => inl e'
          | inr ys => inr (y :: ys)
          end
      end
  end.

Definition of_sum {St A} (r : exc + A) : M St A :=
  match r with inl e => throw e | inr a => ret a end.

End Rd.

Notation "'let*' x ':=' m 'in' k" := (Rd.bind m (fun x => k))
  (at level 10, x name, m at level 100, k at level 200, only parsing).
Notation "m ';;;' k" := (Rd.bind m (fun _ => k))
  (at level 95, k at level 200, right associativity, only parsing).

(** ** The stream of items *)

Module Stream.
Import Rd.

(** A [FileStream]: [self.file], the lines that the iterator has still to
    give, and [self.remainingline]. *)
Record t : Type :=
  mk { file : list string;
       remainingline : list string }.

(** [FileStream.__init__(file)] *)
Definition init (file : list string) : t := mk file [].

(** [nextColumn]: [self.remainingline.pop(0)], [None] on [IndexError]. *)
Definition nextColumn : M t (option string) :=
  fun s => match remainingline s with
           | [] => (Done None, s)
           | x :: rest => (Done (Some x), mk (file s) rest)
           end.

Definition allColumns : M t (list string) := gets remainingline.

Definition flushLine : M t unit := modify (fun s => mk (file s) []).

(** [x[0] not in '#!%;']; [x[0]] raises [IndexError] on the empty
    string. *)
Definition not_comment (x : string) : option bool :=
  match x with
  | EmptyString => None
  | String c _ =>
      Some (negb (bool_decide (c ∈ ["#"; "!"; "%"; ";"]%char)))
  end.

(** [[x for x in cmpts if x[0] not in '#!%;']] *)
Fixpoint without_comments (cmpts : list string) : option (list string) :=
  match cmpts with
  | [] => Some []
  | x :: rest =>
      match not_comment x with
      | None => None
      | Some keep =>
          match without_comments rest with
          | None => None
          | Some kept => Some (if keep then x :: kept else kept)
          end
      end
  end.

Section Engine.
(** [self.find_re.findall(line)]: the regular expression that splits a
    line into items is applied by the [re] module. *)
Variable findall : string -> list string.

(** [newLine]: the [while True] loop over the lines still in the file.
    [readLine] raises [StopIteration] when the file has no more lines;
    the line read is consumed even when the list comprehension raises. *)
Fixpoint newLine_from (file : list string) (remainingline : list string)
  : outcome bool * t :=
  match file with
  | [] => (Done false, mk [] remainingline)
  | line :: file' =>
      match without_comments (findall line) with
      | None => (Throw IndexError, mk file' remainingline)
      | Some kept =>
          let remainingline' := remainingline ++ kept in
          if bool_decide (last remainingline' = Some "\")
          then newLine_from file' (take (pred (length remainingline')) remainingline')
          else (Done true, mk file' remainingline')
      end
  end.

Definition newLine : M t bool :=
  fun s => newLine_from (file s) (remainingline s).

(** A file no line of which gives an empty item. *)
Definition clean (file : list string) : Prop :=
  Forall (fun line => is_Some (without_comments (findall line))) file.

(** A line whose items, comments left out, are [items] and then the
    continuation mark. *)
Definition continuation_line (line : string) (items : list string) : Prop :=
  without_comments (findall line) = Some (items ++ ["\"]).
End Engine.
End Stream.

(** ** The reader of 2D data *)

Module Reader2D.
Import Rd.
Section Reader.
Context {num : Type}.

(** What the reader calls and this file does not define: the regular
    expression engine, [str.lower], [float] of a string ([None] stands
    for [ValueError]), [utils.binEdgesFromCentres], [utils.checkAscending]
    and the arithmetic of floating-point numbers ([half x] is
    [0.5*x]). *)
Variable findall : string -> list string.
Variable lower : string -> string.
Variable float : string -> option num.
Variable binEdgesFromCentres : list num -> bool -> list num.
Variable checkAscending : list num -> bool.
Variable add sub : num -> num -> num.
Variable half : num -> num.

(** The reader object: the attributes of the 2D reader, with
    [self.params.xrange] and [self.params.yrange] beside them. *)
Record t : Type :=
  mk { reader : SimpleRead2D.t num;
       p_xrange : option (num * num);
       p_yrange : option (num * num) }.

Definition params (self : t) : SimpleRead2D.Params num :=
  SimpleRead2D.params (reader self).

Definition with_params (p : SimpleRead2D.Params num) (self : t) : t :=
  mk (SimpleRead2D.mk p (SimpleRead2D.data (reader self))
        (SimpleRead2D.xgrid (reader self)) (SimpleRead2D.ygrid (reader self)))
    (p_xrange self) (p_yrange self).

Definition with_reader (r : SimpleRead2D.t num) (self : t) : t :=
  mk r (p_xrange self) (p_yrange self).

Definition with_xgrid (g : option (list num)) (self : t) : t :=
  with_reader (SimpleRead2D.mk (params self) (SimpleRead2D.data (reader self))
                 g (SimpleRead2D.ygrid (reader self))) self.

Definition with_ygrid (g : option (list num)) (self : t) : t :=
  with_reader (SimpleRead2D.mk (params self) (SimpleRead2D.data (reader self))
                 (SimpleRead2D.xgrid (reader self)) g) self.

Definition with_data (d : list (list num)) (self : t) : t :=
  with_reader (SimpleRead2D.mk (params self) d
                 (SimpleRead2D.xgrid (reader self))
                 (SimpleRead2D.ygrid (reader self))) self.

Definition set_p_xgrid (g : list num) (p : SimpleRead2D.Params num)
  : SimpleRead2D.Params num :=
  SimpleRead2D.mkParams (Some g) (SimpleRead2D.p_ygrid p)
    (SimpleRead2D.invertrows p) (SimpleRead2D.invertcols p)
    (SimpleRead2D.transpose p) (SimpleRead2D.gridatedge p).

Definition set_p_ygrid (g : list num) (p : SimpleRead2D.Params num)
  : SimpleRead2D.Params num :=
  SimpleRead2D.mkParams (SimpleRead2D.p_xgrid p) (Some g)
    (SimpleRead2D.invertrows p) (SimpleRead2D.invertcols p)
    (SimpleRead2D.transpose p) (SimpleRead2D.gridatedge p).

Definition set_invertrows (p : SimpleRead2D.Params num) : SimpleRead2D.Params num :=
  SimpleRead2D.mkParams (SimpleRead2D.p_xgrid p) (SimpleRead2D.p_ygrid p)
    true (SimpleRead2D.invertcols p)
    (SimpleRead2D.transpose p) (SimpleRead2D.gridatedge p).

Definition set_invertcols (p : SimpleRead2D.Params num) : SimpleRead2D.Params num :=
  SimpleRead2D.mkParams (SimpleRead2D.p_xgrid p) (SimpleRead2D.p_ygrid p)
    (SimpleRead2D.invertrows p) true
    (SimpleRead2D.transpose p) (SimpleRead2D.gridatedge p).

Definition set_transpose (p : SimpleRead2D.Params num) : SimpleRead2D.Params num :=
  SimpleRead2D.mkParams (SimpleRead2D.p_xgrid p) (SimpleRead2D.p_ygrid p)
    (SimpleRead2D.invertrows p) (SimpleRead2D.invertcols p)
    true (SimpleRead2D.gridatedge p).

Definition set_gridatedge (p : SimpleRead2D.Params num) : SimpleRead2D.Params num :=
  SimpleRead2D.mkParams (SimpleRead2D.p_xgrid p) (SimpleRead2D.p_ygrid p)
    (SimpleRead2D.invertrows p) (SimpleRead2D.invertcols p)
    (SimpleRead2D.transpose p) true.

(** *** The parameter lines *)

(** [( float(cols[1]), float(cols[2]) )] inside [try ... except
    ValueError: raise Read2DError(msg)]: an [IndexError] of [cols[i]] is
    not caught. *)
Definition two_floats (msg : string) (cols : list string) : M t (num * num) :=
  let* c1 := or_throw IndexError (cols !! 1%nat) in
  let* a := or_throw (Read2DError msg) (float c1) in
  let* c2 := or_throw IndexError (cols !! 2%nat) in
  let* b := or_throw (Read2DError msg) (float c2) in
  ret (a, b).

Definition _paramXRange (cols : list string) : M t unit :=
  let* r := two_floats "xrange is not two numerical values" cols in
  modify (fun self => mk (reader self) (Some r) (p_yrange self)).

Definition _paramYRange (cols : list string) : M t unit :=
  let* r := two_floats "yrange is not two numerical values" cols in
  modify (fun self => mk (reader self) (p_xrange self) (Some r)).

(** [getGridEdges]; its [ValueError] comes from [float]. *)
Definition getGridEdges (cols : list string) : M t (list num) :=
  let* c1 := or_throw IndexError (cols !! 1%nat) in
  if bool_decide (c1 = "cen" \/ c1 = "cen_log") then
    let* data := of_sum (map_or_throw ValueError float (drop 2 cols)) in
    ret (binEdgesFromCentres data (bool_decide (c1 = "cen_log")))
  else
    of_sum (map_or_throw ValueError float (drop 1 cols)).

(** [try: ... except ValueError: raise Read2DError(msg)] *)
Definition value_error_as {St A} (msg : string) (m : M St A) : M St A :=
  fun s => match m s with
           | (Throw ValueError, s') => (Throw (Read2DError msg), s')
           | r => r
           end.

Definition _paramXGrid (cols : list string) : M t unit :=
  let* g :=
    value_error_as "xgrid is not a list of numerical values"
      (let* g := getGridEdges cols in
       modify (fun self => with_params (set_p_xgrid g (params self)) self) ;;;
       ret g) in
  if checkAscending g then ret tt
  else throw (Read2DError "xgrid values are not ascending").

Definition _paramYGrid (cols : list string) : M t unit :=
  let* g :=
    value_error_as "ygrid is not a list of numerical values"
      (let* g := getGridEdges cols in
       modify (fun self => with_params (set_p_ygrid g (params self)) self) ;;;
       ret g) in
  if checkAscending g then ret tt
  else throw (Read2DError "ygrid values are not ascending").

Definition _paramInvertRows (cols : list string) : M t unit :=
  modify (fun self => with_params (set_invertrows (params self)) self).
Definition _paramInvertCols (cols : list string) : M t unit :=
  modify (fun self => with_params (set_invertcols (params self)) self).
Definition _paramTranspose (cols : list string) : M t unit :=
  modify (fun self => with_params (set_transpose (params self)) self).
Definition _paramGridAtEdge (cols : list string) : M t unit :=
  modify (fun self => with_params (set_gridatedge (params self)) self).

(** The dict [settings] of [readData]: the method for a name, if any. *)
Definition settings (c : string) : option (list string -> M t unit) :=
  if decide (c = "xrange") then Some _paramXRange
  else if decide (c = "yrange") then Some _paramYRange
  else if decide (c = "xgrid") then Some _paramXGrid
  else if decide (c = "ygrid") then Some _paramYGrid
  else if decide (c = "invertrows") then Some _paramInvertRows
  else if decide (c = "invertcols") then Some _paramInvertCols
  else if decide (c = "transpose") then Some _paramTranspose
  else if decide (c = "gridatedge") then Some _paramGridAtEdge
  else None.

(** *** Reading the rows *)

Definition W : Type := (t * Stream.t)%type.

(** The inner [while True] loop: the items of the line as numbers; the
    item that is not a number has been taken off the line when the error
    is raised. *)
Fixpoint read_columns (items : list string) (line : list num)
  : outcome (list num) * list string :=
  match items with
  | [] => (Done line, [])
  | v :: rest =>
      match float v with
      | Some x => read_columns rest (line ++ [x])
      | None =>
          (Throw (Read2DError ("Could not interpret number '" +:+ v +:+ "'")),
           rest)
      end
  end.

Definition read_line : M W (list num) :=
  fun w =>
    let r := read_columns (Stream.remainingline w.2) [] in
    (r.1, (w.1, Stream.mk (Stream.file w.2) r.2)).

(** The loop [while stream.newLine()] of [readData], with [rows] as it
    stands.  Every turn takes at least one line from the file, so
    [fuel] turns are enough when [fuel] exceeds the number of lines
    left; [None] is for a loop cut short by lack of fuel. *)
Fixpoint read_rows (fuel : nat) (rows : list (list num)) (w : W)
  : option (outcome (list (list num)) * W) :=
  match fuel with
  | O => None
  | S fuel' =>
      match on_snd (Stream.newLine findall) w with
      | (Throw e, w1) => Some (Throw e, w1)
      | (Done false, w1) => Some (Done rows, w1)
      | (Done true, w1) =>
          let cols := Stream.remainingline w1.2 in
          match cols with
          | [] =>
              match rows with
              | [] => read_rows fuel' rows w1
              | _ => Some (Done rows, w1)
              end
          | c0 :: _ =>
              match settings (lower c0) with
              | Some method =>
                  match (on_fst (method cols) ;;; on_snd Stream.flushLine) w1 with
                  | (Throw e, w2) => Some (Throw e, w2)
                  | (Done _, w2) => read_rows fuel' rows w2
                  end
              | None =>
                  match read_line w1 with
                  | (Throw e, w2) => Some (Throw e, w2)
                  | (Done line, w2) => read_rows fuel' (line :: rows) w2
                  end
              end
          end
      end
  end.

(** *** From the rows to the matrix *)

(** [0.5*(old[1:]+old[:-1])], and for two values or more the outer edges
    [hstack((g[0] - (old[1]-old[0]), g, g[-1] + (old[-1]-old[-2])))]. *)
Definition edge_grid (old : list num) : option (list num) :=
  let g := zip_with (fun a b => half (add a b))
             (drop 1 old) (take (pred (length old)) old) in
  if (2 <=? length old)%nat then
    g0 ← g !! 0%nat; o1 ← old !! 1%nat; o0 ← old !! 0%nat;
    gl ← last g; ol ← last old; ol2 ← old !! (length old - 2)%nat;
    Some (sub g0 (sub o1 o0) :: g ++ [add gl (sub ol ol2)])
  else Some g.

(** [N.array(rows, dtype=N.float64)]: rows of one length make a 2D
    array, anything else is a [ValueError]. *)
Definition rectangular (rows : list (list num)) : bool :=
  forallb (fun r => (length r =? SimpleRead2D.ncols rows)%nat) rows.

(** [self.data.shape] after the orientation steps, for the matrix [rows]
    before them: inverting keeps the shape, transposing swaps it. *)
Definition shape_after (p : SimpleRead2D.Params num) (rows : list (list num))
  : nat * nat :=
  if SimpleRead2D.transpose p
  then (SimpleRead2D.ncols rows, length rows)
  else (length rows, SimpleRead2D.ncols rows).

Definition is_None {A} (o : option A) : bool :=
  match o with None => true | Some _ => false end.

(** The grid at the edge of the rows: [rows[-1]] holds the x positions
    and the first item of every other row its y position. *)
Definition grid_at_edge (rows : list (list num)) : M t (list (list num)) :=
  let* self := gets id in
  if SimpleRead2D.gridatedge (params self) then
    (if is_None (SimpleRead2D.p_xgrid (params self))
        && is_None (SimpleRead2D.p_ygrid (params self))
     then ret tt
     else throw (Read2DError "xgrid/ygrid are incompatible with gridatedge")) ;;;
    let* oldxgrid := or_throw IndexError (last rows) in
    let* xgrid := or_throw IndexError (edge_grid oldxgrid) in
    modify (with_xgrid (Some xgrid)) ;;;
    let* oldygrid :=
      of_sum (map_or_throw IndexError (fun r : list num => r !! 0%nat)
                (take (pred (length rows)) rows)) in
    let* ygrid := or_throw IndexError (edge_grid oldygrid) in
    modify (with_ygrid (Some ygrid)) ;;;
    ret (map (drop 1) (take (pred (length rows)) rows))
  else
    modify (fun self => with_ygrid None (with_xgrid None self)) ;;;
    ret rows.

Definition grid_ok (g : option (list num)) : bool :=
  match g with Some l => checkAscending l | None => true end.

(** [if self.params.invertcols: ...], [if self.params.invertrows: ...]
    and [if self.params.transpose: ...] on the reader object. *)
Definition oriented (self : t) : t :=
  with_reader (SimpleRead2D.orient (reader self)) self.

(** [if self.params.xgrid is not None: self.xgrid = self.params.xgrid]
    and the same for [ygrid]. *)
Definition copy_grids (self : t) : t :=
  let self1 :=
    match SimpleRead2D.p_xgrid (params self) with
    | Some g => with_xgrid (Some g) self
    | None => self
    end in
  match SimpleRead2D.p_ygrid (params self1) with
  | Some g => with_ygrid (Some g) self1
  | None => self1
  end.

(** The condition of the first sanity check, negated. *)
Definition ascending (self : t) : bool :=
  grid_ok (SimpleRead2D.xgrid (reader self))
  && grid_ok (SimpleRead2D.ygrid (reader self)).

(** The condition of the second sanity check, for [self.data.shape]
    given: the length of [self.xgrid] is compared whenever there is one,
    that of [self.ygrid] only when [self.params.ygrid] is set. *)
Definition lengths_differ (self : t) (shape : nat * nat) : bool :=
  match SimpleRead2D.xgrid (reader self) with
  | Some g => negb (length g =? shape.2 + 1)%nat
  | None => false
  end
  || match SimpleRead2D.p_ygrid (params self),
           SimpleRead2D.ygrid (reader self) with
     | Some _, Some g => negb (length g =? shape.1 + 1)%nat
     | _, _ => false
     end.

(** [readData] from the end of the loop on.  ([N.array] of a list of
    rows of one length is two-dimensional, so the check of
    [len(self.data.shape)] lets every such matrix through.) *)
Definition finish (rows : list (list num)) : M t unit :=
  let* rows := grid_at_edge rows in
  (if decide (length rows = 0%nat)
   then throw (Read2DError "No data could be imported for dataset")
   else ret tt) ;;;
  (if rectangular rows then modify (with_data rows)
   else throw (Read2DError "Could not convert data to 2D matrix")) ;;;
  modify oriented ;;;
  modify copy_grids ;;;
  let* self := gets id in
  (if ascending self then ret tt
   else throw (Read2DError "xgrid and ygrid must be ascending")) ;;;
  if lengths_differ self (shape_after (params self) rows)
  then throw (Read2DError "xgrid and ygrid lengths must be data shape+1")
  else ret tt.

(** A line of numbers: its items, comments left out, are all numbers,
    the first is not the name of a parameter, and the last is not the
    continuation mark. *)
Definition data_line (line : string) (nums : list num) : Prop :=
  exists cols,
    Stream.without_comments (findall line) = Some cols /\
    nums <> [] /\ last cols <> Some "\" /\
    (forall c0, head cols = Some c0 -> is_None (settings (lower c0)) = true) /\
    map_or_throw ValueError float cols = inr nums.

(** A line without items. *)
Definition blank_line (line : string) : Prop :=
  Stream.without_comments (findall line) = Some [].

(** [readData(stream)] with [fuel] turns of its loop. *)
Definition readData_fuel (fuel : nat) (w : W) : option (outcome unit * W) :=
  match read_rows fuel [] w with
  | None => None
  | Some (Throw e, w1) => Some (Throw e, w1)
  | Some (Done rows, w1) => Some (on_fst (finish rows) w1)
  end.

Definition readData (w : W) : option (outcome unit * W) :=
  readData_fuel (S (length (Stream.file w.2))) w.
End Reader.
Arguments t : clear implicits.
End Reader2D.

(** ** Sample runs of the reader *)

Module ReadCases.
Import Rd.

(** Stand-ins for the library code the reader calls: items are separated
    by spaces, numbers are whole decimal numbers, names are in lower case
    already. *)
Fixpoint words_from (cur : string) (s : string) : list string :=
  match s with
  | EmptyString => if decide (cur = "") then [] else [cur]
  | String c s' =>
      if decide (c = " "%char)
      then (if decide (cur = "") then words_from "" s'
            else cur :: words_from "" s')
      else words_from (cur +:+ String c "") s'
  end.
Definition findall (line : string) : list string := words_from "" line.

Definition digit (c : ascii) : option Z :=
  let n := nat_of_ascii c in
  if (48 <=? n)%nat && (n <=? 57)%nat then Some (Z.of_nat (n - 48)) else None.
Fixpoint digits (acc : Z) (s : string) : option Z :=
  match s with
  | EmptyString => Some acc
  | String c s' => d ← digit c; digits (10 * acc + d)%Z s'
  end.
Definition float (s : string) : option Z :=
  if decide (s = "") then None else digits 0 s.

Fixpoint checkAscending (l : list Z) : bool :=
  match l with
  | a :: (b :: _) as rest => (a <? b)%Z && checkAscending rest
  | _ => true
  end.

Definition binEdgesFromCentres (l : list Z) (logmode : bool) : list Z := l.
Definition half (x : Z) : Z := (x / 2)%Z.

(** A reader as [SimpleRead2D.__init__] leaves it, with default
    parameters. *)
Definition params0 : @SimpleRead2D.Params Z :=
  SimpleRead2D.mkParams None None false false false false.
Definition reader0 : Reader2D.t Z :=
  Reader2D.mk (SimpleRead2D.mk params0 [] None None) None None.

(** The same with [gridatedge] and [transpose] set. *)
Definition reader_edge_transposed : Reader2D.t Z :=
  Reader2D.mk
    (SimpleRead2D.mk (SimpleRead2D.mkParams None None false false true true)
       [] None None) None None.

Definition readData (w : @Reader2D.W Z)
  : option (outcome unit * @Reader2D.W Z) :=
  Reader2D.readData findall id float binEdgesFromCentres checkAscending
    Z.add Z.sub half w.

(** Two datasets in one file, a blank line between them. *)
Definition two_matrices : list string :=
  ["1 2 3"; "4 5 6"; ""; "7 8"].

(** A logical line spread over three lines of the file. *)
Definition continued : list string := ["1 2 \"; "3 \"; "4 5"; "6"].

(** The top row and the left column give the positions. *)
Definition edge_rows : list (list Z) :=
  [[10; 1; 2; 3]; [20; 4; 5; 6]; [1; 2; 3]]%Z.

End ReadCases.

(** ** The descriptor of 1D data *)

(** [s[0]], [s[-1]] and [s[1:-1]] of a string. *)
Definition first_char (s : string) : option ascii :=
  match s with
  | EmptyString => None
  | String c _ => Some c
  end.

Fixpoint last_char (s : string) : option ascii :=
  match s with
  | EmptyString => None
  | String c EmptyString => Some c
  | String _ s' => last_char s'
  end.

Definition strip_ends (s : string) : string :=
  String.substring 1 (String.length s - 2) s.

(** The string of the character [\0]. *)
Definition NUL : string := String "000"%char "".

(** The data types [float], [string] and [date]. *)
Inductive DataType : Type := dt_float | dt_string | dt_date.

Global Instance DataType_eq_dec : EqDecision DataType.
Proof. solve_decision. Defined.

(** The dict [datatype_name_convert]. *)
Definition datatype_name_convert (s : string) : option DataType :=
  if decide (s = "float") then Some dt_float
  else if decide (s = "numeric") then Some dt_float
  else if decide (s = "number") then Some dt_float
  else if decide (s = "text") then Some dt_string
  else if decide (s = "string") then Some dt_string
  else if decide (s = "date") then Some dt_date
  else if decide (s = "time") then Some dt_date
  else None.

Module DescriptorPart.

(** The attributes of a [DescriptorPart].  [datatype] is [None] or one
    of the three data types: these are the only values that the code of
    this file gives it. *)
Record t : Type :=
  mk { name : string;
       datatype : option DataType;
       columns : list string;
       errorcount : nat;
       single : bool;
       startindex : Z;
       stopindex : Z }.

(** [DescriptorPart.__init__(name, datatype, columns, idxrange)] *)
Definition init (name : string) (datatype : option DataType)
    (columns : list string) (idxrange : option (Z * Z)) : t :=
  match idxrange with
  | None => mk name datatype columns 0 true 1 1
  | Some (a, b) => mk name datatype columns 0 false a b
  end.

Definition with_datatype (d : option DataType) (p : t) : t :=
  mk (name p) d (columns p) (errorcount p) (single p)
    (startindex p) (stopindex p).
Definition with_errorcount (n : nat) (p : t) : t :=
  mk (name p) (datatype p) (columns p) n (single p)
    (startindex p) (stopindex p).


(** The part [p] after some reading, [p']: reading changes the data
    type and the count of errors, nothing else. *)
Definition same_part (p p' : t) : Prop :=
  p' = with_errorcount (errorcount p') (with_datatype (datatype p') p).

(** The part that [readData] makes for column [i] of a file without
    descriptor, after some reading. *)
Definition auto_part (i : nat) (p' : t) : Prop :=
  same_part (init (pretty i) None ["D"] None) p'.


(** Every part has a column. *)
Definition cols_ok (ps : list t) : Prop :=
  Forall (fun p => columns p <> []) ps.

(** The list [l] begins with the parts [ps], after some reading. *)
Definition grown_from (ps l : list t) : Prop :=
  exists l1 l2, l = l1 ++ l2 /\ Forall2 same_part ps l1.

(** The parts made for the columns 1, 2, ... of a file without
    descriptor. *)
Definition auto_named (autos : list t) : Prop :=
  Forall2 auto_part (seq 1 (length autos)) autos.

End DescriptorPart.

Module Descriptor.
Import Rd.

(** The marks of a descriptor that become columns beside the data
    column. *)
Definition mark (c : string) : Prop := c ∈ [","; "+"; "-"; "+-"].

(** A part with one data column ['D'] and marks around it. *)
Definition well_formed (p : DescriptorPart.t) : Prop :=
  exists pre post,
    DescriptorPart.columns p = pre ++ "D" :: post /\
    Forall mark pre /\ Forall mark post.

Section Interpret.
(** [descrtokens_split_re.split(descr.strip())] and [range_re.match],
    which gives the two groups of a match as integers ([None] for a
    group that did not take part), are the work of the [re] module. *)
Variable split : string -> list string.
Variable range_re_match : string -> option (option Z * option Z).

(** The variables of the loop of [interpretDescriptor]. *)
Record Acc : Type :=
  mkAcc { parts : list DescriptorPart.t;
          name : option string;
          datatype : option DataType;
          idxrange : option (Z * Z);
          columns : list string }.

Definition append_column (c : string) (a : Acc) : Acc :=
  mkAcc (parts a) (name a) (datatype a) (idxrange a) (columns a ++ [c]).

(** [if name is not None: parts.append(DescriptorPart(...)); name =
    datatype = idxrange = None; columns = []] *)
Definition add_previous (a : Acc) : Acc :=
  match name a with
  | Some n =>
      mkAcc (parts a ++
               [DescriptorPart.init n (datatype a) (columns a) (idxrange a)])
        None None None []
  | None => a
  end.

(** The body of the loop for [token], with [prev] for
    [tokens[tokenindex-1]] ([None] when [tokenindex] is 0).  [token[0]]
    raises [IndexError] on an empty token. *)
Definition step (prev : option string) (token : string) (a : Acc)
  : exc + Acc :=
  if decide (token = " ") then
    inr (if decide (prev = Some ",") then append_column "," a else a)
  else if decide (token = ",") then
    inr (if decide (prev = None \/ prev = Some "," \/ prev = Some " ")
         then append_column "," a else a)
  else
    match first_char token, last_char token with
    | Some c0, Some cl =>
        match (if decide (c0 = "("%char /\ cl = ")"%char)
               then datatype_name_convert (strip_ends token) else None) with
        | Some dt =>
            inr (mkAcc (parts a) (name a) (Some dt) (idxrange a) (columns a))
        | None =>
            if decide (token ∈ ["+"; "-"; "+-"]) then
              inr (append_column token a)
            else
              match range_re_match token with
              | Some (g1, g2) =>
                  inr (mkAcc (parts a) (name a) (datatype a)
                         (Some (default 1%Z g1, default 999999999%Z g2))
                         (columns a))
              | None =>
                  let token :=
                    if decide (c0 = "`"%char /\ cl = "`"%char)
                    then strip_ends token else token in
                  let a := add_previous a in
                  inr (mkAcc (parts a) (Some token) (datatype a) (idxrange a)
                         (columns a ++ ["D"]))
              end
        end
    | _, _ => inl IndexError
    end.

(** What holds of the variables of the loop between two tokens. *)
Definition inv (a : Acc) : Prop :=
  Forall well_formed (parts a) /\
  Forall (fun p => head (DescriptorPart.columns p) = Some "D")
    (tail (parts a)) /\
  match name a with
  | None =>
      parts a = [] /\ Forall mark (columns a)
  | Some _ =>
      exists pre post,
        columns a = pre ++ "D" :: post /\
        Forall mark pre /\ Forall mark post /\
        (parts a <> [] -> pre = [])
  end.

(** [for tokenindex, token in enumerate(tokens)] *)
Fixpoint loop (prev : option string) (tokens : list string) (a : Acc)
  : exc + Acc :=
  match tokens with
  | [] => inr a
  | token :: rest =>
      match step prev token a with
      | inl e => inl e
      | inr a' => loop (Some token) rest a'
      end
  end.

(** [tokens = [x for x in split if x != ''] + ['DUMMY']] *)
Definition tokens_of (descr : string) : list string :=
  filter (fun x => x <> "") (split descr) ++ ["DUMMY"].

Definition interpretDescriptor (descr : string)
  : exc + list DescriptorPart.t :=
  match loop None (tokens_of descr) (mkAcc [] None None None []) with
  | inl e => inl e
  | inr a => inr (parts a)
  end.
End Interpret.
End Descriptor.

(** ** Reading and storing 1D data *)

(** [l[start:]] for a Python list. *)
Definition py_slice_from {A} (start : Z) (l : list A) : list A :=
  let len := Z.of_nat (length l) in
  let start := if (start <? 0)%Z then Z.max (start + len) 0 else start in
  drop (Z.to_nat start) l.

Module Reader1D.
Import Rd.
Section Reader.
(** The values stored in datasets are Python objects: floats, strings,
    and whatever [eval] returns. *)
Context {value : Type}.

(** What the reader calls and this file does not define: [float] of a
    string ([None] stands for [ValueError]), [N.nan], [str.lower],
    [string_re.match], [eval] ([None] stands for any exception), a string
    as a value, [utils.isDateTime] and [utils.dateStringToDate]. *)
Variable float : string -> option value.
Variable nan : value.
Variable lower : string -> string.
Variable string_re_match : string -> bool.
Variable py_eval : string -> option value.
Variable of_str : string -> value.
Variable isDateTime : string -> bool.
Variable dateStringToDate : string -> value.

(** [guessDataType(val)] *)
Definition guessDataType (val : string) : DataType :=
  match float val with
  | Some _ => dt_float
  | None =>
      if bool_decide (lower val ∈ ["inf"; "+inf"; "-inf"; "nan"]) then dt_float
      else if string_re_match val then dt_string
      else if isDateTime val then dt_date
      else dt_string
  end.

(** The dict [thedatasets]: the values read so far, under the name of
    the dataset followed by [\0] and the column. *)
Definition Datasets : Type := gmap string (list value).

(** The objects that [readFromStream] works on. *)
Record RS : Type :=
  mkRS { self : DescriptorPart.t;
         stream : Stream.t;
         thedatasets : Datasets }.

(** The name for the variable: [self.name], or ['%s_%i' % (self.name,
    index)], with ['_%i' % block] after it when there is a block. *)
Definition part_name (p : DescriptorPart.t) (index : Z) (block : option Z)
  : string :=
  let name :=
    if DescriptorPart.single p then DescriptorPart.name p
    else DescriptorPart.name p +:+ "_" +:+ pretty index in
  match block with
  | Some b => name +:+ "_" +:+ pretty b
  | None => name
  end.

(** [if not self.datatype: self.datatype = guessDataType(val)] *)
Definition guess (val : string) (p : DescriptorPart.t) : DescriptorPart.t :=
  match DescriptorPart.datatype p with
  | Some _ => p
  | None => DescriptorPart.with_datatype (Some (guessDataType val)) p
  end.

(** The conversion of [val] for the data type [dt]: the part as it is
    afterwards, and [dat]. *)
Definition convert_as (dt : DataType) (val : string) (p : DescriptorPart.t)
  : DescriptorPart.t * value :=
  match dt with
  | dt_float =>
      match float val with
      | Some x => (p, x)
      | None =>
          (DescriptorPart.with_errorcount (DescriptorPart.errorcount p + 1) p,
           nan)
      end
  | dt_string =>
      (p, if string_re_match val
          then match py_eval val with Some x => x | None => of_str val end
          else of_str val)
  | dt_date => (p, dateStringToDate val)
  end.

(** The body of the loop over the columns from the guess of the data
    type on: [self.datatype] is set when the conversion is chosen. *)
Definition convert (val : string) (p : DescriptorPart.t)
  : DescriptorPart.t * value :=
  convert_as (default (guessDataType val) (DescriptorPart.datatype p)) val
    (guess val p).

(** The items that [float] does not take. *)
Definition invalid (vals : list string) : list string :=
  filter (fun v => float v = None) vals.

(** [for col in self.columns]: [false] when the stream ran out of
    columns, which ends [readFromStream]. *)
Fixpoint read_columns (name : string) (cols : list string) (st : RS)
  : bool * RS :=
  match cols with
  | [] => (true, st)
  | col :: cols' =>
      match Stream.nextColumn (stream st) with
      | (Done (Some val), stream') =>
          let fullname := name +:+ NUL +:+ col in
          let dataset := default [] (thedatasets st !! fullname) in
          let (self', dat) := convert val (self st) in
          read_columns name cols'
            (mkRS self' stream' (<[fullname := dataset ++ [dat]]> (thedatasets st)))
      | (_, stream') => (false, mkRS (self st) stream' (thedatasets st))
      end
  end.

(** [for index in crange(self.startindex, self.stopindex+1)], from
    [index] on, for [fuel] turns at most ([None]: the fuel ran out). *)
Fixpoint read_indices (fuel : nat) (index : Z) (block : option Z) (st : RS)
  : option RS :=
  if (DescriptorPart.stopindex (self st) <? index)%Z then Some st
  else
    match fuel with
    | O => None
    | S fuel' =>
        match read_columns (part_name (self st) index block)
                (DescriptorPart.columns (self st)) st with
        | (false, st') => Some st'
        | (true, st') => read_indices fuel' (index + 1) block st'
        end
    end.

(** What reading [k] items of the line, or what is left of it, makes of
    the part, the stream and the datasets: the items are taken from the
    front of the line; the data type, if there was none, is guessed from
    the first item read; a part of type [float] counts the items that
    are not numbers; lists of values only grow at their end. *)
Definition reads (k : nat) (st st' : RS) : Prop :=
  let p := self st in
  let p' := self st' in
  let rl := Stream.remainingline (stream st) in
  Stream.file (stream st') = Stream.file (stream st) /\
  Stream.remainingline (stream st') = drop k rl /\
  p' = DescriptorPart.with_errorcount (DescriptorPart.errorcount p')
         (DescriptorPart.with_datatype (DescriptorPart.datatype p') p) /\
  DescriptorPart.datatype p'
  = match DescriptorPart.datatype p, take k rl with
    | Some d, _ => Some d
    | None, v :: _ => Some (guessDataType v)
    | None, [] => None
    end /\
  DescriptorPart.errorcount p'
  = DescriptorPart.errorcount p +
    (if decide (DescriptorPart.datatype p' = Some dt_float)
     then length (invalid (take k rl)) else 0) /\
  forall key,
    default [] (thedatasets st !! key)
      `prefix_of` default [] (thedatasets st' !! key).

(** [readFromStream(stream, thedatasets, block)].  A turn of the loop
    with all its columns read takes them from the line, so that a part
    with a column runs out of line, or of indices, within as many turns
    as the line has items and one more. *)
Definition readFromStream (block : option Z) (st : RS) : option RS :=
  read_indices (S (length (Stream.remainingline (stream st))))
    (DescriptorPart.startindex (self st)) block st.

(** *** Setting the data in the document *)

(** The datasets that [setInDocument] makes: [document.Dataset],
    [document.DatasetDateTime] and [document.DatasetText] with their
    arguments. *)
Inductive Made : Type :=
| MadeDataset (data : list value) (serr nerr perr : option (list value))
    (linked : option nat)
| MadeDatasetDateTime (data : list value) (linked : option nat)
| MadeDatasetText (data : list value) (linked : option nat).

(** A dataset whose error bars, where it has them, are as long as its
    data. *)
Definition equal_lengths (made : Made) : Prop :=
  match made with
  | MadeDataset data serr nerr perr _ =>
      forall e l, e ∈ [serr; nerr; perr] -> e = Some l -> length l = length data
  | _ => True
  end.

(** The calls [doc.setData(name, ds)] made so far, in order. *)
Definition Doc : Type := list (string * Made).

(** The first loop over [vals, pos, neg, sym]. *)
Definition minlength (l : list (option (list value))) : Z :=
  foldl (fun m ds =>
           match ds with
           | Some d => if (Z.of_nat (length d) <? m)%Z
                       then Z.of_nat (length d) else m
           | None => m
           end) 99999999999999%Z l.

(** [if len(ds) != minlength: del ds[minlength:]] *)
Definition cut (m : Z) (d : list value) : list value :=
  if decide (Z.of_nat (length d) = m) then d else take (Z.to_nat m) d.

(** [ds = ds[-tail:]] when [tail] is not [None]. *)
Definition last_values (tail : option Z) (d : list value) : list value :=
  match tail with
  | Some n => py_slice_from (- n) d
  | None => d
  end.

(** The second loop over [vals, pos, neg, sym]: the lists are those of
    [thedatasets], cut where they are. *)
Definition cut_in (m : Z) (key : string) (ds : Datasets) : Datasets :=
  match ds !! key with
  | Some d => <[key := cut m d]> ds
  | None => ds
  end.

Section SetInDocument.
Variable p : DescriptorPart.t.
Variable dt : DataType.
Variable block : option Z.
Variable linkedfile : option nat.
Variable prefix suffix : string.
Variable tail : option Z.

(** The body of the loop for [index] when [name+'\0D'] is in
    [thedatasets]: the final name, the dataset made, and [thedatasets]
    afterwards. *)
Definition set_one (name : string) (ds : Datasets)
  : option (string * Made * Datasets) :=
  match ds !! (name +:+ NUL +:+ "D") with
  | None => None
  | Some vals =>
      let pos := ds !! (name +:+ NUL +:+ "+") in
      let neg := ds !! (name +:+ NUL +:+ "-") in
      let sym := ds !! (name +:+ NUL +:+ "+-") in
      let m := minlength [Some vals; pos; neg; sym] in
      let ds' :=
        cut_in m (name +:+ NUL +:+ "+-")
          (cut_in m (name +:+ NUL +:+ "-")
             (cut_in m (name +:+ NUL +:+ "+")
                (cut_in m (name +:+ NUL +:+ "D") ds))) in
      let vals := last_values tail (cut m vals) in
      let sym := (fun d => last_values tail (cut m d)) <$> sym in
      let pos := (fun d => last_values tail (cut m d)) <$> pos in
      let neg := (fun d => last_values tail (cut m d)) <$> neg in
      let made :=
        match dt with
        | dt_float => MadeDataset vals sym neg pos linkedfile
        | dt_date => MadeDatasetDateTime vals linkedfile
        | dt_string => MadeDatasetText vals linkedfile
        end in
      Some (prefix +:+ name +:+ suffix, made, ds')
  end.

(** [for index in crange(self.startindex, self.stopindex+1)], from
    [index] on, for [fuel] turns at most. *)
Fixpoint set_indices (fuel : nat) (index : Z) (names : list string)
    (ds : Datasets) (doc : Doc) : option (list string * (Datasets * Doc)) :=
  if (DescriptorPart.stopindex p <? index)%Z then Some (names, (ds, doc))
  else
    match fuel with
    | O => None
    | S fuel' =>
        match set_one (part_name p index block) ds with
        | Some (finalname, made, ds') =>
            set_indices fuel' (index + 1) (names ++ [finalname]) ds'
              (doc ++ [(finalname, made)])
        | None => Some (names, (ds, doc))
        end
    end.

(** The key of [thedatasets] for the data column at [index], and the
    name under which it goes to the document. *)
Definition data_key (index : Z) : string :=
  part_name p index block +:+ NUL +:+ "D".
Definition final_name (index : Z) : string :=
  prefix +:+ part_name p index block +:+ suffix.
End SetInDocument.

(** [DescriptorPart.setInDocument(thedatasets, doc, block, linkedfile,
    prefix, suffix, tail)].  The loop ends at the first index without
    data, so it makes no more turns than [thedatasets] has lists, and
    one more. *)
Definition setInDocument (p : DescriptorPart.t) (block : option Z)
    (linkedfile : option nat) (prefix suffix : string) (tail : option Z)
    (ds : Datasets) (doc : Doc) : option (list string * (Datasets * Doc)) :=
  match DescriptorPart.datatype p with
  | None => Some ([], (ds, doc))
  | Some dt =>
      set_indices p dt block linkedfile prefix suffix tail
        (S (size ds)) (DescriptorPart.startindex p) [] ds doc
  end.

End Reader.
Arguments RS : clear implicits.
Arguments Datasets : clear implicits.
Arguments Made : clear implicits.
Arguments Doc : clear implicits.
End Reader1D.

(** ** The reader of 1D data *)

Module SimpleRead.
Import Rd.
Section Reader.
Context {value : Type}.

(** What the reader calls and this file does not define, beside what
    [DescriptorPart] calls: the regular expressions of the stream and of
    the descriptor, [str.strip] and [text_start_re.match]. *)
Variable findall : string -> list string.
Variable strip : string -> string.
Variable split : string -> list string.
Variable range_re_match : string -> option (option Z * option Z).
Variable text_start_re_match : string -> bool.
Variable float : string -> option value.
Variable nan : value.
Variable lower : string -> string.
Variable string_re_match : string -> bool.
Variable py_eval : string -> option value.
Variable of_str : string -> value.
Variable isDateTime : string -> bool.
Variable dateStringToDate : string -> value.

(** The attributes of a [SimpleRead] object.  ([self.ignoretext] is only
    read where [readData] has just set it, and is an argument here.) *)
Record t : Type :=
  mk { parts : list DescriptorPart.t;
       autodescr : bool;
       datasets : Reader1D.Datasets value;
       blocks : option (list Z);
       tail : option Z }.

(** [SimpleRead.__init__(descriptor)], with [clearState]. *)
Definition init (descriptor : string) : exc + t :=
  let descriptor := strip descriptor in
  match Descriptor.interpretDescriptor split range_re_match descriptor with
  | inl e => inl e
  | inr parts => inr (mk parts (bool_decide (descriptor = "")) ∅ None None)
  end.

(** [for p in self.parts: p.readFromStream(stream, self.datasets,
    block)]: the parts as they are afterwards, the stream and the
    datasets. *)
Fixpoint read_parts (block : option Z) (ps : list DescriptorPart.t)
    (stream : Stream.t) (ds : Reader1D.Datasets value)
  : option (list DescriptorPart.t * (Stream.t * Reader1D.Datasets value)) :=
  match ps with
  | [] => Some ([], (stream, ds))
  | p :: ps' =>
      match Reader1D.readFromStream float nan lower string_re_match py_eval
              of_str isDateTime dateStringToDate block
              (Reader1D.mkRS p stream ds) with
      | None => None
      | Some st =>
          match read_parts block ps' (Reader1D.stream st)
                  (Reader1D.thedatasets st) with
          | None => None
          | Some (ps'', r) => Some (Reader1D.self st :: ps'', r)
          end
      end
  end.

(** [while len(stream.remainingline) > 0: p = DescriptorPart(
    str(len(self.parts)+1), None, 'D', None); p.readFromStream(...);
    self.parts.append(p); allparts.append(p)], for [fuel] turns at
    most. *)
Fixpoint auto_parts (fuel : nat) (block : option Z)
    (ps : list DescriptorPart.t) (stream : Stream.t)
    (ds : Reader1D.Datasets value)
  : option (list DescriptorPart.t * (Stream.t * Reader1D.Datasets value)) :=
  match Stream.remainingline stream with
  | [] => Some (ps, (stream, ds))
  | _ :: _ =>
      match fuel with
      | O => None
      | S fuel' =>
          let p := DescriptorPart.init (pretty (length ps + 1)) None ["D"] None in
          match Reader1D.readFromStream float nan lower string_re_match
                  py_eval of_str isDateTime dateStringToDate block
                  (Reader1D.mkRS p stream ds) with
          | None => None
          | Some st =>
              auto_parts fuel' block (ps ++ [Reader1D.self st])
                (Reader1D.stream st) (Reader1D.thedatasets st)
          end
      end
  end.

(** The objects that the loops of [readData] work on: the reader, the
    stream, and the local variable [allparts].  [allparts] starts as a
    copy of the list [self.parts], a change of descriptor appends the
    new [self.parts] to it, and every part appended to [self.parts] is
    appended to it as well: it is always the parts of [earlier]
    descriptors followed by the very objects of [self.parts]. *)
Record LS : Type :=
  mkLS { self : t;
         stream : Stream.t;
         earlier : list DescriptorPart.t }.

Definition allparts (s : LS) : list DescriptorPart.t :=
  earlier s ++ parts (self s).

(** The normal case of a line: the parts read their items, then the
    automatic parts are made. *)
Definition read_line (block : option Z) (s : LS) : option LS :=
  match read_parts block (parts (self s)) (stream s) (datasets (self s)) with
  | None => None
  | Some (ps, (stream1, ds1)) =>
      if autodescr (self s) then
        match auto_parts (length (Stream.remainingline stream1)) block
                ps stream1 ds1 with
        | None => None
        | Some (ps', (stream2, ds2)) =>
            Some (mkLS (mk ps' true ds2 (blocks (self s)) (tail (self s)))
                    stream2 (earlier s))
        end
      else
        Some (mkLS (mk ps false ds1 (blocks (self s)) (tail (self s)))
                stream1 (earlier s))
  end.

Definition flushLine (s : LS) : LS :=
  mkLS (self s) (Stream.mk (Stream.file (stream s)) []) (earlier s).

(** The body of the loop of [_readDataUnblocked]. *)
Definition unblocked_body (ignoretext : bool) (s : LS)
  : option (outcome unit * LS) :=
  let rl := Stream.remainingline (stream s) in
  if decide (take 1 rl = ["descriptor"]) then
    let descriptor := String.concat " " (drop 1 rl) in
    match Descriptor.interpretDescriptor split range_re_match descriptor with
    | inl e => Some (Throw e, s)
    | inr new =>
        Some (Done tt,
              flushLine
                (mkLS (mk new false (datasets (self s)) (blocks (self s))
                         (tail (self s)))
                   (stream s) (allparts s)))
    end
  else if ignoretext
          && match rl with
             | r0 :: _ =>
                 text_start_re_match r0
                 && match parts (self s) with
                    | p0 :: _ =>
                        negb (bool_decide
                                (DescriptorPart.datatype p0 = Some dt_string))
                        && negb (bool_decide (r0 ∈ ["inf"; "nan"]))
                    | [] => false
                    end
             | [] => false
             end
  then Some (Done tt, flushLine s)
  else
    match read_line None s with
    | None => None
    | Some s' => Some (Done tt, flushLine s')
    end.

(** The loop [while stream.newLine()], for [fuel] turns at most, with
    [body] for its body. *)
Section Loop.
Context {L : Type}.
Variable get_stream : L -> Stream.t.
Variable set_stream : Stream.t -> L -> L.
Variable body : L -> option (outcome unit * L).

Fixpoint lines (fuel : nat) (s : L) : option (outcome unit * L) :=
  match fuel with
  | O => None
  | S fuel' =>
      match Stream.newLine findall (get_stream s) with
      | (Throw e, stream') => Some (Throw e, set_stream stream' s)
      | (Done false, stream') => Some (Done tt, set_stream stream' s)
      | (Done true, stream') =>
          match body (set_stream stream' s) with
          | None => None
          | Some (Throw e, s') => Some (Throw e, s')
          | Some (Done _, s') => lines fuel' s'
          end
      end
  end.
End Loop.

Definition with_stream (stream' : Stream.t) (s : LS) : LS :=
  mkLS (self s) stream' (earlier s).

(** What a turn of either loop of [readData] does to the parts: the
    file is not read by the body; every part has a column; [allparts]
    keeps its parts, in order, and may get more; and while the
    descriptor is automatic the parts of [self.parts] are followed by
    those made for the further columns. *)
Definition step_ok (s s' : LS) : Prop :=
  Stream.file (stream s') = Stream.file (stream s) /\
  DescriptorPart.cols_ok (parts (self s')) /\
  DescriptorPart.grown_from (allparts s) (allparts s') /\
  (autodescr (self s') = true ->
   autodescr (self s) = true /\
   earlier s' = earlier s /\
   exists ps' new,
     parts (self s') = ps' ++ new /\
     Forall2 DescriptorPart.same_part (parts (self s)) ps' /\
     Forall2 DescriptorPart.auto_part
       (seq (length (parts (self s)) + 1) (length new)) new).

(** [_readDataUnblocked(stream, ignoretext)]: the reader and the stream
    afterwards.  An exception leaves [self.parts] and [self.blocks] as
    they are at that point. *)
Definition _readDataUnblocked (ignoretext : bool) (w : t * Stream.t)
  : option (outcome unit * (t * Stream.t)) :=
  match lines stream with_stream (unblocked_body ignoretext)
          (S (length (Stream.file w.2))) (mkLS w.1 w.2 []) with
  | None => None
  | Some (Throw e, s) => Some (Throw e, (self s, stream s))
  | Some (Done _, s) =>
      Some (Done tt,
            (mk (allparts s) (autodescr (self s)) (datasets (self s)) None
               (tail (self s)),
             stream s))
  end.

(** The variables of the loop of [_readDataBlocked]: the dict [blocks]
    as the list of its keys in the order in which they were set, and
    [block]. *)
Record BS : Type :=
  mkBS { ls : LS;
         blocks_seen : list Z;
         block : Z }.

(** [blocks[block] = True] *)
Definition set_block (b : Z) (seen : list Z) : list Z :=
  if decide (b ∈ seen) then seen else seen ++ [b].

(** The body of the loop of [_readDataBlocked]. *)
Definition blocked_body (s : BS) : option (outcome unit * BS) :=
  let line := Stream.remainingline (stream (ls s)) in
  if bool_decide (length line = 0)
     || match line with
        | l0 :: _ => bool_decide (lower l0 = "no")
        | [] => false
        end
  then
    Some (Done tt,
          mkBS (flushLine (ls s)) (blocks_seen s)
            (if decide (block s ∈ blocks_seen s)
             then (block s + 1)%Z else block s))
  else
    match read_line (Some (block s)) (ls s) with
    | None => None
    | Some ls' =>
        Some (Done tt,
              mkBS (flushLine ls') (set_block (block s) (blocks_seen s))
                (block s))
    end.

(** The blocks set so far are numbered from 1 without a gap, up to
    [block] or to the number before it. *)
Definition numbered (seen : list Z) (b : Z) : Prop :=
  (1 <= b)%Z /\ (seen = seqZ 1 (b - 1) \/ seen = seqZ 1 b).

(** [_readDataBlocked(stream, ignoretext)] *)
Definition _readDataBlocked (w : t * Stream.t)
  : option (outcome unit * (t * Stream.t)) :=
  match lines (fun s => stream (ls s))
          (fun stream' s =>
             mkBS (with_stream stream' (ls s)) (blocks_seen s) (block s))
          blocked_body
          (S (length (Stream.file w.2))) (mkBS (mkLS w.1 w.2 []) [] 1%Z) with
  | None => None
  | Some (Throw e, s) => Some (Throw e, (self (ls s), stream (ls s)))
  | Some (Done _, s) =>
      Some (Done tt,
            (mk (allparts (ls s)) (autodescr (self (ls s)))
               (datasets (self (ls s))) (Some (blocks_seen s))
               (tail (self (ls s))),
             stream (ls s)))
  end.

(** [readData(stream, useblocks, ignoretext)] *)
Definition readData (useblocks ignoretext : bool) (w : t * Stream.t)
  : option (outcome unit * (t * Stream.t)) :=
  if useblocks then _readDataBlocked w else _readDataUnblocked ignoretext w.

(** [getInvalidConversions()]: the dict that the loop over the parts
    fills. *)
Definition getInvalidConversions (self : t) : gmap string nat :=
  foldl (fun out p =>
           <[DescriptorPart.name p := DescriptorPart.errorcount p]> out)
    ∅ (parts self).

End Reader.
Arguments t : clear implicits.
Arguments LS : clear implicits.
Arguments BS : clear implicits.
End SimpleRead.

(** ** Sample runs of the reader of 1D data *)

Module ReadCases1D.
Import Rd.

(** Values: numbers, [nan] and strings. *)
Inductive Val : Type :=
| VNum (x : Z)
| VNan
| VText (s : string).

(** Stand-ins for the library code: numbers are whole decimal numbers,
    no string is quoted or a date, tokens of a descriptor are separated
    by spaces and none is a range. *)
Definition float (s : string) : option Val := VNum <$> ReadCases.float s.
Definition string_re_match (s : string) : bool := false.
Definition py_eval (s : string) : option Val := None.
Definition isDateTime (s : string) : bool := false.
Definition dateStringToDate (s : string) : Val := VNan.
Definition split (descr : string) : list string := ReadCases.findall descr.
Definition range_re_match (s : string) : option (option Z * option Z) := None.
Definition text_start_re_match (s : string) : bool := false.

Definition readFromStream (block : option Z) (st : Reader1D.RS Val)
  : option (Reader1D.RS Val) :=
  Reader1D.readFromStream float VNan id string_re_match py_eval VText
    isDateTime dateStringToDate block st.

Definition readData (useblocks ignoretext : bool)
    (w : SimpleRead.t Val * Stream.t)
  : option (outcome unit * (SimpleRead.t Val * Stream.t)) :=
  SimpleRead.readData ReadCases.findall split range_re_match
    text_start_re_match float VNan id string_re_match py_eval VText
    isDateTime dateStringToDate useblocks ignoretext w.

(** The part of [y+-[1:2]] with type [float], and one without type. *)
Definition part_y : DescriptorPart.t :=
  DescriptorPart.init "y" (Some dt_float) ["D"; "+-"] (Some (1, 2)%Z).
Definition part_x : DescriptorPart.t :=
  DescriptorPart.init "x" None ["D"] None.

(** A line of five items, one of them not a number. *)
Definition line5 : Stream.t := Stream.mk [] ["1"; "2"; "a"; "4"; "5"].

Definition reading_y : Reader1D.RS Val := Reader1D.mkRS part_y line5 ∅.
Definition reading_x : Reader1D.RS Val := Reader1D.mkRS part_x line5 ∅.

(** Values read for [y_1] with three data values and two errors, and
    values for [y_3] with none for [y_2]. *)
Definition read_y : Reader1D.Datasets Val :=
  <["y_1" +:+ NUL +:+ "D" := [VNum 1; VNum 2; VNum 3]]>
    (<["y_1" +:+ NUL +:+ "+-" := [VNum 1; VNum 1]]>
       (<["y_3" +:+ NUL +:+ "D" := [VNum 7]]> ∅)).

(** The reader [SimpleRead('')], and a file of two blocks. *)
Definition reader0 : SimpleRead.t Val := SimpleRead.mk [] true ∅ None None.
Definition two_blocks : Stream.t :=
  Stream.init [""; "1 2"; "3 4 5"; ""; ""; "6"].

End ReadCases1D.

(** * Properties *)

(** ** Unfolding the computations *)

Ltac munfold :=
  cbv beta iota zeta delta
    [bind ret raise gets modify lift_opt get_self set_self get_doc set_doc
     doc_data_get doc_data_lookup doc_data_store setData deleteData
     renameDataset link_get link_store batchHistory try_pass_KeyError
     try_except_reraise set_remove get_tree set_tree resolveFullWidgetPath
     widget_at path_of removeChild addChild moveChild resolveFullSettingPath
     setting_stored setting_store fst snd] in *.

Lemma for_each_cons {St A} (x : A) (l : list A) (body : A -> M St unit) s :
  for_each (x :: l) body s =
  match body x s with
  | (Ok _, s') => for_each l body s'
  | (Raise e, s') => (Raise e, s')
  end.
Proof. reflexivity. Qed.

Lemma for_each_app {St A} (l1 l2 : list A) (body : A -> M St unit) s :
  for_each (l1 ++ l2) body s =
  match for_each l1 body s with
  | (Ok _, s') => for_each l2 body s'
  | (Raise e, s') => (Raise e, s')
  end.
Proof.
  revert s. induction l1 as [|x l1 IH]; intros s; simpl; [reflexivity|].
  unfold bind. destruct (body x s) as [[u|e] s']; [apply IH | reflexivity].
Qed.

Lemma Document_with_data_id d : Document.with_data (Document.data d) d = d.
Proof. by destruct d. Qed.

Lemma Document_with_data_twice m1 m2 d :
  Document.with_data m2 (Document.with_data m1 d) = Document.with_data m2 d.
Proof. by destruct d. Qed.

(** ** Restoring links by file *)

Module UnlinkByFileFacts.
Import OperationDatasetUnlinkByFile.

Lemma undo_body_present self doc name link ds :
Document.data doc !! name = Some ds ->
undo_body (name, link) (self, doc) =
(Ok tt, (self, Document.with_data
             (<[name := Dataset.with_linked (Some link) ds]>
                (Document.data doc)) doc)).
Proof. intros H. unfold undo_body. munfold. simpl. by rewrite H. Qed.

Lemma undo_body_absent self doc name link :
Document.data doc !! name = None ->
undo_body (name, link) (self, doc) = (Ok tt, (self, doc)).
Proof. intros H. unfold undo_body. munfold. simpl. by rewrite H. Qed.

Lemma unlink_undo_loop (l : list (string * nat)) :
NoDup l.*1 ->
forall self doc,
exists data',
for_each l undo_body (self, doc)
= (Ok tt, (self, Document.with_data data' doc)) /\
forall n, data' !! n =
        (fun ds => match (list_to_map l : gmap string nat) !! n with
                   | Some lk => Dataset.with_linked (Some lk) ds
                   | None => ds
                   end) <$> Document.data doc !! n.
Proof.
induction l as [|[k v] l IH]; intros Hnd self doc.
- exists (Document.data doc). split.
+ simpl. unfold ret. by rewrite Document_with_data_id.
+ intros n. simpl. rewrite lookup_empty. by destruct (_ !! n).
- simpl in Hnd. apply NoDup_cons in Hnd as [Hk Hnd].
assert (Hnone : (list_to_map l : gmap string nat) !! k = None)
by by apply not_elem_of_list_to_map_1.
rewrite for_each_cons.
destruct (Document.data doc !! k) as [ds|] eqn:Hlk.
+ rewrite (undo_body_present _ _ _ _ ds Hlk).
destruct (IH Hnd self
            (Document.with_data
               (<[k := Dataset.with_linked (Some v) ds]>
                  (Document.data doc)) doc)) as (data' & Hrun & Hdata).
exists data'. split.
* rewrite Hrun. by rewrite Document_with_data_twice.
* intros n. rewrite Hdata. simpl.
  destruct (decide (k = n)) as [->|Hne].
  -- rewrite !lookup_insert_eq, Hlk, Hnone. done.
  -- by rewrite !lookup_insert_ne.
+ rewrite (undo_body_absent _ _ _ _ Hlk).
destruct (IH Hnd self doc) as (data' & Hrun & Hdata).
exists data'. split; [done|].
intros n. rewrite Hdata. simpl.
destruct (decide (k = n)) as [->|Hne].
* by rewrite Hlk.
* by rewrite lookup_insert_ne.
Qed.
End UnlinkByFileFacts.

(** C10. [OperationDatasetUnlinkByFile.undo], run after [do] has saved
    links, never raises, whatever datasets the document still holds: it
    returns normally, leaves the operation object as it is, gives every
    dataset that is still present and has a saved link that link back,
    leaves the other datasets untouched and adds no name for a dataset
    that has been deleted. *)
Theorem unlink_by_file_undo_skips_deleted :
  forall (self : OperationDatasetUnlinkByFile.t) (doc : Document.t)
         (ol : gmap string nat),
    OperationDatasetUnlinkByFile.oldlinks self = Some ol ->
    OperationDatasetUnlinkByFile.undo (self, doc)
    = (Ok tt, (self, Document.with_data (relinked ol (Document.data doc)) doc)).
Proof.
  intros self doc ol Hol.
  unfold OperationDatasetUnlinkByFile.undo. munfold. simpl. rewrite Hol.
  destruct (UnlinkByFileFacts.unlink_undo_loop (map_to_list ol)
              (NoDup_fst_map_to_list ol) self doc) as (data' & Hrun & Hdata).
  rewrite Hrun. do 3 f_equal.
  apply map_eq. intros n. rewrite Hdata. unfold relinked.
  rewrite map_lookup_imap, list_to_map_to_list.
  by destruct (Document.data doc !! n).
Qed.

Lemma unlink_by_file_undo_skips_deleted_witness :
  OperationDatasetUnlinkByFile.undo (Sample.unlink_done, Sample.doc_unlinked)
  = (Ok tt,
     (Sample.unlink_done,
      Document.with_data
        (relinked {[ "x" := 0%nat; "gone" := 0%nat ]}
           (Document.data Sample.doc_unlinked)) Sample.doc_unlinked)).
Proof.
  apply (unlink_by_file_undo_skips_deleted Sample.unlink_done Sample.doc_unlinked
           {[ "x" := 0%nat; "gone" := 0%nat ]}).
  reflexivity.
Defined.

(** On that document the link of [x] is back, [a] is untouched and the
    deleted [gone] has not reappeared. *)
Example unlink_by_file_undo_sample :
  let data' := Document.data
                 (OperationDatasetUnlinkByFile.undo
                    (Sample.unlink_done, Sample.doc_unlinked)).2.2 in
  data' !! "x" = Some (Sample.from_file 0) /\
  data' !! "a" = Some (Sample.plain ∅) /\
  data' !! "gone" = None.
Proof. vm_compute. done. Qed.

(** ** Tagging *)

Lemma Dataset_with_tags_id ds : Dataset.with_tags (Dataset.tags ds) ds = ds.
Proof. by destruct ds. Qed.

Lemma set_add_remove (x : string) (s : gset string) :
  x ∉ s -> set_add x s ∖ {[x]} = s.
Proof. unfold set_add. set_solver. Qed.

Module DataTagFacts.
Import OperationDataTag.

(** The outcome of one turn of the loop of [do]. *)
Lemma do_body_cases name self doc :
match Document.data doc !! name with
| None => do_body name (self, doc) = (Raise KeyError, (self, doc))
| Some ds =>
if decide (tag self ∈ Dataset.tags ds)
then do_body name (self, doc) = (Ok tt, (self, doc))
else match removetags self with
     | Some rt =>
         do_body name (self, doc)
         = (Ok tt,
            (set_removetags (rt ++ [name]) self,
             Document.with_data
               (<[name := Dataset.with_tags
                            (set_add (tag self) (Dataset.tags ds)) ds]>
                  (Document.data doc)) doc))
     | None => True
     end
end.
Proof.
unfold do_body. munfold.
destruct (Document.data doc !! name) as [ds|]; [|done].
destruct (decide _); [done|]. by destruct (removetags self).
Qed.

Lemma tag_do_loop names :
forall self doc acc self' doc',
removetags self = Some acc ->
for_each names do_body (self, doc) = (Ok tt, (self', doc')) ->
exists new data',
self' = set_removetags (acc ++ new) self /\
doc' = Document.with_data data' doc /\
NoDup new /\
(forall n, n ∈ new <->
           n ∈ names /\
           exists ds, Document.data doc !! n = Some ds /\
                      tag self ∉ Dataset.tags ds) /\
(forall n, data' !! n = tagged_at (tag self) new n <$> Document.data doc !! n).
Proof.
induction names as [|name names IH]; intros self doc acc self' doc' Hacc Hrun.
- simpl in Hrun. unfold ret in Hrun. simplify_eq.
exists [], (Document.data doc'). rewrite app_nil_r.
split_and!.
+ destruct self'; simpl in *; by subst.
+ by rewrite Document_with_data_id.
+ constructor.
+ intros n. split; [by intros ?%elem_of_nil|]. by intros [?%elem_of_nil _].
+ intros n. destruct (_ !! n); [simpl|done]. unfold tagged_at.
by rewrite decide_False by apply not_elem_of_nil.
- rewrite for_each_cons in Hrun.
pose proof (do_body_cases name self doc) as Hb.
destruct (Document.data doc !! name) as [ds|] eqn:Hlk.
2:{ rewrite Hb in Hrun. discriminate. }
destruct (decide (tag self ∈ Dataset.tags ds)) as [Hin|Hnin].
+ rewrite Hb in Hrun.
destruct (IH _ _ _ _ _ Hacc Hrun) as (new & data' & -> & -> & Hnd & Hnew & Hdata).
exists new, data'. split_and!; try done.
intros n. rewrite Hnew. split.
* intros [Hn Hds]. split; [by right|done].
* intros [Hn (ds' & Hds' & Ht)]. split; [|by eauto].
  apply elem_of_cons in Hn as [->|Hn]; [|done].
  rewrite Hlk in Hds'. by simplify_eq.
+ rewrite Hacc in Hb. rewrite Hb in Hrun.
apply (IH _ _ (acc ++ [name])) in Hrun; [|done].
destruct Hrun as (new & data' & -> & -> & Hnd & Hnew & Hdata).
simpl in *.
assert (Hfresh : name ∉ new).
{ rewrite Hnew. intros [_ (ds' & Hds' & Ht)].
  rewrite lookup_insert_eq in Hds'. simplify_eq. simpl in Ht.
  unfold set_add in Ht. set_solver. }
exists (name :: new), data'. split_and!.
* unfold set_removetags. simpl. by rewrite <- app_assoc.
* by rewrite Document_with_data_twice.
* by constructor.
* intros n. rewrite elem_of_cons, Hnew. split.
  -- intros [->|[Hn (ds' & Hds' & Ht)]].
     ++ split; [by left|by eauto].
     ++ split; [by right|].
        destruct (decide (name = n)) as [->|Hne].
        ** exfalso. apply Hfresh, Hnew. by eauto.
        ** rewrite lookup_insert_ne in Hds' by done. by eauto.
  -- intros [Hn (ds' & Hds' & Ht)].
     destruct (decide (name = n)) as [->|Hne]; [by left|right].
     apply elem_of_cons in Hn as [->|Hn]; [done|].
     split; [done|]. rewrite lookup_insert_ne by done. by eauto.
* intros n. rewrite Hdata. unfold tagged_at.
  destruct (decide (name = n)) as [->|Hne].
  -- rewrite lookup_insert_eq, Hlk. simpl.
     rewrite decide_False by done.
     rewrite decide_True by by left. done.
  -- rewrite lookup_insert_ne by done.
     destruct (Document.data doc !! n); [simpl|done].
     destruct (decide (n ∈ new)).
     ++ rewrite decide_True by by right. done.
     ++ rewrite decide_False; [done|].
        intros [->|?]%elem_of_cons; done.
Qed.

Lemma tag_undo_loop rt :
NoDup rt ->
forall self doc,
(forall n, n ∈ rt -> exists ds, Document.data doc !! n = Some ds /\
                             tag self ∈ Dataset.tags ds) ->
exists data',
for_each rt undo_body (self, doc)
= (Ok tt, (self, Document.with_data data' doc)) /\
forall n, data' !! n = untagged_at (tag self) rt n <$> Document.data doc !! n.
Proof.
induction 1 as [|name rt Hfresh Hnd IH]; intros self doc Hall.
- exists (Document.data doc). split.
+ simpl. unfold ret. by rewrite Document_with_data_id.
+ intros n. destruct (_ !! n); [simpl|done]. unfold untagged_at.
by rewrite decide_False by apply not_elem_of_nil.
- destruct (Hall name) as (ds & Hlk & Hin); [by left|].
rewrite for_each_cons.
assert (Hstep : undo_body name (self, doc)
              = (Ok tt, (self, Document.with_data
                   (<[name := Dataset.with_tags
                                (Dataset.tags ds ∖ {[tag self]}) ds]>
                      (Document.data doc)) doc))).
{ unfold undo_body. munfold. rewrite Hlk.
by rewrite decide_True by done. }
rewrite Hstep.
edestruct (IH self) as (data' & Hrun & Hdata); last first.
+ exists data'. split.
* rewrite Hrun. by rewrite Document_with_data_twice.
* intros n. rewrite Hdata. simpl. unfold untagged_at.
  destruct (decide (name = n)) as [->|Hne].
  -- rewrite lookup_insert_eq, Hlk. simpl.
     rewrite decide_False by done.
     rewrite decide_True by by left. done.
  -- rewrite lookup_insert_ne by done.
     destruct (Document.data doc !! n); [simpl|done].
     destruct (decide (n ∈ rt)).
     ++ rewrite decide_True by by right. done.
     ++ rewrite decide_False; [done|].
        intros [->|?]%elem_of_cons; done.
+ intros n Hn. simpl.
destruct (decide (name = n)) as [->|Hne]; [done|].
rewrite lookup_insert_ne by done. apply Hall. by right.
Qed.
End DataTagFacts.

(** C8. [OperationDataTag]: when [do] succeeds, [removetags] lists, once
    each, exactly the named datasets that did not carry the tag before
    (a dataset already tagged is left alone and is not recorded); [do] adds
    the tag to exactly those datasets; and [undo] then succeeds and gives
    back the document as it was before [do], so every dataset that carried
    the tag before still carries it and the tag is gone from exactly the
    datasets where [do] added it. *)
Theorem data_tag_do_undo :
  forall (self self' : OperationDataTag.t) (doc doc' : Document.t),
    OperationDataTag.do (self, doc) = (Ok tt, (self', doc')) ->
    exists rt,
      OperationDataTag.removetags self' = Some rt /\
      NoDup rt /\
      (forall n, n ∈ rt <->
                 n ∈ OperationDataTag.datasetnames self /\
                 exists ds, Document.data doc !! n = Some ds /\
                            OperationDataTag.tag self ∉ Dataset.tags ds) /\
      (forall n, Document.data doc' !! n
                 = tagged_at (OperationDataTag.tag self) rt n
                     <$> Document.data doc !! n) /\
      OperationDataTag.undo (self', doc') = (Ok tt, (self', doc)).
Proof.
  intros self self' doc doc' Hdo.
  unfold OperationDataTag.do in Hdo. munfold.
  apply (DataTagFacts.tag_do_loop _ _ _ []) in Hdo; [|done].
  destruct Hdo as (new & data' & -> & -> & Hnd & Hnew & Hdata).
  simpl in *. exists new. split_and!; try done.
  unfold OperationDataTag.undo. munfold. simpl.
  edestruct (DataTagFacts.tag_undo_loop new Hnd) as (data'' & Hrun & Hdata'');
    last first.
  - rewrite Hrun. rewrite Document_with_data_twice.
    replace data'' with (Document.data doc);
      [by rewrite Document_with_data_id|].
    apply map_eq. intros n. rewrite Hdata''. simpl. rewrite Hdata.
    unfold untagged_at, tagged_at.
    destruct (Document.data doc !! n) as [ds|] eqn:Hlk; [simpl|done].
    destruct (decide (n ∈ new)) as [Hn|Hn]; [|done].
    apply Hnew in Hn as [_ (ds' & Hds' & Ht)].
    assert (ds' = ds) as -> by congruence.
    destruct ds; simpl in *. unfold Dataset.with_tags; simpl.
    by rewrite set_add_remove.
  - intros n Hn. simpl. rewrite Hdata.
    pose proof Hn as Hn'. apply Hnew in Hn' as [_ (ds & Hds & Ht)].
    rewrite Hds. simpl. eexists. split; [done|].
    unfold tagged_at. rewrite decide_True by done.
    simpl. unfold set_add. set_solver.
Qed.

Lemma data_tag_do_undo_witness :
  exists rt,
    OperationDataTag.removetags Sample.tag_done = Some rt /\
    NoDup rt /\
    (forall n, n ∈ rt <->
               n ∈ OperationDataTag.datasetnames Sample.tag_op /\
               exists ds, Document.data Sample.doc_tags !! n = Some ds /\
                          OperationDataTag.tag Sample.tag_op ∉ Dataset.tags ds) /\
    (forall n, Document.data Sample.doc_tagged !! n
               = tagged_at (OperationDataTag.tag Sample.tag_op) rt n
                   <$> Document.data Sample.doc_tags !! n) /\
    OperationDataTag.undo (Sample.tag_done, Sample.doc_tagged)
    = (Ok tt, (Sample.tag_done, Sample.doc_tags)).
Proof.
  apply (data_tag_do_undo Sample.tag_op Sample.tag_done
           Sample.doc_tags Sample.doc_tagged).
  vm_compute. reflexivity.
Defined.

(** ** Renaming a linked dataset *)

Module RenameFacts.
Import OperationDatasetRename.









End RenameFacts.




(** ** Batches *)

Module MultipleFacts.
Section Children.
Context {Op : Type}.
Variable child_do : Op -> Document.t -> res unit * (Op * Document.t).
Variable child_undo : Op -> Document.t -> res unit * (Op * Document.t).

Lemma undo_reversed_app l1 l2 doc :
OperationMultiple.undo_reversed child_undo (l1 ++ l2) doc =
match OperationMultiple.undo_reversed child_undo l1 doc with
| (Ok _, (l1', doc')) =>
let r := OperationMultiple.undo_reversed child_undo l2 doc' in
(r.1, (l1' ++ r.2.1, r.2.2))
| (Raise e, (l1', doc')) => (Raise e, (l1' ++ l2, doc'))
end.
Proof.
revert doc. induction l1 as [|x l1 IH]; intros doc; simpl.
- by destruct (OperationMultiple.undo_reversed _ _ _) as [? [? ?]].
- destruct (child_undo x doc) as [[[]|e] [x' doc']]; [|done].
rewrite IH.
by destruct (OperationMultiple.undo_reversed _ l1 doc')
as [[[]|e] [l1' doc'']].
Qed.

(** [undo] visits the children as the loop over
[self.operations[::-1]] does. *)
Lemma undo_as_reversed operations doc :
OperationMultiple.undo child_undo operations doc =
let r := OperationMultiple.undo_reversed child_undo (reverse operations) doc in
(r.1, (reverse r.2.1, r.2.2)).
Proof.
revert doc. induction operations as [|op rest IH]; intros doc; [done|].
simpl. rewrite reverse_cons, undo_reversed_app, IH. simpl.
destruct (OperationMultiple.undo_reversed _ (reverse rest) doc)
as [[[]|e] [rest' doc']]; simpl.
- destruct (child_undo op doc') as [[[]|e] [op' doc'']]; simpl;
by rewrite reverse_app.
- by rewrite reverse_app.
Qed.
End Children.
End MultipleFacts.

(** C2 (as amended). For an [OperationMultiple] of three children where
    the first child's [do] succeeds and the second's raises: the
    composite's [do] raises that exception, with the first child applied
    (and whatever the second did before it raised) and the third child not
    run; the composite's [undo] afterwards calls [undo] on the third child
    first, then on the second, then on the first, whether or not their
    [do] ran, and stops at the first [undo] that raises. *)
Theorem multiple_partial_failure_undo_order :
  forall (c1 c2 c3 c1' c2' : Operation) (descr : string)
         (doc doc1 doc2 : Document.t) (e : exn),
    op_do c1 doc = (Ok tt, (c1', doc1)) ->
    op_do c2 doc1 = (Raise e, (c2', doc2)) ->
    op_do (OpMultiple [c1; c2; c3] descr) doc
    = (Raise e, (OpMultiple [c1'; c2'; c3] descr, doc2)) /\
    op_undo (OpMultiple [c1'; c2'; c3] descr) doc2
    = match op_undo c3 doc2 with
      | (Ok _, (c3', d3)) =>
          match op_undo c2' d3 with
          | (Ok _, (c2'', d4)) =>
              let r := op_undo c1' d4 in
              (r.1, (OpMultiple [r.2.1; c2''; c3'] descr, r.2.2))
          | (Raise e2, (c2'', d4)) =>
              (Raise e2, (OpMultiple [c1'; c2''; c3'] descr, d4))
          end
      | (Raise e3, (c3', d3)) =>
          (Raise e3, (OpMultiple [c1'; c2'; c3'] descr, d3))
      end.
Proof.
  intros c1 c2 c3 c1' c2' descr doc doc1 doc2 e H1 H2. split.
  - simpl. rewrite H1. simpl. rewrite H2. done.
  - simpl.
    destruct (op_undo c3 doc2) as [[[]|e3] [c3' d3]]; simpl; [|done].
    destruct (op_undo c2' d3) as [[[]|e2] [c2'' d4]]; simpl; [|done].
    by destruct (op_undo c1' d4) as [r [c1'' d5]].
Qed.

Lemma multiple_partial_failure_undo_order_witness :
  op_do (OpMultiple [Sample.batch_first; Sample.batch_second; Sample.batch_third]
           "change") Sample.doc_linked
  = (Raise KeyError,
     (OpMultiple [Sample.batch_first_done; Sample.batch_second; Sample.batch_third]
        "change", Sample.doc_first_applied)) /\
  op_undo (OpMultiple [Sample.batch_first_done; Sample.batch_second;
                       Sample.batch_third] "change") Sample.doc_first_applied
  = match op_undo Sample.batch_third Sample.doc_first_applied with
    | (Ok _, (c3', d3)) =>
        match op_undo Sample.batch_second d3 with
        | (Ok _, (c2'', d4)) =>
            let r := op_undo Sample.batch_first_done d4 in
            (r.1, (OpMultiple [r.2.1; c2''; c3'] "change", r.2.2))
        | (Raise e2, (c2'', d4)) =>
            (Raise e2, (OpMultiple [Sample.batch_first_done; c2''; c3'] "change", d4))
        end
    | (Raise e3, (c3', d3)) =>
        (Raise e3, (OpMultiple [Sample.batch_first_done; Sample.batch_second; c3']
                      "change", d3))
    end.
Proof.
  apply (multiple_partial_failure_undo_order
           Sample.batch_first Sample.batch_second Sample.batch_third
           Sample.batch_first_done Sample.batch_second "change"
           Sample.doc_linked Sample.doc_first_applied Sample.doc_first_applied
           KeyError).
  - vm_compute. reflexivity.
  - vm_compute. reflexivity.
Defined.

(** C2, the claim as stated, fails: after the second child's [do] has
    raised, the composite's [undo] begins with the third child, whose [do]
    never ran.  Here that child is an [OperationDatasetDelete]; its [undo]
    reads [self.olddata], which only [do] assigns, so the composite's
    [undo] raises [AttributeError] and the first child is not reversed:
    dataset [b], which the first child installed, is still in the
    document. *)
Lemma multiple_undo_attempts_unrun_child :
  Document.data Sample.doc_linked !! "b" = None /\
  op_do (OpMultiple [Sample.batch_first; Sample.batch_second; Sample.batch_third]
           "change") Sample.doc_linked
  = (Raise KeyError,
     (OpMultiple [Sample.batch_first_done; Sample.batch_second; Sample.batch_third]
        "change", Sample.doc_first_applied)) /\
  Document.data Sample.doc_first_applied !! "b" = Some (Sample.plain ∅) /\
  op_undo Sample.batch_third Sample.doc_first_applied
  = (Raise AttributeError, (Sample.batch_third, Sample.doc_first_applied)) /\
  op_undo (OpMultiple [Sample.batch_first_done; Sample.batch_second;
                       Sample.batch_third] "change") Sample.doc_first_applied
  = (Raise AttributeError,
     (OpMultiple [Sample.batch_first_done; Sample.batch_second; Sample.batch_third]
        "change", Sample.doc_first_applied)).
Proof.
  split_and!; vm_compute; reflexivity.
Qed.

(** ** Batches that drive the history *)

Lemma tools_plugin_closes_batch apply self doc :
  Document.historybatch (OperationToolsPlugin.do apply (self, doc)).2.2 = None.
Proof.
  unfold OperationToolsPlugin.do. munfold.
  by destruct (apply _ _) as [[[]|e] [self' doc']].
Qed.

Lemma load_stylesheet_closes_batch_on_error runFile self doc e self' doc' :
  runFile (OperationLoadStyleSheet.filename self)
    (self, Document.with_historybatch (Some (OperationLoadStyleSheet.descr self)) doc)
  = (Raise e, (self', doc')) ->
  OperationLoadStyleSheet.do runFile (self, doc)
  = (Raise e, (self', Document.with_historybatch None doc')).
Proof.
  intros H. unfold OperationLoadStyleSheet.do. munfold. by rewrite H.
Qed.

Lemma load_stylesheet_no_close_on_return runFile self doc self' doc' :
  runFile (OperationLoadStyleSheet.filename self)
    (self, Document.with_historybatch (Some (OperationLoadStyleSheet.descr self)) doc)
  = (Ok tt, (self', doc')) ->
  OperationLoadStyleSheet.do runFile (self, doc) = (Ok tt, (self', doc')).
Proof.
  intros H. unfold OperationLoadStyleSheet.do. munfold. by rewrite H.
Qed.

(** C3. [OperationLoadStyleSheet.do] (and with it [OperationLoadCustom],
    which inherits it) does not close the history batch when the
    interpreter completes normally: with an interpreter run that returns
    without touching the document (an empty style sheet), [do] returns
    normally and the batch it opened is still open.  On the same run
    [OperationToolsPlugin.do] ends with the batch closed. *)
Theorem load_stylesheet_leaves_batch_open :
  forall (self : OperationLoadStyleSheet.t) (doc : Document.t)
         (plugin : OperationToolsPlugin.t),
    OperationLoadStyleSheet.do (fun _ => ret tt) (self, doc)
    = (Ok tt,
       (self, Document.with_historybatch
                (Some (OperationLoadStyleSheet.descr self)) doc)) /\
    OperationToolsPlugin.do (fun _ => ret tt) (plugin, doc)
    = (Ok tt, (plugin, Document.with_historybatch None doc)).
Proof.
  intros self doc plugin. split.
  - by apply load_stylesheet_no_close_on_return.
  - unfold OperationToolsPlugin.do. munfold. by destruct doc.
Qed.

(** ** The 2D text reader *)

(** C9. In [SimpleRead2D.readData], with the [transpose] parameter set, the
    transpose step replaces the matrix by its transpose and leaves
    [xgrid] and [ygrid] as they were before the step: the two grids are
    not swapped. *)
Theorem transpose_leaves_grids :
  forall (num : Type) (self : SimpleRead2D.t num),
    SimpleRead2D.transpose (SimpleRead2D.params self) = true ->
    SimpleRead2D.xgrid (SimpleRead2D.transpose_step self) = SimpleRead2D.xgrid self /\
    SimpleRead2D.ygrid (SimpleRead2D.transpose_step self) = SimpleRead2D.ygrid self /\
    SimpleRead2D.data (SimpleRead2D.transpose_step self)
    = SimpleRead2D.N_transpose (SimpleRead2D.ncols (SimpleRead2D.data self))
        (SimpleRead2D.data self).
Proof.
  intros num self Ht. unfold SimpleRead2D.transpose_step. rewrite Ht. done.
Qed.

Lemma transpose_leaves_grids_witness :
  SimpleRead2D.xgrid (SimpleRead2D.transpose_step Sample.reader)
  = Some [0; 1; 2; 3]%Z /\
  SimpleRead2D.ygrid (SimpleRead2D.transpose_step Sample.reader)
  = Some [10; 20; 30]%Z /\
  SimpleRead2D.data (SimpleRead2D.transpose_step Sample.reader)
  = [[1; 4]; [2; 5]; [3; 6]]%Z.
Proof.
  exact (transpose_leaves_grids Z Sample.reader eq_refl).
Defined.

(** ** Paths as strings *)

Module PathFacts.

Lemma append_cons (c : ascii) (a b : string) :
String c a +:+ b = String c (a +:+ b).
Proof. reflexivity. Qed.

Lemma append_nil_l (b : string) : "" +:+ b = b.
Proof. reflexivity. Qed.

Lemma append_nil_r (s : string) : s +:+ "" = s.
Proof.
induction s as [|c s IH]; [done|]. by rewrite append_cons, IH.
Qed.

Lemma append_assoc (a b c : string) : (a +:+ b) +:+ c = a +:+ (b +:+ c).
Proof.
induction a as [|x a IH]; [done|]. by rewrite !append_cons, IH.
Qed.

Lemma length_append (a b : string) :
String.length (a +:+ b) = String.length a + String.length b.
Proof.
induction a as [|x a IH]; [done|]. rewrite append_cons. simpl. by rewrite IH.
Qed.

(** [wp[:len(s)] == s] says that [s] is a prefix of [wp]. *)
Lemma substring_prefix_iff (s p : string) :
String.substring 0 (String.length s) p = s <-> exists t, p = s +:+ t.
Proof.
revert p. induction s as [|c s IH]; intros p.
- split; [by eexists|]. intros _. by destruct p.
- destruct p as [|c' p]; simpl.
+ split; [done|]. by intros [t ?].
+ split.
* intros H. injection H as -> Hs. apply IH in Hs as [t ->]. by eexists.
* intros [t H]. rewrite append_cons in H. injection H as -> ->.
  f_equal. apply IH. by eexists.
Qed.

Lemma has_slash_append (a b : string) :
has_slash (a +:+ b) = has_slash a || has_slash b.
Proof.
induction a as [|c a IH]; [done|]. rewrite append_cons. simpl.
rewrite IH. by rewrite orb_assoc.
Qed.

(** Splitting: a part without ['/'] is collected into [cur]. *)
Lemma split_slash_part (n rest cur : string) :
has_slash n = false ->
split_slash (n +:+ rest) cur = split_slash rest (cur +:+ n).
Proof.
revert cur. induction n as [|c n IH]; intros cur Hn.
- by rewrite append_nil_l, append_nil_r.
- simpl in Hn. apply orb_false_iff in Hn as [Hc Hn].
rewrite append_cons. simpl. rewrite Hc.
rewrite IH by done. rewrite append_assoc. done.
Qed.

Lemma concat_cons (n : string) (ns : list string) :
String.concat "" (map (String.append "/") (n :: ns))
= "/" +:+ n +:+ String.concat "" (map (String.append "/") ns).
Proof.
destruct ns as [|n' ns]; simpl.
- by rewrite append_nil_r.
- rewrite append_nil_l. by rewrite append_assoc.
Qed.

Lemma split_slash_join (ns : list string) (cur : string) :
Forall (fun n => valid_name n = true) ns ->
split_slash (String.concat "" (map (String.append "/") ns)) cur = cur :: ns.
Proof.
revert cur. induction ns as [|n ns IH]; intros cur Hok; [done|].
apply Forall_cons in Hok as [Hn Hok].
apply andb_true_iff in Hn as [_ Hn]. apply negb_true_iff in Hn.
rewrite concat_cons, append_cons, append_nil_l. simpl.
rewrite split_slash_part by done. rewrite IH by done. done.
Qed.

(** A path built from valid names splits back into those names. *)
Lemma path_parts_widget_path (ns : list string) :
Forall (fun n => valid_name n = true) ns ->
path_parts (widget_path ns) = ns.
Proof.
intros Hok. unfold path_parts, widget_path.
destruct ns as [|n ns]; [done|].
rewrite split_slash_join by done.
rewrite filter_cons. rewrite decide_False by (intros H; by apply H).
induction Hok as [|m ms Hm _ IH]; [done|].
rewrite filter_cons. rewrite decide_True; [by rewrite IH|].
apply andb_true_iff in Hm as [Hm _]. apply negb_true_iff in Hm.
intros ->. discriminate.
Qed.

End PathFacts.

(** ** The widget tree *)

Module TreeFacts.


Lemma parent_of_Some pos pp i : parent_of pos = Some (pp, i) <-> pos = pp ++ [i].
Proof.
unfold parent_of. split.
- destruct (reverse pos) as [|j rpos] eqn:Hr; [done|].
intros [= <- <-]. rewrite <- (reverse_involutive pos), Hr.
by rewrite reverse_cons.
- intros ->. rewrite reverse_snoc. by rewrite reverse_involutive.
Qed.

Lemma parent_of_nil : parent_of [] = None.
Proof. reflexivity. Qed.

Lemma get_at_app p q w : get_at (p ++ q) w = get_at p w ≫= get_at q.
Proof.
revert w. induction p as [|i p IH]; intros w; simpl; [done|].
destruct (Widget.children w !! i); [apply IH|done].
Qed.

Lemma get_at_snoc pp i w p :
get_at pp w = Some p -> get_at (pp ++ [i]) w = Widget.children p !! i.
Proof.
intros H. rewrite get_at_app, H. simpl. by destruct (_ !! i).
Qed.

Lemma names_at_is_Some pos w x :
get_at pos w = Some x -> is_Some (names_at pos w).
Proof.
revert w. induction pos as [|i pos IH]; intros w; simpl; [by eexists|].
destruct (Widget.children w !! i) as [c|]; [|done].
intros H. destruct (IH _ H) as [ns ->]. by eexists.
Qed.

Lemma names_at_get_at pos w ns :
names_at pos w = Some ns -> is_Some (get_at pos w).
Proof.
revert w ns. induction pos as [|i pos IH]; intros w ns; simpl; [by eexists|].
destruct (Widget.children w !! i) as [c|]; [|done].
destruct (names_at pos c) as [ns'|] eqn:Hn; [|done]. intros _. by eapply IH.
Qed.

Lemma with_children_id w : with_children (Widget.children w) w = w.
Proof. by destruct w. Qed.

Lemma modify_at_modify_at p f g w :
modify_at p g (modify_at p f w) = modify_at p (fun x => g (f x)) w.
Proof.
revert w. induction p as [|i p IH]; intros w; simpl; [done|].
destruct (Widget.children w !! i) as [c|] eqn:Hc; simpl; [|by rewrite Hc].
rewrite list_lookup_insert_eq by by eapply lookup_lt_Some.
unfold with_children. simpl. by rewrite list_insert_insert_eq, IH.
Qed.

Lemma modify_at_id p f w x :
get_at p w = Some x -> f x = x -> modify_at p f w = w.
Proof.
revert w. induction p as [|i p IH]; intros w; simpl.
- by intros [= ->].
- destruct (Widget.children w !! i) as [c|] eqn:Hc; [|done].
intros Hx Hf. rewrite (IH _ Hx Hf), list_insert_id by done.
apply with_children_id.
Qed.

Lemma modify_at_ext p f g w x :
get_at p w = Some x -> f x = g x -> modify_at p f w = modify_at p g w.
Proof.
revert w. induction p as [|i p IH]; intros w; simpl.
- by intros [= ->].
- destruct (Widget.children w !! i) as [c|] eqn:Hc; [|done].
intros Hx Hf. by rewrite (IH _ Hx Hf).
Qed.

Lemma get_at_modify_at p f w x :
get_at p w = Some x -> get_at p (modify_at p f w) = Some (f x).
Proof.
revert w. induction p as [|i p IH]; intros w; simpl.
- by intros [= ->].
- destruct (Widget.children w !! i) as [c|] eqn:Hc; [|done].
intros Hx. simpl.
rewrite list_lookup_insert_eq by by eapply lookup_lt_Some. by apply IH.
Qed.

Lemma name_modify_at p f w :
(forall x, Widget.name (f x) = Widget.name x) ->
Widget.name (modify_at p f w) = Widget.name w.
Proof.
intros Hf. destruct p as [|i p]; simpl; [apply Hf|].
by destruct (Widget.children w !! i).
Qed.

Lemma find_child_spec n cs i :
find_child n cs = Some i ->
exists c, cs !! i = Some c /\ Widget.name c = n.
Proof.
revert i. induction cs as [|c cs IH]; intros i; simpl; [done|].
destruct (decide (Widget.name c = n)) as [Hn|Hn].
- intros [= <-]. by exists c.
- destruct (find_child n cs) as [j|]; [|done]. intros [= <-].
destruct (IH j eq_refl) as (c' & ? & ?). by exists c'.
Qed.

Lemma find_child_insert n cs i c c' :
cs !! i = Some c -> Widget.name c' = Widget.name c ->
find_child n (<[i := c']> cs) = find_child n cs.
Proof.
revert i. induction cs as [|d cs IH]; intros i Hc Hn; [done|].
destruct i as [|i]; simpl in *.
- injection Hc as ->. by rewrite Hn.
- by rewrite (IH i Hc Hn).
Qed.

(** Changing the widget at [pp] without renaming it keeps the path to it. *)
Lemma resolve_parts_modify_at ps pp f w :
(forall x, Widget.name (f x) = Widget.name x) ->
resolve_parts ps w = Some pp ->
resolve_parts ps (modify_at pp f w) = Some pp.
Proof.
intros Hf. revert pp w. induction ps as [|p ps IH]; intros pp w; simpl.
- by intros [= <-].
- destruct (find_child p (Widget.children w)) as [i|] eqn:Hi; [|done].
destruct (Widget.children w !! i) as [c|] eqn:Hc; [|done].
destruct (resolve_parts ps c) as [pp'|] eqn:Hpp; [|done].
intros [= <-]. simpl. rewrite Hc. simpl.
rewrite (find_child_insert _ _ _ c) by (done || by apply name_modify_at).
rewrite Hi, list_lookup_insert_eq by by eapply lookup_lt_Some.
by rewrite (IH _ _ Hpp).
Qed.

Lemma resolve_parts_spec ps w pos :
resolve_parts ps w = Some pos ->
names_at pos w = Some ps /\ is_Some (get_at pos w).
Proof.
revert w pos. induction ps as [|p ps IH]; intros w pos; simpl.
- intros [= <-]. split; [done|by eexists].
- destruct (find_child p (Widget.children w)) as [i|] eqn:Hi; [|done].
destruct (Widget.children w !! i) as [c|] eqn:Hc; [|done].
destruct (resolve_parts ps c) as [pp'|] eqn:Hpp; [|done].
intros [= <-]. simpl. rewrite Hc.
destruct (IH _ _ Hpp) as [-> ?].
apply find_child_spec in Hi as (c' & Hc' & Hn).
rewrite Hc in Hc'. injection Hc' as <-. by rewrite Hn.
Qed.

Lemma resolve_parts_nil_inv ps w : resolve_parts ps w = Some [] -> ps = [].
Proof.
destruct ps as [|q ps]; [done|]. simpl.
destruct (find_child q _) as [j|]; [|done].
destruct (_ !! j) as [c|]; [|done]. by destruct (resolve_parts ps c).
Qed.

(** The parent of a resolved widget is what the path without its last
name resolves to, and the widget is the first child of its name. *)
Lemma resolve_parts_parent ps w pp i :
resolve_parts ps w = Some (pp ++ [i]) ->
exists ps' n p c,
ps = ps' ++ [n] /\ resolve_parts ps' w = Some pp /\
get_at pp w = Some p /\ find_child n (Widget.children p) = Some i /\
Widget.children p !! i = Some c /\ Widget.name c = n.
Proof.
revert w pp. induction ps as [|p ps IH]; intros w pp; simpl.
- intros [= H]. by destruct pp.
- destruct (find_child p (Widget.children w)) as [j|] eqn:Hj; [|done].
destruct (Widget.children w !! j) as [c|] eqn:Hc; [|done].
destruct (resolve_parts ps c) as [pos'|] eqn:Hpos; [|done].
intros [= H]. destruct pp as [|k pp]; simpl in H.
+ injection H as -> ->. apply resolve_parts_nil_inv in Hpos as ->.
exists [], p, w, c. split_and!; try done.
apply find_child_spec in Hj as (c' & Hc' & Hn). congruence.
+ injection H as -> ->.
destruct (IH _ _ Hpos) as (ps' & n & p' & c' & -> & Hr & Hg & Hf & Hl & Hn).
exists (p :: ps'), n, p', c'. simpl. rewrite Hj, Hc, Hr. done.
Qed.

Lemma names_ok_iff w :
names_ok w = true <->
forall i c, Widget.children w !! i = Some c ->
        valid_name (Widget.name c) = true /\ names_ok c = true.
Proof.
destruct w as [n ty s cs]. simpl. rewrite forallb_forall. split.
- intros H i c Hc. apply andb_true_iff, H.
apply list_elem_of_In, list_elem_of_lookup. by exists i.
- intros H c Hc. apply list_elem_of_In, list_elem_of_lookup in Hc as [i Hi].
apply andb_true_iff. by eapply H.
Qed.

Lemma names_ok_names_at pos w ns :
names_ok w = true -> names_at pos w = Some ns ->
Forall (fun n => valid_name n = true) ns.
Proof.
revert w ns. induction pos as [|i pos IH]; intros w ns Hok; simpl.
- intros [= <-]. constructor.
- destruct (Widget.children w !! i) as [c|] eqn:Hc; [|done].
destruct (names_at pos c) as [ns'|] eqn:Hn; [|done]. intros [= <-].
destruct (proj1 (names_ok_iff w) Hok i c Hc) as [Hv Hokc].
constructor; [done|]. by eapply IH.
Qed.

Lemma names_ok_get_at pos w x :
names_ok w = true -> get_at pos w = Some x -> names_ok x = true.
Proof.
revert w. induction pos as [|i pos IH]; intros w Hok; simpl.
- by intros [= <-].
- destruct (Widget.children w !! i) as [c|] eqn:Hc; [|done].
apply IH. by eapply (proj1 (names_ok_iff w) Hok).
Qed.

Lemma names_ok_modify_at pp f w :
names_ok w = true ->
(forall x, names_ok x = true -> names_ok (f x) = true) ->
(forall x, Widget.name (f x) = Widget.name x) ->
names_ok (modify_at pp f w) = true.
Proof.
intros Hok Hf Hn. revert w Hok. induction pp as [|i pp IH]; intros w Hok; simpl.
- by apply Hf.
- destruct (Widget.children w !! i) as [c|] eqn:Hc; [|done].
apply names_ok_iff. intros j d. simpl.
destruct (decide (i = j)) as [->|Hne].
+ rewrite list_lookup_insert_eq by by eapply lookup_lt_Some.
intros [= <-]. destruct (proj1 (names_ok_iff w) Hok j c Hc) as [Hv Hokc].
split; [by rewrite name_modify_at|by apply IH].
+ rewrite list_lookup_insert_ne by done.
by apply (proj1 (names_ok_iff w) Hok).
Qed.

Lemma names_ok_sublist w cs :
names_ok w = true -> cs ⊆ Widget.children w ->
names_ok (with_children cs w) = true.
Proof.
intros Hok Hsub. apply names_ok_iff. intros i c Hc. simpl in Hc.
assert (c ∈ Widget.children w) as [j Hj]%list_elem_of_lookup.
{ apply Hsub, list_elem_of_lookup. by exists i. }
by apply (proj1 (names_ok_iff w) Hok j).
Qed.

(** Python's [l.insert(i, x)] after [del l[i]] of that [x]. *)
Lemma insert_at_delete {A} (l : list A) i x :
l !! i = Some x -> list_insert_at i x (delete i l) = l.
Proof.
intros H. unfold list_insert_at. rewrite delete_take_drop.
assert (Hlen : length (take i l) = i).
{ rewrite length_take. apply lookup_lt_Some in H. lia. }
rewrite take_app_length' by done. rewrite drop_app_length' by done.
by apply take_drop_middle.
Qed.


End TreeFacts.

(** ** Deleting widgets and putting them back *)

Module DeleteFacts.
Import TreeFacts.

Lemma names_ok_with_children cs x y :
names_ok (with_children cs x) = names_ok (with_children cs y).
Proof. reflexivity. Qed.

(** Taking the widget that [path] resolves to out of its parent, and what
is needed to put it back. *)
Lemma detach_facts root path pp i :
names_ok root = true ->
resolve_parts (path_parts path) root = Some (pp ++ [i]) ->
exists w p ns,
get_at (pp ++ [i]) root = Some w /\
get_at pp root = Some p /\
Widget.children p !! i = Some w /\
find_child (Widget.name w) (Widget.children p) = Some i /\
names_at pp root = Some ns /\
let root' := modify_at pp (with_children (delete i (Widget.children p))) root in
names_ok root' = true /\
resolve_parts (path_parts (widget_path ns)) root' = Some pp /\
get_at pp root' = Some (with_children (delete i (Widget.children p)) p) /\
modify_at pp
(with_children (list_insert_at i w (delete i (Widget.children p)))) root'
= root.
Proof.
intros Hok Hres.
destruct (resolve_parts_parent _ _ _ _ Hres)
as (ps' & n & p & c & Hps & Hpp & Hp & Hfind & Hc & Hn).
destruct (resolve_parts_spec _ _ _ Hpp) as [Hns _].
exists c, p, ps'. cbv zeta. split_and!; try done.
- by rewrite (get_at_snoc _ _ _ _ Hp).
- by rewrite Hn.
- apply names_ok_modify_at; [done| |done].
intros x _. rewrite (names_ok_with_children _ x p).
apply names_ok_sublist; [by eapply names_ok_get_at|].
apply sublist_subseteq, sublist_delete.
- rewrite PathFacts.path_parts_widget_path by by eapply names_ok_names_at.
by apply resolve_parts_modify_at.
- by apply get_at_modify_at.
- rewrite modify_at_modify_at. eapply modify_at_id; [done|].
unfold with_children at 1. simpl.
rewrite insert_at_delete by done. by destruct p.
Qed.

Lemma Document_with_basewidget_id d :
Document.with_basewidget (Document.basewidget d) d = d.
Proof. by destruct d. Qed.

Lemma Document_with_basewidget_twice w1 w2 d :
Document.with_basewidget w2 (Document.with_basewidget w1 d)
= Document.with_basewidget w2 d.
Proof. by destruct d. Qed.


Import OperationWidgetsDelete.

(** One turn of the loop of [OperationWidgetsDelete.do]. *)
Lemma widgets_delete_body path self doc self' doc' ows opp ois :
names_ok (Document.basewidget doc) = true ->
oldwidgets self = Some ows ->
oldparentpaths self = Some opp ->
oldindexes self = Some ois ->
do_body path (self, doc) = (Ok tt, (self', doc')) ->
exists w ppath idx,
self' = mk (widgetpaths self) (Some (ows ++ [w])) (Some (opp ++ [ppath]))
        (Some (ois ++ [idx])) /\
names_ok (Document.basewidget doc') = true /\
forall s : t, reattach ppath w idx (s, doc') = (Ok tt, (s, doc)).
Proof.
destruct doc as [root dat ls cs hb]. simpl.
intros Hok Hows Hopp Hois Hdo. unfold do_body in Hdo. munfold.
unfold Document.with_basewidget in *. simpl in *.
destruct (resolve_parts _ _) as [pos|] eqn:Hres; [|done].
destruct (parent_of pos) as [[pp i]|] eqn:Hpar.
2:{ simpl in Hdo. destruct (get_at pos _); [|done].
simpl in Hdo. rewrite Hows in Hdo. by simpl in Hdo. }
apply parent_of_Some in Hpar as ->.
destruct (detach_facts _ _ _ _ Hok Hres)
as (w & p & ns & Hw & Hp & Hc & Hfind & Hns & Hok' & Hres' & Hp' & Hback).
simpl in Hdo. rewrite Hw in Hdo. simpl in Hdo. rewrite Hows in Hdo.
simpl in Hdo. rewrite Hns in Hdo. simpl in Hdo. rewrite Hopp, Hois in Hdo.
simpl in Hdo. rewrite Hp in Hdo. simpl in Hdo. rewrite Hfind in Hdo.
simpl in Hdo. injection Hdo as <- <-.
exists w, (widget_path ns), i. split_and!; [done|done|].
intros s. unfold reattach. munfold. unfold Document.with_basewidget. simpl.
rewrite Hres'. simpl. rewrite Hp'. simpl. by rewrite Hback.
Qed.

Lemma widgets_undo_body_at i self doc ows opp ois w ppath idx :
oldwidgets self = Some ows ->
oldparentpaths self = Some opp ->
oldindexes self = Some ois ->
ows !! i = Some w -> opp !! i = Some ppath -> ois !! i = Some idx ->
undo_body i (self, doc) = reattach ppath w idx (self, doc).
Proof.
intros Hows Hopp Hois Hw Hp Hi. unfold undo_body, reattach. munfold.
rewrite Hopp. simpl. rewrite Hp. simpl.
destruct (resolve_parts _ _) as [ppos|]; [|done]. simpl.
rewrite Hows. simpl. rewrite Hw. simpl. rewrite Hois. simpl. by rewrite Hi.
Qed.

Lemma widgets_delete_loop paths :
forall self doc self' doc' ows opp ois,
names_ok (Document.basewidget doc) = true ->
oldwidgets self = Some ows ->
oldparentpaths self = Some opp ->
oldindexes self = Some ois ->
length opp = length ows -> length ois = length ows ->
for_each paths do_body (self, doc) = (Ok tt, (self', doc')) ->
exists ws pps ids,
length pps = length ws /\ length ids = length ws /\
self' = mk (widgetpaths self) (Some (ows ++ ws)) (Some (opp ++ pps))
          (Some (ois ++ ids)) /\
names_ok (Document.basewidget doc') = true /\
for_each (reverse (seq (length ows) (length ws))) undo_body (self', doc')
= (Ok tt, (self', doc)).
Proof.
induction paths as [|path paths IH];
intros self doc self' doc' ows opp ois Hok Hows Hopp Hois Hl1 Hl2 Hrun.
- simpl in Hrun. unfold ret in Hrun. injection Hrun as <- <-.
exists [], [], []. rewrite !app_nil_r. split_and!; try done.
destruct self; simpl in *; by subst.
- rewrite for_each_cons in Hrun.
destruct (do_body path (self, doc)) as [[[]|e] [self1 doc1]] eqn:Hbody;
[|done].
destruct (widgets_delete_body _ _ _ _ _ _ _ _ Hok Hows Hopp Hois Hbody)
as (w & ppath & idx & -> & Hok1 & Hre).
eapply (IH _ _ _ _ (ows ++ [w]) (opp ++ [ppath]) (ois ++ [idx])) in Hrun;
try done; [|rewrite !length_app; simpl; lia..].
destruct Hrun as (ws & pps & ids & Hlp & Hli & -> & Hok' & Hundo).
simpl in *.
exists (w :: ws), (ppath :: pps), (idx :: ids).
rewrite <- !app_assoc in *. simpl in *.
split_and!; try done; try lia.
rewrite length_app in Hundo. simpl in Hundo.
replace (length ows + 1) with (S (length ows)) in Hundo by lia.
rewrite reverse_cons, for_each_app, Hundo.
simpl. unfold bind.
erewrite widgets_undo_body_at; simpl; try done.
+ by rewrite Hre.
+ by apply list_lookup_middle.
+ by apply list_lookup_middle.
+ by apply list_lookup_middle.
Qed.

(** [OperationWidgetsDelete]: [undo] after a successful [do] gives the
document back. *)
Lemma widgets_delete_body_detach path self doc self' doc' ows opp ois :
names_ok (Document.basewidget doc) = true ->
oldwidgets self = Some ows ->
oldparentpaths self = Some opp ->
oldindexes self = Some ois ->
do_body path (self, doc) = (Ok tt, (self', doc')) ->
exists w ppath idx root1,
detach path (Document.basewidget doc) = Some (w, ppath, idx, root1) /\
self' = mk (widgetpaths self) (Some (ows ++ [w])) (Some (opp ++ [ppath]))
        (Some (ois ++ [idx])) /\
doc' = Document.with_basewidget root1 doc /\
names_ok root1 = true.
Proof.
destruct doc as [root dat ls cs hb]. simpl.
intros Hok Hows Hopp Hois Hdo. unfold do_body in Hdo. munfold.
unfold Document.with_basewidget in *. simpl in *.
destruct (resolve_parts _ _) as [pos|] eqn:Hres; [|done].
destruct (parent_of pos) as [[pp i]|] eqn:Hpar.
2:{ simpl in Hdo. destruct (get_at pos _); [|done].
simpl in Hdo. rewrite Hows in Hdo. by simpl in Hdo. }
pose proof Hpar as Hpar'. apply parent_of_Some in Hpar' as ->.
destruct (detach_facts _ _ _ _ Hok Hres)
as (w & p & ns & Hw & Hp & Hc & Hfind & Hns & Hok' & Hres' & Hp' & Hback).
simpl in Hdo. rewrite Hw in Hdo. simpl in Hdo. rewrite Hows in Hdo.
simpl in Hdo. rewrite Hns in Hdo. simpl in Hdo. rewrite Hopp, Hois in Hdo.
simpl in Hdo. rewrite Hp in Hdo. simpl in Hdo. rewrite Hfind in Hdo.
simpl in Hdo. injection Hdo as <- <-.
eexists w, (widget_path ns), i, _. split_and!; [|done|done|exact Hok'].
unfold detach. by rewrite Hres, Hpar, Hw, Hp, Hns.
Qed.
Lemma widgets_delete_loop_detach paths :
forall self doc self' doc' ows opp ois,
names_ok (Document.basewidget doc) = true ->
oldwidgets self = Some ows ->
oldparentpaths self = Some opp ->
oldindexes self = Some ois ->
for_each paths do_body (self, doc) = (Ok tt, (self', doc')) ->
exists ws pps ids root',
detach_all paths (Document.basewidget doc) = Some (ws, pps, ids, root') /\
self' = mk (widgetpaths self) (Some (ows ++ ws)) (Some (opp ++ pps))
          (Some (ois ++ ids)) /\
doc' = Document.with_basewidget root' doc.
Proof.
induction paths as [|path paths IH];
intros self doc self' doc' ows opp ois Hok Hows Hopp Hois Hrun.
- simpl in Hrun. unfold ret in Hrun. injection Hrun as <- <-.
exists [], [], [], (Document.basewidget doc). rewrite !app_nil_r.
split_and!; [done| |by destruct doc].
destruct self; simpl in *; by subst.
- rewrite for_each_cons in Hrun.
destruct (do_body path (self, doc)) as [[[]|e] [self1 doc1]] eqn:Hbody;
[|done].
destruct (widgets_delete_body_detach _ _ _ _ _ _ _ _ Hok Hows Hopp Hois Hbody)
as (w & ppath & idx & root1 & Hdet & -> & -> & Hok1).
eapply (IH _ _ _ _ (ows ++ [w]) (opp ++ [ppath]) (ois ++ [idx])) in Hrun;
try done.
destruct Hrun as (ws & pps & ids & root' & Hall & -> & ->).
exists (w :: ws), (ppath :: pps), (idx :: ids), root'.
simpl in *. rewrite Hdet, Hall. rewrite <- !app_assoc.
by split_and!.
Qed.
Lemma widgets_delete_detaches self doc self' doc' :
names_ok (Document.basewidget doc) = true ->
OperationWidgetsDelete.do (self, doc) = (Ok tt, (self', doc')) ->
exists ws pps ids root',
detach_all (distinct_ancestry (widgetpaths self)) (Document.basewidget doc)
= Some (ws, pps, ids, root') /\
self' = mk (widgetpaths self) (Some ws) (Some pps) (Some ids) /\
doc' = Document.with_basewidget root' doc.
Proof.
intros Hok Hdo. unfold OperationWidgetsDelete.do in Hdo. munfold.
eapply (widgets_delete_loop_detach _ _ _ _ _ [] [] []) in Hdo; try done.
Qed.
Lemma widgets_delete_round_trip self doc self' doc' :
names_ok (Document.basewidget doc) = true ->
OperationWidgetsDelete.do (self, doc) = (Ok tt, (self', doc')) ->
names_ok (Document.basewidget doc') = true /\
OperationWidgetsDelete.undo (self', doc') = (Ok tt, (self', doc)).
Proof.
intros Hok Hdo. unfold OperationWidgetsDelete.do in Hdo. munfold.
eapply (widgets_delete_loop _ _ _ _ _ [] [] []) in Hdo; try done.
destruct Hdo as (ws & pps & ids & Hlp & Hli & -> & Hok' & Hundo).
split; [done|]. unfold OperationWidgetsDelete.undo. munfold. simpl in *.
exact Hundo.
Qed.

End DeleteFacts.

(** ** Paths that share ancestry *)

Module AncestryFacts.
Import OperationWidgetsDelete PathFacts.

Lemma shares_ancestry_iff wp kept :
shares_ancestry wp kept = true <-> exists t, wp = kept +:+ "/" +:+ t.
Proof.
unfold shares_ancestry. rewrite bool_decide_eq_true.
replace (String.length kept + 1) with (String.length (kept +:+ "/"))
by (rewrite length_append; simpl; lia).
rewrite substring_prefix_iff.
split; intros [t ->]; exists t; by rewrite append_assoc.
Qed.

Lemma shares_ancestry_length wp kept :
shares_ancestry wp kept = true -> String.length kept < String.length wp.
Proof.
intros [t ->]%shares_ancestry_iff. rewrite !length_append. simpl. lia.
Qed.

Lemma shares_ancestry_trans p q r :
shares_ancestry p q = true -> shares_ancestry q r = true ->
shares_ancestry p r = true.
Proof.
intros [t ->]%shares_ancestry_iff [u ->]%shares_ancestry_iff.
apply shares_ancestry_iff. exists (u +:+ "/" +:+ t).
by rewrite !append_assoc.
Qed.

Lemma insert_by_len_perm p l : insert_by_len p l ≡ₚ p :: l.
Proof.
induction l as [|q l IH]; simpl; [done|].
destruct (_ <=? _)%nat; [done|]. rewrite IH. apply Permutation_swap.
Qed.

Lemma sort_by_len_perm l : sort_by_len l ≡ₚ l.
Proof.
induction l as [|p l IH]; simpl; [done|].
by rewrite insert_by_len_perm, IH.
Qed.

Lemma insert_by_len_sorted p l :
StronglySorted by_len l -> StronglySorted by_len (insert_by_len p l).
Proof.
induction 1 as [|q l Hs IH Hq]; simpl.
- repeat constructor.
- destruct (String.length p <=? String.length q)%nat eqn:Hle.
+ apply Nat.leb_le in Hle. constructor; [by constructor|].
constructor; [done|]. eapply Forall_impl; [exact Hq|].
unfold by_len. intros. lia.
+ apply Nat.leb_gt in Hle. constructor; [done|].
rewrite insert_by_len_perm. constructor; [|done]. unfold by_len. lia.
Qed.

Lemma sort_by_len_sorted l : StronglySorted by_len (sort_by_len l).
Proof.
induction l as [|p l IH]; simpl; [constructor|].
by apply insert_by_len_sorted.
Qed.

Lemma sorted_before pre x post q :
StronglySorted by_len (pre ++ x :: post) ->
q ∈ pre ++ x :: post -> String.length q < String.length x -> q ∈ pre.
Proof.
induction pre as [|a pre IH]; simpl; intros Hs Hq Hlen.
- apply StronglySorted_inv in Hs as [_ Hx].
apply elem_of_cons in Hq as [->|Hq]; [lia|].
rewrite Forall_forall in Hx. specialize (Hx _ Hq). unfold by_len in Hx. lia.
- apply StronglySorted_inv in Hs as [Hs _].
apply elem_of_cons in Hq as [->|Hq]; [by left|]. right. by apply IH.
Qed.

Lemma without_ancestor_true s p :
without_ancestor s p = true <-> forall q, q ∈ s -> shares_ancestry p q = false.
Proof.
unfold without_ancestor. rewrite forallb_forall. split.
- intros H q Hq. apply negb_true_iff, H. by apply list_elem_of_In.
- intros H q Hq. apply negb_true_iff, H. by apply list_elem_of_In.
Qed.

Lemma without_ancestor_false s p :
without_ancestor s p = false <-> exists q, q ∈ s /\ shares_ancestry p q = true.
Proof.
split.
- intros H. unfold without_ancestor in H.
induction s as [|a s IH]; simpl in H; [done|].
apply andb_false_iff in H as [H|H].
+ exists a. split; [by left|]. by apply negb_false_iff.
+ destruct (IH H) as (q & Hq & Hs). exists q. split; [by right|done].
- intros (q & Hq & Hs). destruct (without_ancestor s p) eqn:Hw; [|done].
rewrite without_ancestor_true in Hw. by rewrite (Hw q Hq) in Hs.
Qed.

Lemma without_ancestor_perm s s' p :
s ≡ₚ s' -> without_ancestor s p = without_ancestor s' p.
Proof.
intros Hp. destruct (without_ancestor s' p) eqn:Hw.
- rewrite without_ancestor_true in *. intros q Hq. apply Hw. by rewrite <- Hp.
- rewrite without_ancestor_false in *.
destruct Hw as (q & Hq & Hs). exists q. by rewrite Hp.
Qed.

(** Among the ancestors of [wp] in [s] there is one that has no ancestor
in [s] itself. *)
Lemma top_ancestor s wp n :
forall q, String.length q <= n -> q ∈ s -> shares_ancestry wp q = true ->
exists q', q' ∈ s /\ shares_ancestry wp q' = true /\ without_ancestor s q' = true.
Proof.
induction n as [|n IH]; intros q Hlen Hq Hs.
- exists q. split_and!; try done. apply without_ancestor_true.
intros r _. destruct (shares_ancestry q r) eqn:Hr; [|done].
apply shares_ancestry_length in Hr. lia.
- destruct (without_ancestor s q) eqn:Hw; [by exists q|].
apply without_ancestor_false in Hw as (r & Hr & Hqr).
apply (IH r); [|done|by eapply shares_ancestry_trans].
apply shares_ancestry_length in Hqr. lia.
Qed.

Lemma existsb_kept s pre wp rest :
s = pre ++ wp :: rest -> StronglySorted by_len s ->
existsb (shares_ancestry wp) (List.filter (without_ancestor s) pre)
= negb (without_ancestor s wp).
Proof.
intros Hs Hsorted. destruct (without_ancestor s wp) eqn:Hw; simpl.
- destruct (existsb _ _) eqn:He; [|done].
apply existsb_exists in He as (q & Hq & Hsh).
apply filter_In in Hq as [Hq _].
rewrite without_ancestor_true in Hw. rewrite Hw in Hsh; [done|].
rewrite Hs. apply elem_of_app. left. by apply list_elem_of_In.
- apply without_ancestor_false in Hw as (q & Hq & Hsh).
destruct (top_ancestor s wp (String.length q) q) as (q' & Hq' & Hsh' & Hw');
try done.
apply existsb_exists. exists q'. split; [|done].
apply filter_In. split; [|done]. apply list_elem_of_In.
eapply sorted_before; [by rewrite <- Hs|by rewrite <- Hs|].
by apply shares_ancestry_length.
Qed.

Lemma drop_descendants_spec s :
StronglySorted by_len s ->
forall rest pre,
s = pre ++ rest ->
drop_descendants (List.filter (without_ancestor s) pre) rest
= List.filter (without_ancestor s) s.
Proof.
intros Hsorted. induction rest as [|wp rest IH]; intros pre Hs; simpl.
- rewrite app_nil_r in Hs. by rewrite <- Hs.
- rewrite (existsb_kept s pre wp rest Hs Hsorted).
destruct (without_ancestor s wp) eqn:Hw; simpl.
+ rewrite <- (IH (pre ++ [wp])) by by rewrite <- app_assoc.
rewrite List.filter_app. simpl. by rewrite Hw.
+ rewrite <- (IH (pre ++ [wp])) by by rewrite <- app_assoc.
rewrite List.filter_app. simpl. by rewrite Hw, app_nil_r.
Qed.

(** What the first loop of [OperationWidgetsDelete.do] leaves: the
requested paths, sorted by length, without those that have an
ancestor among the requested paths. *)
Lemma distinct_ancestry_spec paths :
distinct_ancestry paths
= List.filter (without_ancestor paths) (sort_by_len paths).
Proof.
unfold distinct_ancestry.
pose proof (drop_descendants_spec (sort_by_len paths)
          (sort_by_len_sorted paths) (sort_by_len paths) [] eq_refl) as H.
simpl in H. rewrite H.
apply List.filter_ext. intros p.
apply without_ancestor_perm, sort_by_len_perm.
Qed.

Lemma shares_ancestry_child a b : shares_ancestry (a +:+ "/" +:+ b) a = true.
Proof. apply shares_ancestry_iff. by exists b. Qed.

Lemma shares_ancestry_irrefl a : shares_ancestry a a = false.
Proof.
destruct (shares_ancestry a a) eqn:H; [|done].
apply shares_ancestry_length in H. lia.
Qed.

Lemma shares_ancestry_asym a b : shares_ancestry a (a +:+ "/" +:+ b) = false.
Proof.
destruct (shares_ancestry _ _) eqn:H; [|done].
apply shares_ancestry_length in H. rewrite !length_append in H. lia.
Qed.

(** Requesting a widget and one of its descendants is requesting the
widget, in whichever order the two paths come. *)
Lemma distinct_ancestry_pair a b :
distinct_ancestry [a; a +:+ "/" +:+ b] = [a] /\
distinct_ancestry [a +:+ "/" +:+ b; a] = [a] /\
distinct_ancestry [a] = [a].
Proof.
assert (Hlen : (String.length (a +:+ "/" +:+ b) <=? String.length a)%nat = false).
{ apply Nat.leb_gt. rewrite !length_append. simpl. lia. }
assert (Hlen' : (String.length a <=? String.length (a +:+ "/" +:+ b))%nat = true).
{ apply Nat.leb_le. rewrite !length_append. simpl. lia. }
unfold distinct_ancestry. simpl. rewrite Hlen, Hlen'. simpl.
rewrite shares_ancestry_child. simpl. done.
Qed.

End AncestryFacts.

Module RequestFacts.
Import OperationWidgetsDelete.

(** The loop of [do] carries the list of requested paths along without
reading it. *)
Lemma do_body_with_widgetpaths ps path self doc :
do_body path (with_widgetpaths ps self, doc)
= let r := do_body path (self, doc) in
(r.1, (with_widgetpaths ps r.2.1, r.2.2)).
Proof.
destruct self as [wps ows opp ois].
unfold do_body, with_widgetpaths. munfold. simpl.
destruct (resolve_parts _ _) as [pos|]; simpl; [|done].
destruct (get_at pos _) as [w|]; simpl; [|done].
destruct ows as [ows|]; simpl; [|done].
destruct (parent_of pos) as [[pp i]|]; simpl; [|done].
destruct (names_at pp _) as [ns|]; simpl; [|done].
destruct opp as [opp|]; simpl; [|done].
destruct ois as [ois|]; simpl; [|done].
destruct (get_at pp _) as [p|]; simpl; [|done].
by destruct (find_child _ _).
Qed.

Lemma loop_with_widgetpaths ps paths self doc :
for_each paths do_body (with_widgetpaths ps self, doc)
= let r := for_each paths do_body (self, doc) in
(r.1, (with_widgetpaths ps r.2.1, r.2.2)).
Proof.
revert self doc. induction paths as [|path paths IH]; intros self doc; [done|].
rewrite !for_each_cons, do_body_with_widgetpaths. simpl.
destruct (do_body path (self, doc)) as [[[]|e] [self1 doc1]]; simpl; [|done].
apply IH.
Qed.

(** Two requests that leave the same paths after the ancestry check do
the same to the document and record the same for [undo]. *)
Lemma do_same_request ps1 ps2 doc :
distinct_ancestry ps1 = distinct_ancestry ps2 ->
OperationWidgetsDelete.do (init ps1, doc)
= let r := OperationWidgetsDelete.do (init ps2, doc) in
(r.1, (with_widgetpaths ps1 r.2.1, r.2.2)).
Proof.
intros H. unfold OperationWidgetsDelete.do. munfold. simpl. rewrite H.
apply (loop_with_widgetpaths ps1 _ (mk ps2 (Some []) (Some []) (Some []))).
Qed.

End RequestFacts.

(** C6. [OperationWidgetsDelete.do] first reduces the requested paths to
    those, sorted by length, that are not strict descendants (prefix
    match on [path + '/']) of another requested path.  On a tree whose
    widget names are valid path parts, a [do] that returns normally has
    taken exactly the widgets at these paths out of the tree, one after
    the other in this order, and has recorded them, the paths of their
    parents and their indices, in this order, in [oldwidgets],
    [oldparentpaths] and [oldindexes]; nothing else in the document is
    changed.  Hence deleting [{A, A/B}], in either order, does to the
    document what deleting [{A}] does and records the same widgets,
    parent paths and indices.  After such a [do], [undo], which reinserts
    the retained widgets from the last deleted to the first at the
    recorded parent paths and indices, succeeds and gives back the
    document exactly (so [B] is back under [A] at its index). *)
Theorem widgets_delete_ancestry_and_undo :
  (forall paths,
      OperationWidgetsDelete.distinct_ancestry paths
      = List.filter (without_ancestor paths)
          (OperationWidgetsDelete.sort_by_len paths)) /\
  (forall self doc self' doc',
      names_ok (Document.basewidget doc) = true ->
      OperationWidgetsDelete.do (self, doc) = (Ok tt, (self', doc')) ->
      exists ws pps ids root',
        detach_all
          (List.filter (without_ancestor (OperationWidgetsDelete.widgetpaths self))
             (OperationWidgetsDelete.sort_by_len
                (OperationWidgetsDelete.widgetpaths self)))
          (Document.basewidget doc)
        = Some (ws, pps, ids, root') /\
        self' = OperationWidgetsDelete.mk
                  (OperationWidgetsDelete.widgetpaths self)
                  (Some ws) (Some pps) (Some ids) /\
        doc' = Document.with_basewidget root' doc) /\
  (forall a b doc,
      OperationWidgetsDelete.do
        (OperationWidgetsDelete.init [a; a +:+ "/" +:+ b], doc)
      = (let r := OperationWidgetsDelete.do (OperationWidgetsDelete.init [a], doc) in
         (r.1, (with_widgetpaths [a; a +:+ "/" +:+ b] r.2.1, r.2.2))) /\
      OperationWidgetsDelete.do
        (OperationWidgetsDelete.init [a +:+ "/" +:+ b; a], doc)
      = (let r := OperationWidgetsDelete.do (OperationWidgetsDelete.init [a], doc) in
         (r.1, (with_widgetpaths [a +:+ "/" +:+ b; a] r.2.1, r.2.2)))) /\
  (forall self doc self' doc',
      names_ok (Document.basewidget doc) = true ->
      OperationWidgetsDelete.do (self, doc) = (Ok tt, (self', doc')) ->
      OperationWidgetsDelete.undo (self', doc') = (Ok tt, (self', doc))).
Proof.
  split_and!.
  - apply AncestryFacts.distinct_ancestry_spec.
  - intros self doc self' doc' Hok Hdo.
    rewrite <- AncestryFacts.distinct_ancestry_spec.
    by apply DeleteFacts.widgets_delete_detaches.
  - intros a b doc.
    destruct (AncestryFacts.distinct_ancestry_pair a b) as (H1 & H2 & H3).
    split; apply RequestFacts.do_same_request; congruence.
  - intros self doc self' doc' Hok Hdo.
    by destruct (DeleteFacts.widgets_delete_round_trip _ _ _ _ Hok Hdo).
Qed.

Lemma widgets_delete_ancestry_and_undo_witness :
  names_ok Sample.root = true /\
  OperationWidgetsDelete.distinct_ancestry
    (OperationWidgetsDelete.widgetpaths Sample.delete_op) = ["/page1/graph1"] /\
  (exists ws pps ids root',
      detach_all ["/page1/graph1"] Sample.root = Some (ws, pps, ids, root') /\
      (OperationWidgetsDelete.do (Sample.delete_op, Sample.doc_linked)).2.1
      = OperationWidgetsDelete.mk
          (OperationWidgetsDelete.widgetpaths Sample.delete_op)
          (Some ws) (Some pps) (Some ids) /\
      (OperationWidgetsDelete.do (Sample.delete_op, Sample.doc_linked)).2.2
      = Document.with_basewidget root' Sample.doc_linked) /\
  OperationWidgetsDelete.undo
    (OperationWidgetsDelete.do (Sample.delete_op, Sample.doc_linked)).2
  = (Ok tt,
     ((OperationWidgetsDelete.do (Sample.delete_op, Sample.doc_linked)).2.1,
      Sample.doc_linked)).
Proof.
  split; [reflexivity|]. split; [vm_compute; reflexivity|].
  destruct widgets_delete_ancestry_and_undo as (_ & Hdo & _ & Hundo).
  split.
  - destruct (Hdo Sample.delete_op Sample.doc_linked
                (OperationWidgetsDelete.do (Sample.delete_op, Sample.doc_linked)).2.1
                (OperationWidgetsDelete.do (Sample.delete_op, Sample.doc_linked)).2.2)
      as (ws & pps & ids & root' & Hd & Hs & Hdoc);
      [reflexivity|vm_compute; reflexivity|].
    exists ws, pps, ids, root'. split; [exact Hd|]. split; [exact Hs|exact Hdoc].
  - apply (Hundo Sample.delete_op); [reflexivity|vm_compute; reflexivity].
Defined.

(** ** Propagating a setting *)

Module PropagateFacts.
Import TreeFacts OperationSettingPropagate.







(** One turn of the loop of [do]: the setting of the widget is
overwritten, the record of old values grows, nothing else changes. *)
Lemma propagate_body deref pos self doc self' doc' :
do_body deref pos (self, doc) = (Ok tt, (self', doc')) ->
(exists rv, self' = set_restorevals rv self) /\
doc' = Document.with_basewidget
     (touch (propagated self) (Document.basewidget doc) pos) doc.
Proof.
destruct doc as [root dat ls cs hb].
unfold do_body. munfold. unfold Document.with_basewidget. simpl.
destruct (get_at pos root) as [w|] eqn:Hw; simpl; [|done].
destruct (setting_get _ _) as [[sv|d]|e]; simpl; [|done..].
destruct (names_at pos root) as [ns|]; simpl; [|done].
destruct (restorevals self) as [rv|]; simpl; [|done].
rewrite Hw. simpl. intros [= <- <-]. split; [by eexists|].
f_equal. unfold touch. by eapply modify_at_ext.
Qed.




End PropagateFacts.



(** ** Conditions under which an operation has nothing to do *)

Module NoOpFacts.

(** [OperationWidgetMoveUpDown]: a move that [moveChild] refuses is
recorded as such, the document is as before, and [undo] then does
nothing, whatever document it is given. *)
Lemma move_refused self doc self' doc' :
OperationWidgetMoveUpDown.do (self, doc) = (Ok tt, (self', doc')) ->
OperationWidgetMoveUpDown.suceeded self' = Some false ->
doc' = doc /\
forall d, OperationWidgetMoveUpDown.undo (self', d) = (Ok tt, (self', d)).
Proof.
destruct doc as [root dat ls cs hb].
unfold OperationWidgetMoveUpDown.do. munfold.
unfold Document.with_basewidget. simpl.
destruct (resolve_parts _ _) as [pos|]; simpl; [|done].
destruct (get_at pos root) as [w|]; simpl; [|done].
destruct (parent_of pos) as [[pp i]|]; simpl; [|done].
destruct (get_at pp root) as [p|]; simpl; [|done].
destruct (Widget.children p !! i) as [c|]; simpl; [|done].
destruct (decide _) as [Hout|Hin]; simpl.
- destruct (names_at pp root) as [ns|]; simpl; [|done].
intros [= <- <-] _. split; [done|]. intros d.
unfold OperationWidgetMoveUpDown.undo. by munfold.
- destruct (names_at pp _) as [ns|]; simpl; [|done].
by intros [= <- <-] [=].
Qed.

(** At the upper boundary (first child, direction [-1]) the move is
refused. *)
Lemma move_up_first_refused self doc pp w p :
resolve_parts (path_parts (OperationWidgetMoveUpDown.widgetpath self))
(Document.basewidget doc) = Some (pp ++ [0]) ->
get_at pp (Document.basewidget doc) = Some p ->
Widget.children p !! 0 = Some w ->
OperationWidgetMoveUpDown.direction self = (-1)%Z ->
exists newpath,
OperationWidgetMoveUpDown.do (self, doc)
= (Ok tt,
   (OperationWidgetMoveUpDown.mk (OperationWidgetMoveUpDown.widgetpath self)
      (-1) (Some false) (Some newpath), doc)).
Proof.
destruct doc as [root dat ls cs hb]. simpl.
intros Hres Hp Hw Hdir.
unfold OperationWidgetMoveUpDown.do. munfold.
unfold Document.with_basewidget. simpl.
rewrite Hres. simpl.
rewrite (TreeFacts.get_at_snoc _ _ _ _ Hp), Hw. simpl.
rewrite (proj2 (TreeFacts.parent_of_Some _ _ _) eq_refl). simpl.
rewrite Hp. simpl. rewrite Hw. simpl. rewrite Hdir.
rewrite decide_True by (left; lia). simpl.
destruct (TreeFacts.names_at_is_Some _ _ _ Hp) as [ns Hns].
rewrite Hns. simpl. by eexists.
Qed.

(** [OperationDataUntag]: [set.remove] raises [KeyError] at the first
named dataset that does not carry the tag. *)
Lemma untag_absent_raises self doc name rest ds :
OperationDataUntag.datasetnames self = name :: rest ->
Document.data doc !! name = Some ds ->
OperationDataUntag.tag self ∉ Dataset.tags ds ->
OperationDataUntag.do (self, doc) = (Raise KeyError, (self, doc)).
Proof.
intros Hn Hds Ht. unfold OperationDataUntag.do. munfold. rewrite Hn.
rewrite for_each_cons. unfold OperationDataUntag.do_body. munfold.
rewrite Hds. by rewrite decide_False.
Qed.

End NoOpFacts.

(** C4. Of the two conditions the claim names, the move at a list
    boundary is detected and recorded ([suceeded] is [False], the tree is
    unchanged and [undo] does nothing), but untagging a dataset that does
    not carry the tag raises [KeyError]: here [OperationDataUntag("T",
    ["a"])] on a document whose dataset [a] has no tags, and
    [OperationWidgetMoveUpDown("/page1", -1)] on a tree whose first page
    is [page1]. *)
Theorem untag_absent_tag_raises :
  OperationDataUntag.do (OperationDataUntag.init "T" ["a"], Sample.doc_tags)
  = (Raise KeyError, (OperationDataUntag.init "T" ["a"], Sample.doc_tags)) /\
  OperationWidgetMoveUpDown.do
    (OperationWidgetMoveUpDown.init "/page1" (-1), Sample.doc_linked)
  = (Ok tt,
     (OperationWidgetMoveUpDown.mk "/page1" (-1) (Some false) (Some "/page1"),
      Sample.doc_linked)) /\
  forall d,
    OperationWidgetMoveUpDown.undo
      (OperationWidgetMoveUpDown.mk "/page1" (-1) (Some false) (Some "/page1"), d)
    = (Ok tt,
       (OperationWidgetMoveUpDown.mk "/page1" (-1) (Some false) (Some "/page1"), d)).
Proof.
  split_and!.
  - apply (NoOpFacts.untag_absent_raises _ _ "a" [] (Sample.plain ∅));
      [reflexivity|reflexivity|]. simpl. set_solver.
  - vm_compute. reflexivity.
  - intros d.
    by apply (NoOpFacts.move_refused
                (OperationWidgetMoveUpDown.init "/page1" (-1)) Sample.doc_linked
                _ Sample.doc_linked).
Qed.

(** ** [do] then [undo], operation by operation *)

Module RoundTrip.

Lemma Dataset_with_linked_id ds :
Dataset.with_linked (Dataset.linked ds) ds = ds.
Proof. by destruct ds. Qed.







(** The base class on its own: after [do], [undo] gives the document
back when a dataset of the name was there. *)
Lemma dataset_create_base self doc self' doc' ds :
Document.data doc !! OperationDatasetCreate.datasetname self = Some ds ->
OperationDatasetCreate.do (self, doc) = (Ok tt, (self', doc')) ->
doc' = doc /\
OperationDatasetCreate.undo (self', doc') = (Ok tt, (self', doc)).
Proof.
destruct doc as [root dat ls cs hb]. simpl. intros Hds.
unfold OperationDatasetCreate.do, OperationDatasetCreate.undo. munfold.
unfold Document.with_data. simpl. rewrite Hds.
intros [= <- <-]. split; [done|]. simpl. rewrite Hds. simpl.
by rewrite insert_delete_eq, insert_id.
Qed.

(** The base class on its own: with no dataset of the name, [do] returns
normally and [undo] raises [KeyError], from [deleteData]. *)
Lemma dataset_create_base_absent self doc :
Document.data doc !! OperationDatasetCreate.datasetname self = None ->
exists self',
OperationDatasetCreate.do (self, doc) = (Ok tt, (self', doc)) /\
OperationDatasetCreate.undo (self', doc) = (Raise KeyError, (self', doc)).
Proof.
destruct doc as [root dat ls cs hb]. simpl. intros Hds.
unfold OperationDatasetCreate.do, OperationDatasetCreate.undo. munfold.
simpl. rewrite Hds. eexists. split; [done|]. simpl. by rewrite Hds.
Qed.















(** The loop of [OperationDataUntag.do], when it succeeds. *)
Lemma untag_do_loop names :
forall self doc self' doc',
for_each names OperationDataUntag.do_body (self, doc) = (Ok tt, (self', doc')) ->
exists data',
  self' = self /\ doc' = Document.with_data data' doc /\
  NoDup names /\
  (forall n, n ∈ names ->
             exists ds, Document.data doc !! n = Some ds /\
                        OperationDataUntag.tag self ∈ Dataset.tags ds) /\
  (forall n, data' !! n
             = untagged_at (OperationDataUntag.tag self) names n
                 <$> Document.data doc !! n).
Proof.
induction names as [|name names IH]; intros self doc self' doc' Hrun.
- simpl in Hrun. unfold ret in Hrun. injection Hrun as <- <-.
exists (Document.data doc). split_and!; try done.
+ by rewrite Document_with_data_id.
+ constructor.
+ by intros n ?%elem_of_nil.
+ intros n. destruct (_ !! n); [simpl|done]. unfold untagged_at.
  by rewrite decide_False by apply not_elem_of_nil.
- rewrite for_each_cons in Hrun.
unfold OperationDataUntag.do_body at 1 in Hrun. munfold.
destruct (Document.data doc !! name) as [ds|] eqn:Hds; simpl in Hrun; [|done].
destruct (decide (OperationDataUntag.tag self ∈ Dataset.tags ds)) as [Ht|Ht];
  simpl in Hrun; [|done].
apply IH in Hrun as (data' & -> & -> & Hnd & Hall & Hdata). simpl in *.
assert (Hfresh : name ∉ names).
{ intros Hin. destruct (Hall _ Hin) as (ds' & Hds' & Ht').
  rewrite lookup_insert_eq in Hds'. injection Hds' as <-. simpl in Ht'.
  set_solver. }
exists data'. split_and!; try done.
+ by constructor.
+ intros n [->|Hn]%elem_of_cons; [by eauto|].
  destruct (Hall n Hn) as (ds' & Hds' & Ht').
  rewrite lookup_insert_ne in Hds' by (intros ->; done). by eauto.
+ intros n. rewrite Hdata. unfold untagged_at.
  destruct (decide (name = n)) as [->|Hne].
  * rewrite lookup_insert_eq, Hds. simpl.
    rewrite decide_False by done. by rewrite decide_True by by left.
  * rewrite lookup_insert_ne by done.
    destruct (Document.data doc !! n); [simpl|done].
    destruct (decide (n ∈ names)).
    -- by rewrite decide_True by by right.
    -- rewrite decide_False; [done|]. by intros [->|?]%elem_of_cons.
Qed.











End RoundTrip.

Module WidgetRoundTrip.
Import TreeFacts DeleteFacts.











End WidgetRoundTrip.

(** ** Propagating a setting, and taking it back *)

Module PropagateRoundTrip.
Import TreeFacts PropagateFacts WidgetRoundTrip OperationSettingPropagate.

Lemma resettled_id t : resettled (fun _ s => s) t t.
Proof. intros q x Hq. exists x. by split_and!. Qed.


















Lemma set_restorevals_twice rv rv' self :
set_restorevals rv' (set_restorevals rv self) = set_restorevals rv' self.
Proof. done. Qed.



(** [do] up to its loop. *)
Lemma propagate_do_split deref self doc self' doc' :
OperationSettingPropagate.do deref (self, doc) = (Ok tt, (self', doc')) ->
exists rootpos rootw,
propagate_root self (Document.basewidget doc) = Some rootpos /\
get_at rootpos (Document.basewidget doc) = Some rootw /\
for_each
  (recursiveGet rootw rootpos (widgetname self) (Some (widgettype self))
     (maxlevels self))
  (do_body deref) (set_restorevals ∅ self, doc)
= (Ok tt, (self', doc')).
Proof.
intros Hdo. unfold OperationSettingPropagate.do in Hdo.
unfold propagate_root. munfold.
destruct (rootpath self) as [p|].
- destruct (decide (p = "")) as [Hp|Hp].
+ simpl in Hdo. by exists [], (Document.basewidget doc).
+ simpl in Hdo.
destruct (resolve_parts _ _) as [rootpos|] eqn:Hr; [|done]. simpl in Hdo.
destruct (get_at rootpos _) as [rootw|] eqn:Hw; [|done].
by exists rootpos, rootw.
- simpl in Hdo. by exists [], (Document.basewidget doc).
Qed.

Lemma propagate_do_unsplit deref self doc rootpos rootw :
propagate_root self (Document.basewidget doc) = Some rootpos ->
get_at rootpos (Document.basewidget doc) = Some rootw ->
OperationSettingPropagate.do deref (self, doc)
= for_each
  (recursiveGet rootw rootpos (widgetname self) (Some (widgettype self))
     (maxlevels self))
  (do_body deref) (set_restorevals ∅ self, doc).
Proof.
unfold OperationSettingPropagate.do, propagate_root. munfold.
destruct (rootpath self) as [p|].
- destruct (decide (p = "")) as [Hp|Hp]; simpl.
+ by intros [= <-] [= <-].
+ intros -> Hw. simpl. by rewrite Hw.
- simpl. by intros [= <-] [= <-].
Qed.



(** After [do], the operation object is the one [do] was given, with
[restorevals] filled. *)
Lemma propagate_loop_self deref l :
forall self doc self' doc' rv0,
restorevals self = Some rv0 ->
for_each l (do_body deref) (self, doc) = (Ok tt, (self', doc')) ->
exists rv, self' = set_restorevals rv self.
Proof.
induction l as [|pos l IH]; intros self doc self' doc' rv0 Hrv Hrun.
- simpl in Hrun. unfold ret in Hrun. injection Hrun as <- <-.
exists rv0. destruct self; simpl in *; by subst.
- rewrite for_each_cons in Hrun.
destruct (do_body deref pos (self, doc)) as [[[]|e] [self1 doc1]] eqn:Hb;
[|done].
apply propagate_body in Hb as [[rv ->] ->].
eapply IH in Hrun as [rv' ->]; [|done]. by exists rv'.
Qed.

Lemma propagate_do_self deref self doc self' doc' :
OperationSettingPropagate.do deref (self, doc) = (Ok tt, (self', doc')) ->
exists rv, self' = set_restorevals rv self.
Proof.
intros (rootpos & rootw & _ & _ & Hrun)%propagate_do_split.
eapply propagate_loop_self in Hrun as [rv ->]; [|done]. by exists rv.
Qed.

End PropagateRoundTrip.

(** ** Every operation, and batches of them *)

Module BatchFacts.

(** Induction over operations, the children of a batch included. *)
Lemma Operation_ind' (P : Operation -> Prop) :
(forall op, (forall ops d, op <> OpMultiple ops d) -> P op) ->
(forall ops d, Forall P ops -> P (OpMultiple ops d)) ->
forall op, P op.
Proof.
intros Hleaf Hmulti. fix IH 1. intros op.
destruct op as [o|deref o|o|o|o|o|o|o|o|o|o|o|o|o|o|o|o|o|o|o|o|ops d].
1-21: apply Hleaf; intros ops d H; discriminate H.
apply Hmulti. induction ops as [|c ops IHops]; constructor.
- apply IH.
- apply IHops.
Qed.


Lemma op_do_multiple ops d doc :
op_do (OpMultiple ops d) doc
= ((OperationMultiple.do op_do ops doc).1,
 (OpMultiple (OperationMultiple.do op_do ops doc).2.1 d,
  (OperationMultiple.do op_do ops doc).2.2)).
Proof. reflexivity. Qed.

Lemma op_undo_multiple ops d doc :
op_undo (OpMultiple ops d) doc
= ((OperationMultiple.undo op_undo ops doc).1,
 (OpMultiple (OperationMultiple.undo op_undo ops doc).2.1 d,
  (OperationMultiple.undo op_undo ops doc).2.2)).
Proof. reflexivity. Qed.


End BatchFacts.



(** [OperationSettingPropagate] on a setting that is bound by reference:
    [do] keeps the value that the reference resolves to, and [undo] sets
    this value, so the setting holds a plain value afterwards and no
    longer the reference. *)
Lemma propagate_undo_drops_reference :
  exists op' doc' doc'',
    op_do Sample.propagate_all Sample.doc_reference = (Ok tt, (op', doc')) /\
    op_undo op' doc' = (Ok tt, (op', doc'')) /\
    (Widget.settings <$> get_at [0; 0]%nat (Document.basewidget Sample.doc_reference))
    = Some (SGroup [("Line", SGroup [("color",
              SLeaf (Reference "/StyleSheet/axis/Line/color"))])]) /\
    (Widget.settings <$> get_at [0; 0]%nat (Document.basewidget doc''))
    = Some (SGroup [("Line", SGroup [("color",
              SLeaf (Literal (VStr "black")))])]) /\
    doc'' ≠ Sample.doc_reference.
Proof.
  eexists _, _, _.
  split; [vm_compute; reflexivity|].
  split; [vm_compute; reflexivity|].
  split; [vm_compute; reflexivity|].
  split; [vm_compute; reflexivity|].
  intros H.
  apply (f_equal (fun d => Widget.settings <$> get_at [0; 0]%nat
                             (Document.basewidget d))) in H.
  vm_compute in H. discriminate.
Qed.


(** ** What the by-file operations do to the datasets *)

Module ByFileFacts.

Lemma elem_of_fst_cons {A} (kd : string * A) (n : string) (l : list (string * A)) :
n ∈ (kd :: l).*1 <-> n = kd.1 \/ n ∈ l.*1.
Proof. simpl. apply elem_of_cons. Qed.

Lemma unlink_do_pointwise (l : list (string * Dataset.t)) :
NoDup l.*1 ->
forall self doc self' doc' ol,
  OperationDatasetUnlinkByFile.oldlinks self = Some ol ->
  (forall n ds, (n, ds) ∈ l -> Document.data doc !! n = Some ds /\ ol !! n = None) ->
  for_each l OperationDatasetUnlinkByFile.do_body (self, doc)
  = (Ok tt, (self', doc')) ->
  exists ol' data',
    OperationDatasetUnlinkByFile.oldlinks self' = Some ol' /\
    OperationDatasetUnlinkByFile.filename self'
    = OperationDatasetUnlinkByFile.filename self /\
    doc' = Document.with_data data' doc /\
    forall n,
      (n ∈ l.*1 ->
       data' !! n
       = (fun ds =>
            if linked_to (Document.linkstore doc)
                 (OperationDatasetUnlinkByFile.filename self) ds
            then Dataset.with_linked None ds else ds)
           <$> Document.data doc !! n /\
       ol' !! n
       = Document.data doc !! n ≫=
           (fun ds =>
              if linked_to (Document.linkstore doc)
                   (OperationDatasetUnlinkByFile.filename self) ds
              then Dataset.linked ds else None)) /\
      (n ∉ l.*1 -> data' !! n = Document.data doc !! n /\ ol' !! n = ol !! n).
Proof.
induction l as [|[k ds] l IH]; intros Hnd self doc self' doc' ol Hol Hl Hrun.
- simpl in Hrun. unfold ret in Hrun. injection Hrun as <- <-.
  exists ol, (Document.data doc). split_and!; try done.
  + by rewrite Document_with_data_id.
  + intros n. split; [by intros ?%elem_of_nil|done].
- simpl in Hnd. apply NoDup_cons in Hnd as [Hk Hnd].
  destruct (Hl k ds ltac:(by left)) as [Hds Hnone].
  assert (Hrest : forall n ds', (n, ds') ∈ l -> n <> k).
  { intros n ds' Hin ->. apply Hk. apply list_elem_of_fmap. by exists (k, ds'). }
  assert (Hkeep : forall self1 : OperationDatasetUnlinkByFile.t,
             OperationDatasetUnlinkByFile.oldlinks self1 = Some ol ->
             OperationDatasetUnlinkByFile.filename self1
             = OperationDatasetUnlinkByFile.filename self ->
             linked_to (Document.linkstore doc)
               (OperationDatasetUnlinkByFile.filename self) ds = false ->
             for_each l OperationDatasetUnlinkByFile.do_body (self1, doc)
             = (Ok tt, (self', doc')) ->
             exists ol' data',
               OperationDatasetUnlinkByFile.oldlinks self' = Some ol' /\
               OperationDatasetUnlinkByFile.filename self'
               = OperationDatasetUnlinkByFile.filename self /\
               doc' = Document.with_data data' doc /\
               forall n,
                 (n ∈ ((k, ds) :: l).*1 ->
                  data' !! n
                  = (fun ds =>
                       if linked_to (Document.linkstore doc)
                            (OperationDatasetUnlinkByFile.filename self) ds
                       then Dataset.with_linked None ds else ds)
                      <$> Document.data doc !! n /\
                  ol' !! n
                  = Document.data doc !! n ≫=
                      (fun ds =>
                         if linked_to (Document.linkstore doc)
                              (OperationDatasetUnlinkByFile.filename self) ds
                         then Dataset.linked ds else None)) /\
                 (n ∉ ((k, ds) :: l).*1 ->
                  data' !! n = Document.data doc !! n /\ ol' !! n = ol !! n)).
  { intros self1 Hol1 Hfn1 Hno Hrun1.
    eapply (IH Hnd _ _ _ _ ol Hol1) in Hrun1.
    2:{ intros n0 ds' Hin. apply Hl. by right. }
    destruct Hrun1 as (ol' & data' & Hol' & Hfn & -> & Hpt).
    exists ol', data'. rewrite Hfn1 in Hfn, Hpt. split_and!; try done.
    intros n. destruct (Hpt n) as [Hin Hout]. split.
    - intros [Hn|Hn]%elem_of_fst_cons; [simpl in Hn; subst n|by apply Hin].
      destruct (Hout Hk) as [-> ->]. rewrite Hds. simpl. by rewrite Hno.
    - intros Hn. apply Hout. intros ?. apply Hn, elem_of_fst_cons. by right. }
  rewrite for_each_cons in Hrun.
  unfold OperationDatasetUnlinkByFile.do_body at 1 in Hrun. munfold.
  simpl in Hrun.
  destruct (Dataset.linked ds) as [l0|] eqn:Hl0; simpl in Hrun.
  2:{ apply (Hkeep self); try done. unfold linked_to. by rewrite Hl0. }
  destruct (Document.linkstore doc !! l0) as [lf|] eqn:Hlf; simpl in Hrun; [|done].
  destruct (decide (LinkedFile.filename lf
                    = OperationDatasetUnlinkByFile.filename self)) as [Heq|Hne];
    simpl in Hrun.
  2:{ apply (Hkeep self); try done. unfold linked_to. rewrite Hl0, Hlf.
      by apply bool_decide_eq_false_2. }
  assert (Hyes : linked_to (Document.linkstore doc)
                   (OperationDatasetUnlinkByFile.filename self) ds = true).
  { unfold linked_to. rewrite Hl0, Hlf. by apply bool_decide_eq_true_2. }
  clear Hkeep. rewrite Hol in Hrun. simpl in Hrun.
  eapply (IH Hnd _ _ _ _ (<[k := l0]> ol)) in Hrun; [|done|].
  2:{ intros n ds' Hin. simpl. pose proof (Hrest n ds' Hin).
      rewrite !lookup_insert_ne by done. apply Hl. by right. }
  destruct Hrun as (ol' & data' & Hol' & Hfn & -> & Hpt).
  exists ol', data'. simpl in *.
  split_and!; [done|done|by rewrite Document_with_data_twice|].
  replace (Document.linkstore
             (Document.with_data
                (<[k:=Dataset.with_linked None ds]> (Document.data doc)) doc))
    with (Document.linkstore doc) in Hpt by by destruct doc.
  intros n. destruct (Hpt n) as [Hin Hout]. split.
  + intros [->|Hn]%elem_of_cons.
    * destruct (Hout Hk) as [-> ->]. rewrite !lookup_insert_eq, Hds. simpl.
      by rewrite Hyes.
    * destruct (Hin Hn) as [-> ->].
      assert (n <> k) by (by intros ->).
      by rewrite !lookup_insert_ne.
  + intros Hn.
    assert (n <> k) by (intros ->; apply Hn, elem_of_cons; by left).
    destruct Hout as [-> ->].
    * intros ?. apply Hn, elem_of_cons. by right.
    * by rewrite !lookup_insert_ne.
Qed.

Lemma delete_do_pointwise (l : list (string * Dataset.t)) :
NoDup l.*1 ->
forall self doc self' doc' od,
  OperationDatasetDeleteByFile.olddatasets self = Some od ->
  (forall n ds, (n, ds) ∈ l -> Document.data doc !! n = Some ds /\ od !! n = None) ->
  for_each l OperationDatasetDeleteByFile.do_body (self, doc)
  = (Ok tt, (self', doc')) ->
  exists od' data',
    OperationDatasetDeleteByFile.olddatasets self' = Some od' /\
    OperationDatasetDeleteByFile.filename self'
    = OperationDatasetDeleteByFile.filename self /\
    doc' = Document.with_data data' doc /\
    forall n,
      (n ∈ l.*1 ->
       data' !! n
       = Document.data doc !! n ≫=
           (fun ds =>
              if linked_to (Document.linkstore doc)
                   (OperationDatasetDeleteByFile.filename self) ds
              then None else Some ds) /\
       od' !! n
       = Document.data doc !! n ≫=
           (fun ds =>
              if linked_to (Document.linkstore doc)
                   (OperationDatasetDeleteByFile.filename self) ds
              then Some ds else None)) /\
      (n ∉ l.*1 -> data' !! n = Document.data doc !! n /\ od' !! n = od !! n).
Proof.
induction l as [|[k ds] l IH]; intros Hnd self doc self' doc' od Hod Hl Hrun.
- simpl in Hrun. unfold ret in Hrun. injection Hrun as <- <-.
  exists od, (Document.data doc). split_and!; try done.
  + by rewrite Document_with_data_id.
  + intros n. split; [by intros ?%elem_of_nil|done].
- simpl in Hnd. apply NoDup_cons in Hnd as [Hk Hnd].
  destruct (Hl k ds ltac:(by left)) as [Hds Hnone].
  assert (Hrest : forall n ds', (n, ds') ∈ l -> n <> k).
  { intros n ds' Hin ->. apply Hk. apply list_elem_of_fmap. by exists (k, ds'). }
  assert (Hkeep :
             linked_to (Document.linkstore doc)
               (OperationDatasetDeleteByFile.filename self) ds = false ->
             for_each l OperationDatasetDeleteByFile.do_body (self, doc)
             = (Ok tt, (self', doc')) ->
             exists od' data',
               OperationDatasetDeleteByFile.olddatasets self' = Some od' /\
               OperationDatasetDeleteByFile.filename self'
               = OperationDatasetDeleteByFile.filename self /\
               doc' = Document.with_data data' doc /\
               forall n,
                 (n ∈ ((k, ds) :: l).*1 ->
                  data' !! n
                  = Document.data doc !! n ≫=
                      (fun ds =>
                         if linked_to (Document.linkstore doc)
                              (OperationDatasetDeleteByFile.filename self) ds
                         then None else Some ds) /\
                  od' !! n
                  = Document.data doc !! n ≫=
                      (fun ds =>
                         if linked_to (Document.linkstore doc)
                              (OperationDatasetDeleteByFile.filename self) ds
                         then Some ds else None)) /\
                 (n ∉ ((k, ds) :: l).*1 ->
                  data' !! n = Document.data doc !! n /\ od' !! n = od !! n)).
  { intros Hno Hrun1.
    eapply (IH Hnd _ _ _ _ od Hod) in Hrun1.
    2:{ intros n0 ds' Hin. apply Hl. by right. }
    destruct Hrun1 as (od' & data' & Hod' & Hfn & -> & Hpt).
    exists od', data'. split_and!; try done.
    intros n. destruct (Hpt n) as [Hin Hout]. split.
    - intros [Hn|Hn]%elem_of_fst_cons; [simpl in Hn; subst n|by apply Hin].
      destruct (Hout Hk) as [-> ->]. rewrite Hds. simpl. by rewrite Hno.
    - intros Hn. apply Hout. intros ?. apply Hn, elem_of_fst_cons. by right. }
  rewrite for_each_cons in Hrun.
  unfold OperationDatasetDeleteByFile.do_body at 1 in Hrun. munfold.
  simpl in Hrun.
  destruct (Dataset.linked ds) as [l0|] eqn:Hl0; simpl in Hrun.
  2:{ apply Hkeep; try done. unfold linked_to. by rewrite Hl0. }
  destruct (Document.linkstore doc !! l0) as [lf|] eqn:Hlf; simpl in Hrun; [|done].
  destruct (decide (LinkedFile.filename lf
                    = OperationDatasetDeleteByFile.filename self)) as [Heq|Hne];
    simpl in Hrun.
  2:{ apply Hkeep; try done. unfold linked_to. rewrite Hl0, Hlf.
      by apply bool_decide_eq_false_2. }
  assert (Hyes : linked_to (Document.linkstore doc)
                   (OperationDatasetDeleteByFile.filename self) ds = true).
  { unfold linked_to. rewrite Hl0, Hlf. by apply bool_decide_eq_true_2. }
  clear Hkeep. rewrite Hod in Hrun. simpl in Hrun.
  rewrite Hds in Hrun. simpl in Hrun.
  eapply (IH Hnd _ _ _ _ (<[k := ds]> od)) in Hrun; [|done|].
  2:{ intros n ds' Hin. simpl. pose proof (Hrest n ds' Hin).
      rewrite lookup_insert_ne, lookup_delete_ne by done. apply Hl. by right. }
  destruct Hrun as (od' & data' & Hod' & Hfn & -> & Hpt).
  exists od', data'. simpl in *.
  split_and!; [done|done|by rewrite Document_with_data_twice|].
  replace (Document.linkstore
             (Document.with_data (delete k (Document.data doc)) doc))
    with (Document.linkstore doc) in Hpt by by destruct doc.
  intros n. destruct (Hpt n) as [Hin Hout]. split.
  + intros [->|Hn]%elem_of_cons.
    * destruct (Hout Hk) as [-> ->].
      rewrite lookup_insert_eq, lookup_delete_eq, Hds. simpl.
      by rewrite Hyes.
    * destruct (Hin Hn) as [-> ->].
      assert (n <> k) by (by intros ->).
      by rewrite !lookup_delete_ne.
  + intros Hn.
    assert (n <> k) by (intros ->; apply Hn, elem_of_cons; by left).
    destruct Hout as [-> ->].
    * intros ?. apply Hn, elem_of_cons. by right.
    * by rewrite lookup_insert_ne, lookup_delete_ne.
Qed.

End ByFileFacts.

(** X1. [OperationDatasetUnlinkByFile.do], when it returns normally,
    removes the link of exactly the datasets that were linked to the file
    and records those links: every other dataset is left as it was, no
    name is added or removed, and [oldlinks] has an entry for a name
    exactly when the dataset of that name was linked to the file, holding
    the link it had. *)
Theorem unlink_by_file_do_unlinks_exactly :
  forall (self self' : OperationDatasetUnlinkByFile.t) (doc doc' : Document.t),
    OperationDatasetUnlinkByFile.do (self, doc) = (Ok tt, (self', doc')) ->
    exists ol,
      OperationDatasetUnlinkByFile.oldlinks self' = Some ol /\
      OperationDatasetUnlinkByFile.filename self'
      = OperationDatasetUnlinkByFile.filename self /\
      doc' = Document.with_data (Document.data doc') doc /\
      forall n,
        Document.data doc' !! n
        = (fun ds =>
             if linked_to (Document.linkstore doc)
                  (OperationDatasetUnlinkByFile.filename self) ds
             then Dataset.with_linked None ds else ds)
            <$> Document.data doc !! n /\
        ol !! n
        = Document.data doc !! n ≫=
            (fun ds =>
               if linked_to (Document.linkstore doc)
                    (OperationDatasetUnlinkByFile.filename self) ds
               then Dataset.linked ds else None).
Proof.
  intros self self' doc doc' Hdo.
  unfold OperationDatasetUnlinkByFile.do in Hdo. munfold.
  eapply (ByFileFacts.unlink_do_pointwise _ (NoDup_fst_map_to_list _) _ _ _ _ ∅)
    in Hdo; [|done|].
  2:{ intros n ds Hin%elem_of_map_to_list. by rewrite lookup_empty. }
  destruct Hdo as (ol & data' & Hol & Hfn & -> & Hpt). simpl in *.
  exists ol. split_and!; [done|done|by destruct doc|].
  intros n. destruct (Hpt n) as [Hin Hout].
  destruct (Document.data doc !! n) as [ds|] eqn:Hn.
  - apply Hin. apply list_elem_of_fmap. exists (n, ds).
    split; [done|]. by apply elem_of_map_to_list.
  - destruct Hout as [-> ->]; [|by rewrite lookup_empty].
    intros ((n' & ds) & -> & Hin')%list_elem_of_fmap.
    apply elem_of_map_to_list in Hin'. simpl in *. congruence.
Qed.

Lemma unlink_by_file_do_unlinks_exactly_witness :
  exists ol,
    OperationDatasetUnlinkByFile.oldlinks Cases.unlink_result.1 = Some ol /\
    OperationDatasetUnlinkByFile.filename Cases.unlink_result.1
    = OperationDatasetUnlinkByFile.filename Cases.unlink_op /\
    Cases.unlink_result.2
    = Document.with_data (Document.data Cases.unlink_result.2) Sample.doc_linked /\
    forall n,
      Document.data Cases.unlink_result.2 !! n
      = (fun ds =>
           if linked_to (Document.linkstore Sample.doc_linked)
                (OperationDatasetUnlinkByFile.filename Cases.unlink_op) ds
           then Dataset.with_linked None ds else ds)
          <$> Document.data Sample.doc_linked !! n /\
      ol !! n
      = Document.data Sample.doc_linked !! n ≫=
          (fun ds =>
             if linked_to (Document.linkstore Sample.doc_linked)
                  (OperationDatasetUnlinkByFile.filename Cases.unlink_op) ds
             then Dataset.linked ds else None).
Proof.
  apply (unlink_by_file_do_unlinks_exactly Cases.unlink_op).
  vm_compute. reflexivity.
Defined.

(** X2. [OperationDatasetDeleteByFile.do], when it returns normally,
    deletes exactly the datasets that were linked to the file and keeps
    them in [olddatasets] under their names: a dataset of another file,
    or of no file, stays in the document as it was. *)
Theorem delete_by_file_do_deletes_exactly :
  forall (self self' : OperationDatasetDeleteByFile.t) (doc doc' : Document.t),
    OperationDatasetDeleteByFile.do (self, doc) = (Ok tt, (self', doc')) ->
    exists od,
      OperationDatasetDeleteByFile.olddatasets self' = Some od /\
      OperationDatasetDeleteByFile.filename self'
      = OperationDatasetDeleteByFile.filename self /\
      doc' = Document.with_data (Document.data doc') doc /\
      forall n,
        Document.data doc' !! n
        = Document.data doc !! n ≫=
            (fun ds =>
               if linked_to (Document.linkstore doc)
                    (OperationDatasetDeleteByFile.filename self) ds
               then None else Some ds) /\
        od !! n
        = Document.data doc !! n ≫=
            (fun ds =>
               if linked_to (Document.linkstore doc)
                    (OperationDatasetDeleteByFile.filename self) ds
               then Some ds else None).
Proof.
  intros self self' doc doc' Hdo.
  unfold OperationDatasetDeleteByFile.do in Hdo. munfold.
  eapply (ByFileFacts.delete_do_pointwise _ (NoDup_fst_map_to_list _) _ _ _ _ ∅)
    in Hdo; [|done|].
  2:{ intros n ds Hin%elem_of_map_to_list. by rewrite lookup_empty. }
  destruct Hdo as (od & data' & Hod & Hfn & -> & Hpt). simpl in *.
  exists od. split_and!; [done|done|by destruct doc|].
  intros n. destruct (Hpt n) as [Hin Hout].
  destruct (Document.data doc !! n) as [ds|] eqn:Hn.
  - apply Hin. apply list_elem_of_fmap. exists (n, ds).
    split; [done|]. by apply elem_of_map_to_list.
  - destruct Hout as [-> ->]; [|by rewrite lookup_empty].
    intros ((n' & ds) & -> & Hin')%list_elem_of_fmap.
    apply elem_of_map_to_list in Hin'. simpl in *. congruence.
Qed.

Lemma delete_by_file_do_deletes_exactly_witness :
  exists od,
    OperationDatasetDeleteByFile.olddatasets Cases.delete_file_result.1 = Some od /\
    OperationDatasetDeleteByFile.filename Cases.delete_file_result.1
    = OperationDatasetDeleteByFile.filename Cases.delete_file_op /\
    Cases.delete_file_result.2
    = Document.with_data (Document.data Cases.delete_file_result.2)
        Sample.doc_linked /\
    forall n,
      Document.data Cases.delete_file_result.2 !! n
      = Document.data Sample.doc_linked !! n ≫=
          (fun ds =>
             if linked_to (Document.linkstore Sample.doc_linked)
                  (OperationDatasetDeleteByFile.filename Cases.delete_file_op) ds
             then None else Some ds) /\
      od !! n
      = Document.data Sample.doc_linked !! n ≫=
          (fun ds =>
             if linked_to (Document.linkstore Sample.doc_linked)
                  (OperationDatasetDeleteByFile.filename Cases.delete_file_op) ds
             then Some ds else None).
Proof.
  apply (delete_by_file_do_deletes_exactly Cases.delete_file_op).
  vm_compute. reflexivity.
Defined.

(** ** A loop that raised *)

Lemma for_each_raise {St A} (l : list A) (body : A -> M St unit) s e s' :
  for_each l body s = (Raise e, s') ->
  exists l1 x l2 s1,
    l = l1 ++ x :: l2 /\
    for_each l1 body s = (Ok tt, s1) /\
    body x s1 = (Raise e, s').
Proof.
  revert s. induction l as [|a l IH]; intros s Hrun; [done|].
  rewrite for_each_cons in Hrun.
  destruct (body a s) as [[[]|e0] s0] eqn:Ha.
  - destruct (IH _ Hrun) as (l1 & x & l2 & s1 & -> & Hl1 & Hx).
    exists (a :: l1), x, l2, s1. split_and!; [done| |done].
    by rewrite for_each_cons, Ha.
  - injection Hrun as <- <-. by exists [], a, l, s.
Qed.

(** X3. When [OperationDataTag.do] raises, it is the [KeyError] of a name
    that is not in the document, and the operation can still be undone:
    [removetags] lists the datasets tagged before the failure, and [undo]
    returns normally and gives back the document as it was before
    [do]. *)
Theorem data_tag_failed_do_is_undone :
  forall (self self' : OperationDataTag.t) (doc doc' : Document.t) (e : exn),
    OperationDataTag.do (self, doc) = (Raise e, (self', doc')) ->
    e = KeyError /\
    OperationDataTag.undo (self', doc') = (Ok tt, (self', doc)).
Proof.
  intros self self' doc doc' e Hdo.
  unfold OperationDataTag.do in Hdo. munfold.
  apply for_each_raise in Hdo as (l1 & x & l2 & [self1 doc1] & Hnames & Hl1 & Hx).
  apply (DataTagFacts.tag_do_loop _ _ _ []) in Hl1; [|done].
  destruct Hl1 as (new & data' & -> & -> & Hnd & Hnew & Hdata).
  pose proof (DataTagFacts.do_body_cases x
                (OperationDataTag.set_removetags ([] ++ new)
                   (OperationDataTag.set_removetags [] self))
                (Document.with_data data' doc)) as Hb.
  destruct (Document.data (Document.with_data data' doc) !! x) as [ds|].
  { case_decide; [congruence|]. simpl in Hb, Hx. congruence. }
  rewrite Hb in Hx. injection Hx as <- <- <-. split; [done|].
  unfold OperationDataTag.undo. munfold. simpl.
  edestruct (DataTagFacts.tag_undo_loop new Hnd) as (data'' & Hrun & Hdata'');
    last first.
  - rewrite Hrun. rewrite Document_with_data_twice.
    replace data'' with (Document.data doc);
      [by rewrite Document_with_data_id|].
    apply map_eq. intros n. rewrite Hdata''. simpl. rewrite Hdata.
    unfold untagged_at, tagged_at.
    destruct (Document.data doc !! n) as [ds|] eqn:Hlk; [simpl|done].
    destruct (decide (n ∈ new)) as [Hn|Hn]; [|done].
    apply Hnew in Hn as [_ (ds' & Hds' & Ht)].
    assert (ds' = ds) as -> by congruence.
    destruct ds; simpl in *. unfold Dataset.with_tags; simpl.
    by rewrite set_add_remove.
  - intros n Hn. simpl. rewrite Hdata.
    pose proof Hn as Hn'. apply Hnew in Hn' as [_ (ds & Hds & Ht)].
    rewrite Hds. simpl. eexists. split; [done|].
    unfold tagged_at. rewrite decide_True by done.
    simpl. unfold set_add. set_solver.
Qed.

Lemma data_tag_failed_do_is_undone_witness :
  KeyError = KeyError /\
  OperationDataTag.undo Cases.tag_missing_result
  = (Ok tt, (Cases.tag_missing_result.1, Sample.doc_tags)).
Proof.
  apply (data_tag_failed_do_is_undone Cases.tag_missing
           Cases.tag_missing_result.1 Sample.doc_tags
           Cases.tag_missing_result.2 KeyError).
  vm_compute. reflexivity.
Defined.

(** ** Batches put together *)

Module ComposeFacts.
Section Children.
Context {Op : Type}.
Variable child_do : Op -> Document.t -> res unit * (Op * Document.t).
Variable child_undo : Op -> Document.t -> res unit * (Op * Document.t).

Lemma do_app l1 l2 doc :
OperationMultiple.do child_do (l1 ++ l2) doc
= match OperationMultiple.do child_do l1 doc with
| (Ok _, (l1', doc')) =>
    let r := OperationMultiple.do child_do l2 doc' in
    (r.1, (l1' ++ r.2.1, r.2.2))
| (Raise e, (l1', doc')) => (Raise e, (l1' ++ l2, doc'))
end.
Proof.
revert doc. induction l1 as [|c l1 IH]; intros doc; simpl.
- by destruct (OperationMultiple.do child_do l2 doc) as [r [l d]].
- destruct (child_do c doc) as [[[]|e] [c' d1]]; [|done].
rewrite IH.
destruct (OperationMultiple.do child_do l1 d1) as [[[]|e] [l1' d2]];
  simpl; [|done].
by destruct (OperationMultiple.do child_do l2 d2) as [r [l d]].
Qed.

Lemma undo_app l1 l2 doc :
OperationMultiple.undo child_undo (l1 ++ l2) doc
= match OperationMultiple.undo child_undo l2 doc with
| (Ok _, (l2', doc')) =>
    let r := OperationMultiple.undo child_undo l1 doc' in
    (r.1, (r.2.1 ++ l2', r.2.2))
| (Raise e, (l2', doc')) => (Raise e, (l1 ++ l2', doc'))
end.
Proof.
revert doc. induction l1 as [|c l1 IH]; intros doc; simpl.
- by destruct (OperationMultiple.undo child_undo l2 doc) as [[[]|e] [l d]].
- rewrite IH.
destruct (OperationMultiple.undo child_undo l2 doc) as [[[]|e] [l2' d1]];
  simpl; [|done].
destruct (OperationMultiple.undo child_undo l1 d1) as [[[]|e] [l1' d2]];
  simpl; [|done].
by destruct (child_undo c d2) as [r [c' d3]].
Qed.
End Children.
End ComposeFacts.

(** X4. A batch of two batches behaves as the one batch of their children:
    [OperationMultiple([OperationMultiple(l1), OperationMultiple(l2)]).do]
    and [OperationMultiple(l1 + l2).do] end in the same way (the same
    exception, if any) on the same document with the children in the same
    state, and [undo] on the two batches as [do] left them again ends in
    the same way on the same document. *)
Theorem nested_batches_flatten :
  forall (l1 l2 : list Operation) (d1 d2 d : string) (doc : Document.t),
    exists (a b : list Operation) (r : res unit) (doc' : Document.t),
      op_do (OpMultiple [OpMultiple l1 d1; OpMultiple l2 d2] d) doc
      = (r, (OpMultiple [OpMultiple a d1; OpMultiple b d2] d, doc')) /\
      op_do (OpMultiple (l1 ++ l2) d) doc
      = (r, (OpMultiple (a ++ b) d, doc')) /\
      forall doc0,
        (op_undo (OpMultiple [OpMultiple a d1; OpMultiple b d2] d) doc0).1
        = (op_undo (OpMultiple (a ++ b) d) doc0).1 /\
        (op_undo (OpMultiple [OpMultiple a d1; OpMultiple b d2] d) doc0).2.2
        = (op_undo (OpMultiple (a ++ b) d) doc0).2.2.
Proof.
  intros l1 l2 d1 d2 d doc.
  assert (Hundo : forall a b doc0,
             (op_undo (OpMultiple [OpMultiple a d1; OpMultiple b d2] d) doc0).1
             = (op_undo (OpMultiple (a ++ b) d) doc0).1 /\
             (op_undo (OpMultiple [OpMultiple a d1; OpMultiple b d2] d) doc0).2.2
             = (op_undo (OpMultiple (a ++ b) d) doc0).2.2).
  { intros a b doc0. rewrite !BatchFacts.op_undo_multiple.
    rewrite ComposeFacts.undo_app. cbn [OperationMultiple.undo].
    rewrite !BatchFacts.op_undo_multiple.
    destruct (OperationMultiple.undo op_undo b doc0) as [[[]|e] [b' d3]]; [|done].
    simpl.
    by destruct (OperationMultiple.undo op_undo a d3) as [[[]|e] [a' d4]]. }
  assert (Hpair :
            OperationMultiple.do op_do [OpMultiple l1 d1; OpMultiple l2 d2] doc
            = match OperationMultiple.do op_do l1 doc with
              | (Ok _, (a, d3)) =>
                  let r := OperationMultiple.do op_do l2 d3 in
                  (r.1, ([OpMultiple a d1; OpMultiple r.2.1 d2], r.2.2))
              | (Raise e, (a, d3)) =>
                  (Raise e, ([OpMultiple a d1; OpMultiple l2 d2], d3))
              end).
  { cbn [OperationMultiple.do]. rewrite !BatchFacts.op_do_multiple.
    destruct (OperationMultiple.do op_do l1 doc) as [[[]|e] [a d3]]; [|done].
    cbn [fst snd].
    by destruct (OperationMultiple.do op_do l2 d3) as [[[]|e] [b d4]]. }
  rewrite !BatchFacts.op_do_multiple, Hpair, ComposeFacts.do_app.
  destruct (OperationMultiple.do op_do l1 doc) as [[[]|e] [a d3]].
  - destruct (OperationMultiple.do op_do l2 d3) as [r [b d4]].
    exists a, b, r, d4. by split_and!.
  - exists a, l2, (Raise e), d3. by split_and!.
Qed.

Module RedoFacts.

Ltac redo_simple :=
let H := fresh "H" in
intros self doc self' doc' H;
destruct self; destruct doc as [root dat ls cs hb];
munfold; unfold Document.with_data, Document.with_basewidget,
  Document.with_linkstore, Document.with_customs in *; simpl in *;
repeat (match type of H with
        | context [match ?x with _ => _ end] =>
            lazymatch x with
            | context [match _ with _ => _ end] => fail
            | _ => destruct x eqn:?; simpl in H; try discriminate
            end
        end);
simplify_eq/=;
repeat (match goal with
        | E : ?x = _ |- context [?x] => rewrite E; simpl
        end);
try reflexivity.

Lemma redo_dataset_set :
forall self doc self' doc',
  OperationDatasetSet.do (self, doc) = (Ok tt, (self', doc')) ->
  OperationDatasetSet.do (self', doc) = (Ok tt, (self', doc')).
Proof. unfold OperationDatasetSet.do. redo_simple. Qed.

Lemma redo_dataset_delete :
forall self doc self' doc',
  OperationDatasetDelete.do (self, doc) = (Ok tt, (self', doc')) ->
  OperationDatasetDelete.do (self', doc) = (Ok tt, (self', doc')).
Proof. unfold OperationDatasetDelete.do. redo_simple. Qed.

Lemma redo_dataset_duplicate :
forall self doc self' doc',
  OperationDatasetDuplicate.do (self, doc) = (Ok tt, (self', doc')) ->
  OperationDatasetDuplicate.do (self', doc) = (Ok tt, (self', doc')).
Proof. unfold OperationDatasetDuplicate.do. redo_simple. Qed.

Lemma redo_dataset_unlink_file :
forall self doc self' doc',
  OperationDatasetUnlinkFile.do (self, doc) = (Ok tt, (self', doc')) ->
  OperationDatasetUnlinkFile.do (self', doc) = (Ok tt, (self', doc')).
Proof. unfold OperationDatasetUnlinkFile.do. redo_simple. Qed.

Lemma redo_dataset_unlink_relation :
forall self doc self' doc',
  OperationDatasetUnlinkRelation.do (self, doc) = (Ok tt, (self', doc')) ->
  OperationDatasetUnlinkRelation.do (self', doc) = (Ok tt, (self', doc')).
Proof. unfold OperationDatasetUnlinkRelation.do. redo_simple. Qed.

Lemma redo_dataset_create_range :
forall self doc self' doc',
  OperationDatasetCreateRange.do (self, doc) = (Ok tt, (self', doc')) ->
  OperationDatasetCreateRange.do (self', doc) = (Ok tt, (self', doc')).
Proof.
intros [[name old] made] doc self' doc'.
unfold OperationDatasetCreateRange.do, inherited, OperationDatasetCreate.do.
munfold. simpl. destruct made as [ds|e]; simpl; [|done].
by intros [= <- <-].
Qed.
Lemma redo_dataset_create_parameteric :
forall self doc self' doc',
  OperationDatasetCreateParameteric.do (self, doc) = (Ok tt, (self', doc')) ->
  OperationDatasetCreateParameteric.do (self', doc) = (Ok tt, (self', doc')).
Proof.
intros [[name old] make] doc self' doc'.
unfold OperationDatasetCreateParameteric.do, inherited,
OperationDatasetCreate.do.
munfold. simpl. destruct (make doc) as [ds|e] eqn:Hm; simpl; [|done].
intros [= <- <-]. simpl. by rewrite Hm.
Qed.
Lemma redo_dataset_create_expression :
forall self doc self' doc',
  OperationDatasetCreateExpression.do (self, doc) = (Ok tt, (self', doc')) ->
  OperationDatasetCreateExpression.do (self', doc) = (Ok tt, (self', doc')).
Proof.
intros [[name old] make] doc self' doc'.
unfold OperationDatasetCreateExpression.do, inherited,
OperationDatasetCreate.do.
munfold. simpl. destruct (make doc) as [ds|e] eqn:Hm; simpl; [|done].
intros [= <- <-]. simpl. by rewrite Hm.
Qed.
Lemma redo_setting_propagate deref :
forall self doc self' doc',
  OperationSettingPropagate.do deref (self, doc) = (Ok tt, (self', doc')) ->
  OperationSettingPropagate.do deref (self', doc) = (Ok tt, (self', doc')).
Proof.
intros self doc self' doc' Hdo.
destruct (PropagateRoundTrip.propagate_do_self _ _ _ _ _ Hdo) as [rv ->].
apply PropagateRoundTrip.propagate_do_split in Hdo
as (rootpos & rootw & Hroot & Hrw & Hrun).
rewrite (PropagateRoundTrip.propagate_do_unsplit deref _ doc rootpos rootw);
[|done..].
by destruct self.
Qed.
Lemma redo_set_custom :
forall self doc self' doc',
  OperationSetCustom.do (self, doc) = (Ok tt, (self', doc')) ->
  OperationSetCustom.do (self', doc) = (Ok tt, (self', doc')).
Proof. unfold OperationSetCustom.do. redo_simple. Qed.

Lemma redo_dataset_add_column :
forall self doc self' doc',
  OperationDatasetAddColumn.do (self, doc) = (Ok tt, (self', doc')) ->
  OperationDatasetAddColumn.do (self', doc) = (Ok tt, (self', doc')).
Proof. unfold OperationDatasetAddColumn.do. redo_simple. Qed.

Lemma redo_dataset_set_val :
forall self doc self' doc',
  OperationDatasetSetVal.do (self, doc) = (Ok tt, (self', doc')) ->
  OperationDatasetSetVal.do (self', doc) = (Ok tt, (self', doc')).
Proof.
unfold OperationDatasetSetVal.do, OperationDatasetSetVal.locate. redo_simple.
Qed.

Lemma redo_dataset_rename :
forall self doc self' doc',
  OperationDatasetRename.do (self, doc) = (Ok tt, (self', doc')) ->
  OperationDatasetRename.do (self', doc) = (Ok tt, (self', doc')).
Proof. unfold OperationDatasetRename.do. redo_simple. Qed.

Lemma redo_setting_set :
forall self doc self' doc',
  OperationSettingSet.do (self, doc) = (Ok tt, (self', doc')) ->
  OperationSettingSet.do (self', doc) = (Ok tt, (self', doc')).
Proof. unfold OperationSettingSet.do. redo_simple. Qed.

Lemma redo_widget_delete :
forall self doc self' doc',
  OperationWidgetDelete.do (self, doc) = (Ok tt, (self', doc')) ->
  OperationWidgetDelete.do (self', doc) = (Ok tt, (self', doc')).
Proof. unfold OperationWidgetDelete.do. redo_simple. Qed.

Lemma redo_widget_move_up_down :
forall self doc self' doc',
  OperationWidgetMoveUpDown.do (self, doc) = (Ok tt, (self', doc')) ->
  OperationWidgetMoveUpDown.do (self', doc) = (Ok tt, (self', doc')).
Proof. unfold OperationWidgetMoveUpDown.do. redo_simple. Qed.

Lemma redo_data_tag :
forall self doc self' doc',
  OperationDataTag.do (self, doc) = (Ok tt, (self', doc')) ->
  OperationDataTag.do (self', doc) = (Ok tt, (self', doc')).
Proof.
intros self doc self' doc' H. etrans; [|exact H].
unfold OperationDataTag.do in H. munfold.
apply (DataTagFacts.tag_do_loop _ _ _ []) in H as (new & ? & -> & _); [|done].
by destruct self.
Qed.

Lemma redo_data_untag :
forall self doc self' doc',
  OperationDataUntag.do (self, doc) = (Ok tt, (self', doc')) ->
  OperationDataUntag.do (self', doc) = (Ok tt, (self', doc')).
Proof.
intros self doc self' doc' H. etrans; [|exact H].
unfold OperationDataUntag.do in H. munfold.
by apply RoundTrip.untag_do_loop in H as (? & -> & _).
Qed.

Lemma redo_dataset_unlink_by_file :
forall self doc self' doc',
  OperationDatasetUnlinkByFile.do (self, doc) = (Ok tt, (self', doc')) ->
  OperationDatasetUnlinkByFile.do (self', doc) = (Ok tt, (self', doc')).
Proof.
intros self doc self' doc' H. etrans; [|exact H].
unfold OperationDatasetUnlinkByFile.do in H. munfold.
eapply (ByFileFacts.unlink_do_pointwise _ (NoDup_fst_map_to_list _) _ _ _ _ ∅)
  in H; [|done|].
2:{ intros n ds Hin%elem_of_map_to_list. by rewrite lookup_empty. }
destruct H as (ol & data' & Hol & Hfn & _). simpl in Hfn.
unfold OperationDatasetUnlinkByFile.do. munfold.
unfold OperationDatasetUnlinkByFile.set_oldlinks. by rewrite Hfn.
Qed.

Lemma redo_dataset_delete_by_file :
forall self doc self' doc',
  OperationDatasetDeleteByFile.do (self, doc) = (Ok tt, (self', doc')) ->
  OperationDatasetDeleteByFile.do (self', doc) = (Ok tt, (self', doc')).
Proof.
intros self doc self' doc' H. etrans; [|exact H].
unfold OperationDatasetDeleteByFile.do in H. munfold.
eapply (ByFileFacts.delete_do_pointwise _ (NoDup_fst_map_to_list _) _ _ _ _ ∅)
  in H; [|done|].
2:{ intros n ds Hin%elem_of_map_to_list. by rewrite lookup_empty. }
destruct H as (od & data' & Hod & Hfn & _). simpl in Hfn.
unfold OperationDatasetDeleteByFile.do. munfold. by rewrite Hfn.
Qed.

Lemma redo_widgets_delete :
forall self doc self' doc',
  OperationWidgetsDelete.do (self, doc) = (Ok tt, (self', doc')) ->
  OperationWidgetsDelete.do (self', doc) = (Ok tt, (self', doc')).
Proof.
intros self doc self' doc' H. etrans; [|exact H].
unfold OperationWidgetsDelete.do in H. munfold.
pose proof (RequestFacts.loop_with_widgetpaths
              (OperationWidgetsDelete.widgetpaths self)
              (OperationWidgetsDelete.distinct_ancestry
                 (OperationWidgetsDelete.widgetpaths self))
              (OperationWidgetsDelete.mk
                 (OperationWidgetsDelete.widgetpaths self)
                 (Some []) (Some []) (Some [])) doc) as Hw.
unfold with_widgetpaths in Hw at 1. simpl in Hw. rewrite H in Hw.
simpl in Hw. injection Hw as Hw.
unfold OperationWidgetsDelete.do. munfold.
rewrite Hw. done.
Qed.

End RedoFacts.

(** X5. An operation of one of the classes [OperationSettingSet],
    [OperationSettingPropagate], [OperationWidgetDelete],
    [OperationWidgetsDelete], [OperationWidgetMoveUpDown],
    [OperationDatasetSet], [OperationDatasetDelete],
    [OperationDatasetRename], [OperationDatasetDuplicate],
    [OperationDatasetUnlinkFile], [OperationDatasetUnlinkRelation],
    [OperationDatasetCreateRange], [OperationDatasetCreateParameteric],
    [OperationDatasetCreateExpression], [OperationDatasetUnlinkByFile],
    [OperationDatasetDeleteByFile], [OperationDataTag],
    [OperationDataUntag], [OperationDatasetAddColumn],
    [OperationDatasetSetVal], [OperationSetCustom], or an
    [OperationMultiple] of such operations, that has been done can be
    done again: if [do] returns normally on a document, then [do] on the
    operation object as it is afterwards, given the same document (as
    [undo] restores it), returns normally with the same document and
    leaves the object as it is: what an earlier [do] of these classes
    recorded has no influence on a later one.  (The other classes of
    [operations.py] are not covered; [OperationWidgetMove.do], for one,
    rewrites its argument [newindex].) *)
Theorem redo_repeats_do :
  forall op doc op' doc',
    op_do op doc = (Ok tt, (op', doc')) ->
    op_do op' doc = (Ok tt, (op', doc')).
Proof.
  intros op.
  induction op as [op Hleaf|ops d IH] using BatchFacts.Operation_ind';
    intros doc op' doc' Hdo.
  - destruct op as [o|deref o|o|o|o|o|o|o|o|o|o|o|o|o|o|o|o|o|o|o|o|ops d];
      [..|by destruct (Hleaf ops d)];
      simpl in Hdo;
      match type of Hdo with
      | as_op ?inj ?m ?o ?doc = _ =>
          unfold as_op in Hdo;
          destruct (m (o, doc)) as [r [o' d']] eqn:E;
          simpl in Hdo; injection Hdo as -> <- <-
      end;
      [ apply RedoFacts.redo_setting_set in E
      | apply RedoFacts.redo_setting_propagate in E
      | apply RedoFacts.redo_widget_delete in E
      | apply RedoFacts.redo_widgets_delete in E
      | apply RedoFacts.redo_widget_move_up_down in E
      | apply RedoFacts.redo_dataset_set in E
      | apply RedoFacts.redo_dataset_delete in E
      | apply RedoFacts.redo_dataset_rename in E
      | apply RedoFacts.redo_dataset_duplicate in E
      | apply RedoFacts.redo_dataset_unlink_file in E
      | apply RedoFacts.redo_dataset_unlink_relation in E
      | apply RedoFacts.redo_dataset_create_range in E
      | apply RedoFacts.redo_dataset_create_parameteric in E
      | apply RedoFacts.redo_dataset_create_expression in E
      | apply RedoFacts.redo_dataset_unlink_by_file in E
      | apply RedoFacts.redo_dataset_delete_by_file in E
      | apply RedoFacts.redo_data_tag in E
      | apply RedoFacts.redo_data_untag in E
      | apply RedoFacts.redo_dataset_add_column in E
      | apply RedoFacts.redo_dataset_set_val in E
      | apply RedoFacts.redo_set_custom in E ];
      simpl; unfold as_op; by rewrite E.
  - rewrite BatchFacts.op_do_multiple in Hdo.
    destruct (OperationMultiple.do op_do ops doc) as [r [ops' d']] eqn:E.
    simpl in Hdo. injection Hdo as -> <- <-.
    rewrite BatchFacts.op_do_multiple.
    assert (Hl : OperationMultiple.do op_do ops' doc = (Ok tt, (ops', d')));
      [|by rewrite Hl].
    clear -IH E. revert doc ops' d' E.
    induction IH as [|c ops Hc _ IHl]; intros doc ops' d' E; simpl in E.
    + by injection E as <- <-.
    + destruct (op_do c doc) as [[[]|e] [c' d1]] eqn:Ec; [|done].
      destruct (OperationMultiple.do op_do ops d1) as [r [rest' d2]] eqn:Er.
      simpl in E. injection E as -> <- <-.
      simpl. rewrite (Hc _ _ _ Ec). by rewrite (IHl _ _ _ Er).
Qed.

Lemma redo_repeats_do_witness :
  op_do Sample.session_all_done Sample.doc_session
  = (Ok tt, (Sample.session_all_done, Sample.doc_session_all_done)).
Proof.
  apply (redo_repeats_do Sample.session_all).
  vm_compute. reflexivity.
Defined.

Import Rd.

(** ** The stream *)

Ltac runfold :=
  cbv beta iota zeta delta
    [Rd.bind Rd.ret Rd.throw Rd.gets Rd.modify Rd.or_throw Rd.on_fst Rd.on_snd
       Rd.of_sum fst snd] in *.

Module StreamFacts.
Section Engine.
Variable findall : string -> list string.

(** [newLine] takes lines off the front of the file: at least one when
    it returns [True] or raises, all of them when it returns [False]. *)
Lemma newLine_from_consumes file :
  forall rl r s',
    Stream.newLine_from findall file rl = (r, s') ->
    exists consumed,
      file = consumed ++ Stream.file s' /\
      match r with
      | Done false => Stream.file s' = []
      | _ => consumed <> []
      end.
Proof.
  induction file as [|line file IH]; intros rl r s' H; simpl in H.
  - injection H as <- <-. by exists [].
  - destruct (Stream.without_comments (findall line)) as [kept|].
    2:{ injection H as <- <-. by exists [line]. }
    destruct (bool_decide _).
    + apply IH in H as (consumed & -> & Hr). exists (line :: consumed).
      split; [done|]. by destruct r as [[]|].
    + injection H as <- <-. by exists [line].
Qed.

Lemma newLine_shrinks s s' :
  Stream.newLine findall s = (Done true, s') ->
  length (Stream.file s') < length (Stream.file s).
Proof.
  unfold Stream.newLine. intros H.
  apply newLine_from_consumes in H as (consumed & -> & Hne).
  rewrite length_app. destruct consumed; [done|simpl; lia].
Qed.
End Engine.
End StreamFacts.

(** ** The reader of 2D data *)

Module Reader2DFacts.
Section Reader.
Context {num : Type}.
Variable findall : string -> list string.
Variable lower : string -> string.
Variable float : string -> option num.
Variable binEdgesFromCentres : list num -> bool -> list num.
Variable checkAscending : list num -> bool.
Variable add sub : num -> num -> num.
Variable half : num -> num.

Local Abbreviation read_rows :=
  (Reader2D.read_rows findall lower float binEdgesFromCentres checkAscending).
Local Abbreviation readData :=
  (Reader2D.readData findall lower float binEdgesFromCentres checkAscending
     add sub half).
Local Abbreviation finish :=
  (Reader2D.finish checkAscending add sub half).
Local Abbreviation settings :=
  (Reader2D.settings float binEdgesFromCentres checkAscending).

Lemma read_line_file (w : Reader2D.W) :
  Stream.file (Reader2D.read_line float w).2.2 = Stream.file w.2.
Proof. done. Qed.

Lemma read_rows_S fuel rows (w : Reader2D.W) :
  read_rows (S fuel) rows w
  = match on_snd (Stream.newLine findall) w with
    | (Throw e, w1) => Some (Throw e, w1)
    | (Done false, w1) => Some (Done rows, w1)
    | (Done true, w1) =>
        match Stream.remainingline w1.2 with
        | [] =>
            match rows with
            | [] => read_rows fuel rows w1
            | _ => Some (Done rows, w1)
            end
        | c0 :: _ =>
            match settings (lower c0) with
            | Some method =>
                match (on_fst (method (Stream.remainingline w1.2)) ;;;
                       on_snd Stream.flushLine) w1 with
                | (Throw e, w2) => Some (Throw e, w2)
                | (Done _, w2) => read_rows fuel rows w2
                end
            | None =>
                match Reader2D.read_line float w1 with
                | (Throw e, w2) => Some (Throw e, w2)
                | (Done line, w2) => read_rows fuel (line :: rows) w2
                end
            end
        end
    end.
Proof. reflexivity. Qed.

(** More fuel does not change a result. *)
Lemma read_rows_mono fuel :
  forall rows w r,
    read_rows fuel rows w = Some r ->
    forall fuel', fuel <= fuel' -> read_rows fuel' rows w = Some r.
Proof.
  induction fuel as [|fuel IH]; intros rows w r H fuel' Hle; [done|].
  destruct fuel' as [|fuel']; [lia|]. rewrite read_rows_S in *.
  destruct (on_snd (Stream.newLine findall) w) as [[[]|e] w1]; try done.
  destruct (Stream.remainingline w1.2) as [|c0 cols].
  - destruct rows; [|done]. apply (IH _ _ _ H). lia.
  - destruct (settings (lower c0)) as [method|].
    + destruct ((on_fst (method (c0 :: cols)) ;;; on_snd Stream.flushLine) w1)
        as [[[]|e] w2]; [|done].
      apply (IH _ _ _ H). lia.
    + destruct (Reader2D.read_line float w1) as [[line|e] w2]; [|done].
      apply (IH _ _ _ H). lia.
Qed.

(** The loop ends: fuel beyond the number of lines is never used up. *)
Lemma read_rows_total fuel :
  forall rows (w : Reader2D.W),
    length (Stream.file w.2) < fuel ->
    is_Some (read_rows fuel rows w).
Proof.
  induction fuel as [|fuel IH]; intros rows [self s] Hlen; [lia|].
  rewrite read_rows_S. unfold on_snd at 1. cbn [fst snd].
  destruct (Stream.newLine findall s) as [[[]|e] s1] eqn:Hnl; cbn [fst snd];
    try done.
  apply StreamFacts.newLine_shrinks in Hnl. simpl in Hlen.
  destruct (Stream.remainingline s1) as [|c0 cols] eqn:Hrl.
  - destruct rows; [|done]. apply IH. simpl. lia.
  - destruct (settings (lower c0)) as [method|].
    + unfold Rd.bind, on_fst, on_snd. cbn [fst snd].
      destruct (method (c0 :: cols) self) as [[[]|e] self2]; cbn [fst snd];
        [|done].
      apply IH. simpl. lia.
    + destruct (Reader2D.read_line float (self, s1)) as [[line|e] w2] eqn:Hl;
        [|done].
      apply IH. pose proof (read_line_file (self, s1)) as Hf.
      rewrite Hl in Hf. simpl in Hf. rewrite Hf. lia.
Qed.

Lemma readData_total (w : Reader2D.W) : is_Some (readData w).
Proof.
  unfold Reader2D.readData, Reader2D.readData_fuel.
  destruct (read_rows_total (S (length (Stream.file w.2))) [] w) as [r Hr]; [lia|].
  rewrite Hr. by destruct r as [[rows|e] w1].
Qed.

(** *** The shape of the matrix *)

Lemma rectangular_Forall (rows : list (list num)) :
  Reader2D.rectangular rows = true <->
  Forall (fun r => length r = SimpleRead2D.ncols rows) rows.
Proof.
  unfold Reader2D.rectangular. rewrite forallb_forall, Forall_forall.
  split; intros H r Hr.
  - apply Nat.eqb_eq, H. by apply list_elem_of_In.
  - apply Nat.eqb_eq, H. by apply list_elem_of_In.
Qed.

Lemma ncols_Forall n (rows : list (list num)) :
  rows <> [] -> Forall (fun r => length r = n) rows ->
  SimpleRead2D.ncols rows = n.
Proof. destruct rows as [|r rows]; [done|]. intros _ H. by inversion H. Qed.

Lemma N_transpose_shape nc (m : list (list num)) :
  Forall (fun r => length r = nc) m ->
  length (SimpleRead2D.N_transpose nc m) = nc /\
  Forall (fun r => length r = length m) (SimpleRead2D.N_transpose nc m).
Proof.
  induction 1 as [|row m Hrow _ [IHl IHf]]; simpl.
  - split; [by rewrite length_replicate|].
    apply Forall_forall. by intros r [-> _]%elem_of_replicate.
  - split; [rewrite length_zip_with; lia|].
    apply Forall_forall. intros r Hr.
    apply elem_of_lookup_zip_with in Hr as (i & x & y & -> & _ & Hy).
    simpl. f_equal. apply (Forall_lookup_1 _ _ _ _ IHf Hy).
Qed.

Lemma invertcols_step_fields (r : SimpleRead2D.t num) :
  SimpleRead2D.params (SimpleRead2D.invertcols_step r) = SimpleRead2D.params r /\
  SimpleRead2D.data (SimpleRead2D.invertcols_step r)
  = (if SimpleRead2D.invertcols (SimpleRead2D.params r)
     then map reverse (SimpleRead2D.data r) else SimpleRead2D.data r).
Proof. unfold SimpleRead2D.invertcols_step. by destruct (SimpleRead2D.invertcols _). Qed.

Lemma invertrows_step_fields (r : SimpleRead2D.t num) :
  SimpleRead2D.params (SimpleRead2D.invertrows_step r) = SimpleRead2D.params r /\
  SimpleRead2D.data (SimpleRead2D.invertrows_step r)
  = (if SimpleRead2D.invertrows (SimpleRead2D.params r)
     then reverse (SimpleRead2D.data r) else SimpleRead2D.data r).
Proof. unfold SimpleRead2D.invertrows_step. by destruct (SimpleRead2D.invertrows _). Qed.

Lemma transpose_step_fields (r : SimpleRead2D.t num) :
  SimpleRead2D.params (SimpleRead2D.transpose_step r) = SimpleRead2D.params r /\
  SimpleRead2D.xgrid (SimpleRead2D.transpose_step r) = SimpleRead2D.xgrid r /\
  SimpleRead2D.ygrid (SimpleRead2D.transpose_step r) = SimpleRead2D.ygrid r /\
  SimpleRead2D.data (SimpleRead2D.transpose_step r)
  = (if SimpleRead2D.transpose (SimpleRead2D.params r)
     then SimpleRead2D.N_transpose (SimpleRead2D.ncols (SimpleRead2D.data r))
            (SimpleRead2D.data r)
     else SimpleRead2D.data r).
Proof. unfold SimpleRead2D.transpose_step. by destruct (SimpleRead2D.transpose _). Qed.

(** The rows after the orientation steps, for a matrix of [nr] rows and
    [nc] columns: [nc] rows of [nr] items when transposed, [nr] rows of
    [nc] items otherwise. *)
Lemma orient_shape (r : SimpleRead2D.t num) :
  SimpleRead2D.data r <> [] ->
  Reader2D.rectangular (SimpleRead2D.data r) = true ->
  let d := SimpleRead2D.data (SimpleRead2D.orient r) in
  SimpleRead2D.params (SimpleRead2D.orient r) = SimpleRead2D.params r /\
  if SimpleRead2D.transpose (SimpleRead2D.params r)
  then length d = SimpleRead2D.ncols (SimpleRead2D.data r) /\
       Forall (fun row => length row = length (SimpleRead2D.data r)) d
  else length d = length (SimpleRead2D.data r) /\
       Forall (fun row => length row = SimpleRead2D.ncols (SimpleRead2D.data r)) d.
Proof.
  intros Hne Hrect%rectangular_Forall. cbv zeta.
  set (nc := SimpleRead2D.ncols (SimpleRead2D.data r)) in *.
  unfold SimpleRead2D.orient.
  destruct (invertcols_step_fields r) as [Hp1 Hd1].
  destruct (invertrows_step_fields (SimpleRead2D.invertcols_step r)) as [Hp2 Hd2].
  destruct (transpose_step_fields
              (SimpleRead2D.invertrows_step (SimpleRead2D.invertcols_step r)))
    as (Hp3 & _ & _ & Hd3).
  rewrite Hp1 in Hp2, Hd2. rewrite Hp2 in Hp3, Hd3. rewrite Hd1 in Hd2.
  set (d2 := SimpleRead2D.data
               (SimpleRead2D.invertrows_step (SimpleRead2D.invertcols_step r))) in *.
  assert (H2 : length d2 = length (SimpleRead2D.data r) /\
               Forall (fun row => length row = nc) d2).
  { rewrite Hd2.
    assert (H1 : length (if SimpleRead2D.invertcols (SimpleRead2D.params r)
                         then map reverse (SimpleRead2D.data r)
                         else SimpleRead2D.data r)
                 = length (SimpleRead2D.data r) /\
                 Forall (fun row => length row = nc)
                   (if SimpleRead2D.invertcols (SimpleRead2D.params r)
                    then map reverse (SimpleRead2D.data r)
                    else SimpleRead2D.data r)).
    { destruct (SimpleRead2D.invertcols _); [|done].
      rewrite length_map. split; [done|].
      apply Forall_map. eapply Forall_impl; [exact Hrect|].
      intros row Hrow. simpl. by rewrite length_reverse. }
    destruct (SimpleRead2D.invertrows _); [|done].
    rewrite length_reverse. split; [tauto|]. apply Forall_reverse. tauto. }
  destruct H2 as [Hl2 Hf2].
  assert (Hnc2 : SimpleRead2D.ncols d2 = nc).
  { apply ncols_Forall; [|done]. intros E. rewrite E in Hl2.
    destruct (SimpleRead2D.data r); simpl in *; congruence. }
  split; [done|]. rewrite Hd3, Hnc2.
  destruct (SimpleRead2D.transpose _); [|done].
  destruct (N_transpose_shape nc d2 Hf2) as [Hl Hf]. by rewrite <- Hl2.
Qed.

(** A [readData] that gets past its checks. *)
Lemma finish_done rows self self' :
  finish rows self = (Done tt, self') <->
  exists rows1 self1,
    Reader2D.grid_at_edge add sub half rows self = (Done rows1, self1) /\
    rows1 <> [] /\ Reader2D.rectangular rows1 = true /\
    self' = Reader2D.copy_grids (Reader2D.oriented (Reader2D.with_data rows1 self1)) /\
    Reader2D.ascending checkAscending self' = true /\
    Reader2D.lengths_differ self'
      (Reader2D.shape_after (Reader2D.params self') rows1) = false.
Proof.
  unfold Reader2D.finish. runfold.
  destruct (Reader2D.grid_at_edge add sub half rows self)
    as [[rows1|e] self1] eqn:Hg.
  2:{ split; [done|]. by intros (? & ? & ? & _). }
  destruct (decide (length rows1 = 0%nat)) as [H0|Hne].
  { split; [done|]. intros (? & ? & [= <- <-] & Hn & _).
    by destruct rows1. }
  destruct (Reader2D.rectangular rows1) eqn:Hrect.
  2:{ split; [done|]. intros (? & ? & [= <- <-] & _ & ? & _). congruence. }
  unfold id.
  set (s5 := Reader2D.copy_grids
               (Reader2D.oriented (Reader2D.with_data rows1 self1))).
  destruct (Reader2D.ascending checkAscending s5) eqn:Hasc.
  2:{ split; [done|]. intros (? & ? & [= <- <-] & _ & _ & -> & ? & _).
      subst s5. congruence. }
  destruct (Reader2D.lengths_differ s5 _) eqn:Hlen.
  { split; [done|]. intros (? & ? & [= <- <-] & _ & _ & -> & _ & ?).
    subst s5. congruence. }
  split.
  - intros [= <-]. exists rows1, self1. split_and!; try done.
    by destruct rows1.
  - by intros (? & ? & [= <- <-] & _ & _ & -> & _ & _).
Qed.

Lemma copy_grids_fields (s : Reader2D.t num) :
  Reader2D.params (Reader2D.copy_grids s) = Reader2D.params s /\
  SimpleRead2D.data (Reader2D.reader (Reader2D.copy_grids s))
  = SimpleRead2D.data (Reader2D.reader s) /\
  (forall g, SimpleRead2D.p_ygrid (Reader2D.params s) = Some g ->
             SimpleRead2D.ygrid (Reader2D.reader (Reader2D.copy_grids s)) = Some g) /\
  (forall g, SimpleRead2D.p_xgrid (Reader2D.params s) = Some g ->
             SimpleRead2D.xgrid (Reader2D.reader (Reader2D.copy_grids s)) = Some g).
Proof.
  destruct s as [[[px py ir ic tr ge] d xg yg] xr yr].
  unfold Reader2D.copy_grids, Reader2D.params. simpl.
  destruct px, py; simpl; split_and!; try done; by intros ? [= <-].
Qed.

(** What holds of the reader object when [readData] got past its
    checks. *)
Lemma finish_invariants rows self self' :
  finish rows self = (Done tt, self') ->
  let r := Reader2D.reader self' in
  let d := SimpleRead2D.data r in
  Forall (fun row => length row = SimpleRead2D.ncols d) d /\
  (forall g, SimpleRead2D.xgrid r = Some g -> checkAscending g = true) /\
  (forall g, SimpleRead2D.ygrid r = Some g -> checkAscending g = true) /\
  (SimpleRead2D.transpose (SimpleRead2D.params r) = false -> d <> []) /\
  (d <> [] -> forall g, SimpleRead2D.xgrid r = Some g ->
                        length g = SimpleRead2D.ncols d + 1) /\
  (forall g, SimpleRead2D.p_ygrid (SimpleRead2D.params r) = Some g ->
             SimpleRead2D.ygrid r = Some g /\ length g = length d + 1).
Proof.
  intros (rows1 & self1 & _ & Hne & Hrect & -> & Hasc & Hlen)%finish_done.
  set (s3 := Reader2D.oriented (Reader2D.with_data rows1 self1)) in *.
  destruct (copy_grids_fields s3) as (Hp & Hd & Hy & _).
  cbv zeta. fold (Reader2D.params (Reader2D.copy_grids s3)).
  rewrite Hd, Hp. rewrite Hp in Hlen.
  destruct (orient_shape (Reader2D.reader (Reader2D.with_data rows1 self1)))
    as [Hop Hshape]; [done|done|].
  change (SimpleRead2D.orient (Reader2D.reader (Reader2D.with_data rows1 self1)))
    with (Reader2D.reader s3) in Hop, Hshape.
  change (SimpleRead2D.data (Reader2D.reader (Reader2D.with_data rows1 self1)))
    with rows1 in Hshape.
  change (SimpleRead2D.params (Reader2D.reader s3)) with (Reader2D.params s3) in Hop.
  change (SimpleRead2D.params (Reader2D.reader (Reader2D.with_data rows1 self1)))
    with (Reader2D.params self1) in Hop, Hshape.
  unfold Reader2D.shape_after in Hlen. rewrite Hop in Hlen |- *.
  set (d := SimpleRead2D.data (Reader2D.reader s3)) in *.
  unfold Reader2D.ascending in Hasc. apply andb_true_iff in Hasc as [Hax Hay].
  unfold Reader2D.lengths_differ in Hlen.
  apply orb_false_iff in Hlen as [Hlx Hly].
  assert (Hnr : length rows1 <> 0%nat) by by destruct rows1.
  assert (Hcols : d <> [] ->
                  SimpleRead2D.ncols d
                  = if SimpleRead2D.transpose (Reader2D.params self1)
                    then length rows1 else SimpleRead2D.ncols rows1).
  { intros Hd0. destruct (SimpleRead2D.transpose _);
      apply ncols_Forall; tauto. }
  split_and!.
  - destruct (decide (d = [])) as [->|Hd0]; [done|].
    rewrite (Hcols Hd0). destruct (SimpleRead2D.transpose _); tauto.
  - intros g Hg. by rewrite Hg in Hax.
  - intros g Hg. by rewrite Hg in Hay.
  - intros Htr. rewrite Htr in Hshape. intros E. rewrite E in Hshape.
    simpl in Hshape. lia.
  - intros Hd0 g Hg. rewrite Hg in Hlx. rewrite (Hcols Hd0).
    apply negb_false_iff, Nat.eqb_eq in Hlx.
    by destruct (SimpleRead2D.transpose _).
  - intros g Hg. rewrite <- Hop in Hg. pose proof (Hy g Hg) as Hyg.
    split; [done|]. rewrite Hp, Hg, Hyg in Hly.
    apply negb_false_iff, Nat.eqb_eq in Hly.
    destruct (SimpleRead2D.transpose _); simpl in Hly; lia.
Qed.

(** *** The grid at the edge *)

Lemma edge_grid_length (old g : list num) :
  Reader2D.edge_grid add sub half old = Some g ->
  length g = if (2 <=? length old)%nat then S (length old) else pred (length old).
Proof.
  unfold Reader2D.edge_grid.
  set (mid := zip_with _ _ _).
  assert (Hmid : length mid = pred (length old)).
  { subst mid. rewrite length_zip_with, length_drop, length_take. lia. }
  destruct (2 <=? length old)%nat eqn:Hle; [|by intros [= <-]].
  apply Nat.leb_le in Hle. intros H.
  destruct (mid !! 0%nat); simpl in H; [|done].
  destruct (old !! 1%nat); simpl in H; [|done].
  destruct (old !! 0%nat); simpl in H; [|done].
  destruct (last mid); simpl in H; [|done].
  destruct (last old); simpl in H; [|done].
  destruct (old !! (length old - 2)%nat); simpl in H; [|done].
  injection H as <-. simpl. rewrite length_app. simpl. lia.
Qed.

Lemma grid_at_edge_on rows self rows1 self1 :
  SimpleRead2D.gridatedge (Reader2D.params self) = true ->
  Reader2D.grid_at_edge add sub half rows self = (Done rows1, self1) ->
  exists top xg,
    last rows = Some top /\
    Reader2D.edge_grid add sub half top = Some xg /\
    SimpleRead2D.xgrid (Reader2D.reader self1) = Some xg /\
    rows1 = map (drop 1) (take (pred (length rows)) rows) /\
    Reader2D.params self1 = Reader2D.params self /\
    SimpleRead2D.p_xgrid (Reader2D.params self) = None.
Proof.
  intros Hge. unfold Reader2D.grid_at_edge. runfold. unfold id. rewrite Hge.
  destruct (SimpleRead2D.p_xgrid (Reader2D.params self)) eqn:Hpx; [done|].
  destruct (SimpleRead2D.p_ygrid (Reader2D.params self)) eqn:Hpy; [done|].
  cbn [Reader2D.is_None andb].
  destruct (last rows) as [top|]; [|done].
  destruct (Reader2D.edge_grid add sub half top) as [xg|] eqn:Hxg; [|done].
  destruct (map_or_throw _ _ _) as [e|ys]; [done|].
  destruct (Reader2D.edge_grid add sub half ys) as [yg|]; [|done].
  intros [= <- <-]. exists top, xg. by destruct self as [[]].
Qed.

Lemma orient_xgrid_length (r : SimpleRead2D.t num) :
  length <$> SimpleRead2D.xgrid (SimpleRead2D.orient r)
  = length <$> SimpleRead2D.xgrid r.
Proof.
  unfold SimpleRead2D.orient.
  destruct (transpose_step_fields
              (SimpleRead2D.invertrows_step (SimpleRead2D.invertcols_step r)))
    as (_ & -> & _).
  unfold SimpleRead2D.invertrows_step, SimpleRead2D.invertcols_step.
  destruct r as [p d [g|] yg]; simpl;
    destruct (SimpleRead2D.invertcols p), (SimpleRead2D.invertrows _); simpl;
    by rewrite ?length_reverse.
Qed.

Lemma copy_grids_xgrid (s : Reader2D.t num) :
  SimpleRead2D.p_xgrid (Reader2D.params s) = None ->
  SimpleRead2D.xgrid (Reader2D.reader (Reader2D.copy_grids s))
  = SimpleRead2D.xgrid (Reader2D.reader s).
Proof.
  destruct s as [[[px py ir ic tr ge] d xg yg] xr yr].
  unfold Reader2D.copy_grids, Reader2D.params. simpl. intros ->.
  by destruct py.
Qed.

(** *** Lines of numbers *)

Lemma read_columns_ok cols nums :
  map_or_throw ValueError float cols = inr nums ->
  forall acc, Reader2D.read_columns float cols acc = (Done (acc ++ nums), []).
Proof.
  revert nums. induction cols as [|v cols IH]; intros nums H acc; simpl in *.
  - injection H as <-. by rewrite app_nil_r.
  - destruct (float v) as [x|]; [|done].
    destruct (map_or_throw ValueError float cols) as [e|ys]; [done|].
    injection H as <-. rewrite (IH ys eq_refl). by rewrite <- app_assoc.
Qed.

Lemma newLine_plain line file' cols :
  Stream.without_comments (findall line) = Some cols ->
  last cols <> Some "\" ->
  Stream.newLine findall (Stream.mk (line :: file') [])
  = (Done true, Stream.mk file' cols).
Proof.
  intros Hc Hl. unfold Stream.newLine. simpl. rewrite Hc. simpl.
  by rewrite bool_decide_eq_false_2.
Qed.

(** The loop over lines of numbers, up to the end of the file or a blank
    line: each line is put in front of the rows read so far. *)
Lemma read_rows_data_lines lines numrows rest self :
  Forall2 (Reader2D.data_line findall lower float binEdgesFromCentres
             checkAscending) lines numrows ->
  (rest = [] \/
   exists b rest', rest = b :: rest' /\ Reader2D.blank_line findall b) ->
  forall fuel acc,
    length lines < fuel ->
    numrows <> [] \/ acc <> [] ->
    read_rows fuel acc (self, Stream.mk (lines ++ rest) [])
    = Some (Done (reverse numrows ++ acc), (self, Stream.mk (drop 1 rest) [])).
Proof.
  intros Hlines Hrest.
  induction Hlines as [|line nums lines numrows Hline _ IH];
    intros fuel acc Hfuel Hne.
  - destruct fuel as [|fuel]; [simpl in Hfuel; lia|].
    rewrite read_rows_S. unfold on_snd at 1. cbn [fst snd app].
    destruct Hrest as [->|(b & rest' & -> & Hb)].
    + done.
    + rewrite (newLine_plain b rest' []) by done. cbn [fst snd].
      cbn [Stream.remainingline].
      destruct acc; [by destruct Hne|done].
  - destruct fuel as [|fuel]; [simpl in Hfuel; lia|].
    destruct Hline as (cols & Hcols & Hnums & Hlast & Hset & Hfloat).
    rewrite read_rows_S. unfold on_snd at 1. cbn [fst snd app].
    rewrite (newLine_plain line (lines ++ rest) cols) by done.
    cbn [fst snd Stream.remainingline].
    destruct cols as [|c0 cols'] eqn:Ecols.
    { simpl in Hfloat. injection Hfloat as <-. done. }
    specialize (Hset c0 eq_refl).
    destruct (settings (lower c0)); [done|].
    unfold Reader2D.read_line. cbn [fst snd Stream.remainingline Stream.file].
    rewrite (read_columns_ok _ _ Hfloat []). cbn [fst snd app].
    rewrite IH; [|simpl in Hfuel; lia|by right].
    by rewrite reverse_cons, <- app_assoc.
Qed.

Lemma rectangular_reverse (rows : list (list num)) :
  Reader2D.rectangular rows = true ->
  Reader2D.rectangular (reverse rows) = true.
Proof.
  intros H%rectangular_Forall.
  destruct (decide (rows = [])) as [->|Hne]; [done|].
  apply rectangular_Forall.
  assert (Hn : SimpleRead2D.ncols (reverse rows) = SimpleRead2D.ncols rows).
  { apply ncols_Forall; [|by apply Forall_reverse].
    intros E. apply (f_equal length) in E. rewrite length_reverse in E.
    by destruct rows. }
  rewrite Hn. by apply Forall_reverse.
Qed.

End Reader.
End Reader2DFacts.

(** X11. Lines that end in the continuation mark are joined with the
    line after them: [newLine] on a run of such lines and one more line
    leaves the items of all of them, marks left out, as one line and
    returns [True].  When the file ends after a continuation line,
    [newLine] returns [False] with the joined items still in
    [remainingline], so a caller looping on [while stream.newLine()]
    never reads them. *)
Theorem newLine_joins_continuations :
  forall (findall : string -> list string)
         (lines : list string) (itemss : list (list string))
         (rl : list string),
    Forall2 (Stream.continuation_line findall) lines itemss ->
    Stream.newLine findall (Stream.mk lines rl)
    = (Done false, Stream.mk [] (rl ++ concat itemss)) /\
    forall final last_items rest,
      Stream.without_comments (findall final) = Some last_items ->
      last (rl ++ concat itemss ++ last_items) <> Some "\" ->
      Stream.newLine findall (Stream.mk (lines ++ final :: rest) rl)
      = (Done true, Stream.mk rest (rl ++ concat itemss ++ last_items)).
Proof.
  intros findall lines itemss rl H. revert rl.
  unfold Stream.newLine. cbn [Stream.file Stream.remainingline].
  induction H as [|line items lines itemss Hline _ IH]; intros rl.
  - split; [by rewrite app_nil_r|].
    intros final last_items rest Hf Hl. simpl in *. rewrite Hf.
    by rewrite bool_decide_eq_false_2.
  - assert (Hstep : forall file',
               Stream.newLine_from findall (line :: file') rl
               = Stream.newLine_from findall file' (rl ++ items)).
    { intros file'. simpl. rewrite Hline.
      rewrite bool_decide_eq_true_2 by by rewrite app_assoc, last_snoc.
      by rewrite app_assoc, length_app, Nat.add_1_r, Nat.pred_succ,
        take_app_length. }
    destruct (IH (rl ++ items)) as [IH1 IH2].
    split.
    + rewrite Hstep, IH1. by rewrite <- app_assoc.
    + intros final last_items rest Hf Hl. simpl in Hl.
      rewrite <- app_comm_cons, Hstep.
      rewrite (IH2 final last_items rest Hf).
      * simpl. by rewrite <- !app_assoc.
      * by rewrite <- !app_assoc in Hl |- *.
Qed.

Lemma newLine_joins_continuations_witness :
  Stream.newLine ReadCases.findall (Stream.mk (take 2 ReadCases.continued) [])
  = (Done false, Stream.mk [] ["1"; "2"; "3"]) /\
  Stream.newLine ReadCases.findall (Stream.mk ReadCases.continued [])
  = (Done true, Stream.mk ["6"] ["1"; "2"; "3"; "4"; "5"]).
Proof.
  destruct (newLine_joins_continuations ReadCases.findall
              ["1 2 \"; "3 \"] [["1"; "2"]; ["3"]] []) as [H1 H2].
  - repeat constructor.
  - split; [exact H1|].
    apply (H2 "4 5" ["4"; "5"] ["6"]); [reflexivity|discriminate].
Defined.

(** X6. When [SimpleRead2D.readData] returns normally, the matrix it
    leaves in [self.data] has rows of one length and, unless it was
    transposed, at least one row; [self.xgrid] and [self.ygrid], where
    set, passed [utils.checkAscending]; [self.xgrid] has one item more
    than the matrix has columns; and a [ygrid] given by parameter is
    [self.ygrid] and has one item more than the matrix has rows. *)
Theorem readData_leaves_consistent_matrix :
  forall (num : Type) (findall : string -> list string)
         (lower : string -> string) (float : string -> option num)
         (binEdgesFromCentres : list num -> bool -> list num)
         (checkAscending : list num -> bool)
         (add sub : num -> num -> num) (half : num -> num)
         (w : Reader2D.W) (self' : Reader2D.t num) (s' : Stream.t),
    Reader2D.readData findall lower float binEdgesFromCentres checkAscending
      add sub half w = Some (Done tt, (self', s')) ->
    let r := Reader2D.reader self' in
    let d := SimpleRead2D.data r in
    Forall (fun row => length row = SimpleRead2D.ncols d) d /\
    (forall g, SimpleRead2D.xgrid r = Some g -> checkAscending g = true) /\
    (forall g, SimpleRead2D.ygrid r = Some g -> checkAscending g = true) /\
    (SimpleRead2D.transpose (SimpleRead2D.params r) = false -> d <> []) /\
    (d <> [] -> forall g, SimpleRead2D.xgrid r = Some g ->
                          length g = SimpleRead2D.ncols d + 1) /\
    (forall g, SimpleRead2D.p_ygrid (SimpleRead2D.params r) = Some g ->
               SimpleRead2D.ygrid r = Some g /\ length g = length d + 1).
Proof.
  intros num findall lower float binEdges checkAscending add sub half w self' s' H.
  unfold Reader2D.readData, Reader2D.readData_fuel in H.
  destruct (Reader2D.read_rows _ _ _ _ _ _ _ w) as [[[rows|e] [self1 s1]]|];
    [|done|done].
  unfold on_fst in H. simpl in H.
  destruct (Reader2D.finish checkAscending add sub half rows self1)
    as [[[]|e] self2] eqn:Hf; [|done].
  simpl in H. injection H as <- <-.
  by apply (Reader2DFacts.finish_invariants checkAscending add sub half rows self1).
Qed.

(** X7. A stream without lines.  [readData] then has no rows: without
    [gridatedge] it raises [Read2DError] ("No data could be imported"),
    but with [gridatedge] set (and no grid given by parameter) the lookup
    [rows[-1]] comes first and the exception is an [IndexError], with the
    reader object untouched. *)
Theorem readData_without_rows :
  forall (num : Type) (findall : string -> list string)
         (lower : string -> string) (float : string -> option num)
         (binEdgesFromCentres : list num -> bool -> list num)
         (checkAscending : list num -> bool)
         (add sub : num -> num -> num) (half : num -> num)
         (self : Reader2D.t num) (remainingline : list string),
    SimpleRead2D.p_xgrid (Reader2D.params self) = None ->
    SimpleRead2D.p_ygrid (Reader2D.params self) = None ->
    Reader2D.readData findall lower float binEdgesFromCentres checkAscending
      add sub half (self, Stream.mk [] remainingline)
    = Some
        (if SimpleRead2D.gridatedge (Reader2D.params self)
         then (Throw IndexError, (self, Stream.mk [] remainingline))
         else (Throw (Read2DError "No data could be imported for dataset"),
               (Reader2D.with_ygrid None (Reader2D.with_xgrid None self),
                Stream.mk [] remainingline))).
Proof.
  intros num findall lower float binEdges checkAscending add sub half
    self rl Hx Hy.
  unfold Reader2D.readData, Reader2D.readData_fuel. simpl.
  unfold on_fst, Reader2D.finish, Reader2D.grid_at_edge. runfold. unfold id.
  destruct (SimpleRead2D.gridatedge (Reader2D.params self)); [|done].
  by rewrite Hx, Hy.
Qed.

(** X8. A parameter line that holds nothing but the keyword [xrange],
    [yrange], [xgrid] or [ygrid] (in any case that [lower] maps to it)
    makes [readData] raise [IndexError], not [Read2DError]: the [try]
    blocks of the parameter methods catch [ValueError] only.  The line
    stays in the stream's [remainingline] and the reader object is
    untouched. *)
Theorem readData_parameter_without_values :
  forall (num : Type) (findall : string -> list string)
         (lower : string -> string) (float : string -> option num)
         (binEdgesFromCentres : list num -> bool -> list num)
         (checkAscending : list num -> bool)
         (add sub : num -> num -> num) (half : num -> num)
         (self : Reader2D.t num) (line kw : string) (rest : list string),
    Stream.without_comments (findall line) = Some [kw] ->
    kw <> "\" ->
    lower kw ∈ ["xrange"; "yrange"; "xgrid"; "ygrid"] ->
    Reader2D.readData findall lower float binEdgesFromCentres checkAscending
      add sub half (self, Stream.mk (line :: rest) [])
    = Some (Throw IndexError, (self, Stream.mk rest [kw])).
Proof.
  intros num findall lower float binEdges checkAscending add sub half
    self line kw rest Hline Hkw Hname.
  unfold Reader2D.readData, Reader2D.readData_fuel.
  cbn [Stream.file snd length].
  rewrite Reader2DFacts.read_rows_S.
  unfold on_snd at 1, Stream.newLine. cbn [fst snd Stream.file Stream.remainingline].
  cbn [Stream.newLine_from]. rewrite Hline. cbn [app last length pred take].
  rewrite bool_decide_eq_false_2 by congruence.
  cbn [fst snd Stream.remainingline].
  repeat (apply elem_of_cons in Hname as [->|Hname]); [..|by apply elem_of_nil in Hname];
    by destruct self.
Qed.

(** X9. With [gridatedge] and [transpose] both set, [readData] cannot
    get past its checks unless the top row holds as many x positions as
    there are data rows: the grids are not swapped when the matrix is
    transposed, so the x grid taken from the top row is compared with the
    number of columns of the transposed matrix.  A matrix with as many x
    positions as it has columns is rejected whenever it is not square. *)
Theorem gridatedge_transpose_rejected :
  forall (num : Type) (checkAscending : list num -> bool)
         (add sub : num -> num -> num) (half : num -> num)
         (self : Reader2D.t num) (rows : list (list num)),
    SimpleRead2D.gridatedge (Reader2D.params self) = true ->
    SimpleRead2D.transpose (Reader2D.params self) = true ->
    (forall top, last rows = Some top -> length top <> pred (length rows)) ->
    exists e self',
      Reader2D.finish checkAscending add sub half rows self = (Throw e, self').
Proof.
  intros num checkAscending add sub half self rows Hge Htr Htop.
  destruct (Reader2D.finish checkAscending add sub half rows self)
    as [[[]|e] self'] eqn:Hf; [exfalso|by eauto].
  apply Reader2DFacts.finish_done in Hf
    as (rows1 & self1 & Hg & Hne & Hrect & -> & _ & Hlen).
  apply (Reader2DFacts.grid_at_edge_on _ _ _ _ _ _ _ Hge) in Hg
    as (top & xg & Hlast & Hxg & Hx1 & Hrows1 & Hp1 & Hpx).
  set (s3 := Reader2D.oriented (Reader2D.with_data rows1 self1)) in *.
  destruct (Reader2DFacts.copy_grids_fields s3) as (Hp & _).
  destruct (Reader2DFacts.orient_shape
              (Reader2D.reader (Reader2D.with_data rows1 self1)))
    as [Hop _]; [done|done|].
  change (SimpleRead2D.params (SimpleRead2D.orient
            (Reader2D.reader (Reader2D.with_data rows1 self1))))
    with (Reader2D.params s3) in Hop.
  change (SimpleRead2D.params (Reader2D.reader (Reader2D.with_data rows1 self1)))
    with (Reader2D.params self1) in Hop.
  unfold Reader2D.lengths_differ, Reader2D.shape_after in Hlen.
  apply orb_false_iff in Hlen as [Hlx _].
  rewrite Hp, Hop, Hp1, Htr in Hlx.
  rewrite Reader2DFacts.copy_grids_xgrid in Hlx by by rewrite Hop, Hp1.
  pose proof (Reader2DFacts.orient_xgrid_length
                (Reader2D.reader (Reader2D.with_data rows1 self1))) as Hxl.
  change (SimpleRead2D.orient (Reader2D.reader (Reader2D.with_data rows1 self1)))
    with (Reader2D.reader s3) in Hxl.
  change (SimpleRead2D.xgrid (Reader2D.reader (Reader2D.with_data rows1 self1)))
    with (SimpleRead2D.xgrid (Reader2D.reader self1)) in Hxl.
  rewrite Hx1 in Hxl.
  destruct (SimpleRead2D.xgrid (Reader2D.reader s3)) as [g|]; [|done].
  simpl in Hxl, Hlx. injection Hxl as Hxl.
  apply negb_false_iff, Nat.eqb_eq in Hlx.
  apply Reader2DFacts.edge_grid_length in Hxg.
  assert (Hl1 : length rows1 = pred (length rows)).
  { rewrite Hrows1, length_map, length_take. lia. }
  specialize (Htop top Hlast).
  destruct (2 <=? length top)%nat eqn:E; [|apply Nat.leb_gt in E]; lia.
Qed.

(** X10. A stream of lines of numbers, up to the end of the file or a
    blank line, read with no grid and neither [invertcols] nor
    [transpose]: [readData] returns normally with the lines as the rows
    of the matrix in reverse order (the last line read is row 0), or in
    the order of the file when [invertrows] is set; the blank line is
    taken from the stream and the lines after it are left for the next
    dataset. *)
Theorem readData_rows_in_reverse_order :
  forall (num : Type) (findall : string -> list string)
         (lower : string -> string) (float : string -> option num)
         (binEdgesFromCentres : list num -> bool -> list num)
         (checkAscending : list num -> bool)
         (add sub : num -> num -> num) (half : num -> num)
         (self : Reader2D.t num) (lines rest : list string)
         (numrows : list (list num)),
    Forall2 (Reader2D.data_line findall lower float binEdgesFromCentres
               checkAscending) lines numrows ->
    numrows <> [] ->
    Reader2D.rectangular numrows = true ->
    (rest = [] \/
     exists b rest', rest = b :: rest' /\ Reader2D.blank_line findall b) ->
    SimpleRead2D.gridatedge (Reader2D.params self) = false ->
    SimpleRead2D.transpose (Reader2D.params self) = false ->
    SimpleRead2D.invertcols (Reader2D.params self) = false ->
    SimpleRead2D.p_xgrid (Reader2D.params self) = None ->
    SimpleRead2D.p_ygrid (Reader2D.params self) = None ->
    exists self',
      Reader2D.readData findall lower float binEdgesFromCentres checkAscending
        add sub half (self, Stream.mk (lines ++ rest) [])
      = Some (Done tt, (self', Stream.mk (drop 1 rest) [])) /\
      SimpleRead2D.data (Reader2D.reader self')
      = (if SimpleRead2D.invertrows (Reader2D.params self)
         then numrows else reverse numrows) /\
      SimpleRead2D.xgrid (Reader2D.reader self') = None /\
      SimpleRead2D.ygrid (Reader2D.reader self') = None /\
      Reader2D.params self' = Reader2D.params self.
Proof.
  intros num findall lower float binEdges checkAscending add sub half
    self lines rest numrows Hlines Hne Hrect Hrest Hge Htr Hic Hpx Hpy.
  unfold Reader2D.readData, Reader2D.readData_fuel.
  rewrite (Reader2DFacts.read_rows_data_lines _ _ _ _ _ _ _ _ _ Hlines Hrest);
    [|cbn [snd Stream.file]; rewrite length_app; lia|by left].
  rewrite app_nil_r. unfold on_fst. cbn [fst snd].
  set (self1 := Reader2D.with_ygrid None (Reader2D.with_xgrid None self)).
  set (self' := Reader2D.copy_grids
                  (Reader2D.oriented (Reader2D.with_data (reverse numrows) self1))).
  assert (Hfields :
            SimpleRead2D.data (Reader2D.reader self')
            = (if SimpleRead2D.invertrows (Reader2D.params self)
               then numrows else reverse numrows) /\
            SimpleRead2D.xgrid (Reader2D.reader self') = None /\
            SimpleRead2D.ygrid (Reader2D.reader self') = None /\
            Reader2D.params self' = Reader2D.params self).
  { subst self' self1. destruct self as [[[px py ir ic tr ge] d xg yg] xr yr].
    unfold Reader2D.params in *. simpl in *. subst.
    unfold Reader2D.copy_grids, Reader2D.oriented, Reader2D.params,
      SimpleRead2D.orient, SimpleRead2D.transpose_step,
      SimpleRead2D.invertrows_step, SimpleRead2D.invertcols_step.
    simpl. destruct ir; simpl; by rewrite ?reverse_involutive. }
  destruct Hfields as (Hd & Hx & Hy & Hp).
  assert (Hfin : Reader2D.finish checkAscending add sub half (reverse numrows) self
                 = (Done tt, self')).
  { apply Reader2DFacts.finish_done. exists (reverse numrows), self1.
    split_and!.
    - unfold Reader2D.grid_at_edge. runfold. unfold id. by rewrite Hge.
    - intros E. apply (f_equal length) in E. rewrite length_reverse in E.
      by destruct numrows.
    - by apply Reader2DFacts.rectangular_reverse.
    - done.
    - unfold Reader2D.ascending. by rewrite Hx, Hy.
    - unfold Reader2D.lengths_differ. rewrite Hx, Hp, Hpy. done. }
  rewrite Hfin. by exists self'.
Qed.

Lemma readData_leaves_consistent_matrix_witness :
  ReadCases.readData (ReadCases.reader0, Stream.mk ReadCases.two_matrices [])
  = Some (Done tt,
          (Reader2D.with_data [[4; 5; 6]; [1; 2; 3]]%Z ReadCases.reader0,
           Stream.mk ["7 8"] [])) /\
  Forall (fun row : list Z => length row = 3%nat) [[4; 5; 6]; [1; 2; 3]]%Z.
Proof.
  split; [vm_compute; reflexivity|].
  apply (readData_leaves_consistent_matrix Z ReadCases.findall id
           ReadCases.float ReadCases.binEdgesFromCentres
           ReadCases.checkAscending Z.add Z.sub ReadCases.half
           (ReadCases.reader0, Stream.mk ReadCases.two_matrices [])
           (Reader2D.with_data [[4; 5; 6]; [1; 2; 3]]%Z ReadCases.reader0)
           (Stream.mk ["7 8"] [])).
  vm_compute. reflexivity.
Defined.

Lemma readData_without_rows_witness :
  ReadCases.readData (ReadCases.reader_edge_transposed, Stream.mk [] [])
  = Some (Throw IndexError, (ReadCases.reader_edge_transposed, Stream.mk [] [])).
Proof.
  apply (readData_without_rows Z ReadCases.findall id
           ReadCases.float ReadCases.binEdgesFromCentres
           ReadCases.checkAscending Z.add Z.sub ReadCases.half
           ReadCases.reader_edge_transposed []); reflexivity.
Defined.

Lemma readData_parameter_without_values_witness :
  ReadCases.readData (ReadCases.reader0, Stream.mk ["xrange"; "1 2"] [])
  = Some (Throw IndexError, (ReadCases.reader0, Stream.mk ["1 2"] ["xrange"])).
Proof.
  apply (readData_parameter_without_values Z ReadCases.findall id
           ReadCases.float ReadCases.binEdgesFromCentres
           ReadCases.checkAscending Z.add Z.sub ReadCases.half
           ReadCases.reader0 "xrange" "xrange" ["1 2"]).
  - vm_compute. reflexivity.
  - discriminate.
  - apply elem_of_cons. left. reflexivity.
Defined.

Lemma gridatedge_transpose_rejected_witness :
  exists e self',
    Reader2D.finish ReadCases.checkAscending Z.add Z.sub ReadCases.half
      ReadCases.edge_rows ReadCases.reader_edge_transposed = (Throw e, self').
Proof.
  apply (gridatedge_transpose_rejected Z ReadCases.checkAscending Z.add Z.sub
           ReadCases.half ReadCases.reader_edge_transposed ReadCases.edge_rows).
  - reflexivity.
  - reflexivity.
  - intros top H. vm_compute in H. injection H as <-. simpl. lia.
Defined.

Lemma readData_rows_in_reverse_order_witness :
  exists self',
    ReadCases.readData (ReadCases.reader0, Stream.mk ReadCases.two_matrices [])
    = Some (Done tt, (self', Stream.mk ["7 8"] [])) /\
    SimpleRead2D.data (Reader2D.reader self') = [[4; 5; 6]; [1; 2; 3]]%Z /\
    SimpleRead2D.xgrid (Reader2D.reader self') = None /\
    SimpleRead2D.ygrid (Reader2D.reader self') = None /\
    Reader2D.params self' = ReadCases.params0.
Proof.
  apply (readData_rows_in_reverse_order Z ReadCases.findall id
           ReadCases.float ReadCases.binEdgesFromCentres
           ReadCases.checkAscending Z.add Z.sub ReadCases.half
           ReadCases.reader0 ["1 2 3"; "4 5 6"] [""; "7 8"]
           [[1; 2; 3]; [4; 5; 6]]%Z).
  - repeat constructor.
    + exists ["1"; "2"; "3"]. split_and!; try (vm_compute; reflexivity);
        try discriminate.
      intros c0 H. injection H as <-. vm_compute. reflexivity.
    + exists ["4"; "5"; "6"]. split_and!; try (vm_compute; reflexivity);
        try discriminate.
      intros c0 H. injection H as <-. vm_compute. reflexivity.
  - discriminate.
  - reflexivity.
  - right. exists "", ["7 8"]. split; reflexivity.
  - reflexivity.
  - reflexivity.
  - reflexivity.
  - reflexivity.
  - reflexivity.
Defined.

(** ** The descriptor *)

Module DescriptorFacts.
Section Interpret.
Variable range_re_match : string -> option (option Z * option Z).

Local Abbreviation step := (Descriptor.step range_re_match).
Local Abbreviation loop := (Descriptor.loop range_re_match).

Lemma last_char_nonempty s : s <> "" -> is_Some (last_char s).
Proof.
  induction s as [|c s IH]; [done|]. intros _. simpl.
  destruct s; [by eexists|]. by apply IH.
Qed.

Local Abbreviation inv := Descriptor.inv.

Lemma inv_append_column c a :
  Descriptor.mark c -> inv a -> inv (Descriptor.append_column c a).
Proof.
  intros Hc (Hp & Ht & Hn). split_and!; [done|done|]. simpl.
  unfold inv in *.
  destruct (Descriptor.name a).
  - destruct Hn as (pre & post & -> & Hpre & Hpost & Hne).
    exists pre, (post ++ [c]). split_and!; try done.
    + by rewrite <- app_assoc.
    + apply Forall_app. by split; [|constructor].
  - destruct Hn as [-> Hcols]. split; [done|].
    apply Forall_app. by split; [|constructor].
Qed.

Lemma init_columns n d cs r :
  DescriptorPart.columns (DescriptorPart.init n d cs r) = cs.
Proof. by destruct r as [[]|]. Qed.

Lemma step_inv prev token a :
  token <> "" -> inv a ->
  exists a', step prev token a = inr a' /\ inv a'.
Proof.
  intros Hne Ha. unfold Descriptor.step.
  assert (Hmark : forall c, c ∈ [","; "+"; "-"; "+-"] -> Descriptor.mark c)
    by done.
  case_decide.
  { eexists; split; [done|]. case_decide; [|done].
    apply inv_append_column; [|done]. apply Hmark. set_solver. }
  case_decide.
  { eexists; split; [done|]. case_decide; [|done].
    apply inv_append_column; [|done]. apply Hmark. set_solver. }
  destruct token as [|c0 token']; [done|]. cbn [first_char].
  destruct (last_char_nonempty (String c0 token') Hne) as [cl ->].
  destruct (if decide _ then _ else None) as [dt|].
  { eexists; split; [done|]. by destruct Ha as (? & ? & ?). }
  case_decide as Herr.
  { eexists; split; [done|]. apply inv_append_column; [|done].
    apply Hmark. set_solver. }
  destruct (range_re_match _) as [[g1 g2]|].
  { eexists; split; [done|]. by destruct Ha as (? & ? & ?). }
  eexists; split; [done|].
  destruct Ha as (Hp & Ht & Hn). unfold Descriptor.add_previous.
  destruct (Descriptor.name a) as [n|]; cbn.
  - destruct Hn as (pre & post & Hcols & Hpre & Hpost & Hnil).
    split_and!.
    + apply Forall_app. split; [done|]. constructor; [|done].
      exists pre, post. by rewrite init_columns.
    + destruct (Descriptor.parts a) as [|p0 ps] eqn:Eps; [done|].
      cbn in *. apply Forall_app. split; [done|]. constructor; [|done].
      rewrite init_columns, Hcols, (Hnil ltac:(done)). done.
    + by exists [], [].
  - destruct Hn as [Hparts Hcols]. split_and!; try done.
    by exists (Descriptor.columns a), [].
Qed.

Lemma loop_inv tokens :
  Forall (fun t => t <> "") tokens ->
  forall prev a, inv a -> exists a', loop prev tokens a = inr a' /\ inv a'.
Proof.
  induction 1 as [|t tokens Ht _ IH]; intros prev a Ha; simpl.
  - by exists a.
  - destruct (step_inv prev t a Ht Ha) as (a1 & -> & Ha1). by apply IH.
Qed.

Lemma tokens_nonempty (split : string -> list string) descr :
  Forall (fun t => t <> "") (Descriptor.tokens_of split descr).
Proof.
  unfold Descriptor.tokens_of. apply Forall_app. split.
  - apply Forall_forall. by intros t [Ht _]%list_elem_of_filter.
  - by constructor.
Qed.

Lemma interpretDescriptor_ok (split : string -> list string) descr :
  exists parts,
    Descriptor.interpretDescriptor split range_re_match descr = inr parts /\
    Forall Descriptor.well_formed parts /\
    Forall (fun p => head (DescriptorPart.columns p) = Some "D") (tail parts).
Proof.
  unfold Descriptor.interpretDescriptor.
  destruct (loop_inv (Descriptor.tokens_of split descr)
              (tokens_nonempty split descr)
              None (Descriptor.mkAcc [] None None None []))
    as (a & -> & Hp & Ht & _).
  - split_and!; by try constructor.
  - by exists (Descriptor.parts a).
Qed.

Lemma well_formed_cols_ok parts :
  Forall Descriptor.well_formed parts -> DescriptorPart.cols_ok parts.
Proof.
  intros H. eapply Forall_impl; [exact H|].
  intros p (pre & post & -> & _). by destruct pre.
Qed.

End Interpret.
End DescriptorFacts.

(** X12. [interpretDescriptor] never raises, whatever the descriptor and
    whatever the regular expressions match.  Every part it returns has
    exactly one data column ['D'] among its columns, the others being
    the marks [','], ['+'], ['-'] and ['+-']; in every part but the first
    the data column comes first.  (Marks written before the first name
    are columns of the first part, in front of its data column.) *)
Theorem interpretDescriptor_parts_well_formed :
  forall (split : string -> list string)
         (range_re_match : string -> option (option Z * option Z))
         (descr : string),
    exists parts,
      Descriptor.interpretDescriptor split range_re_match descr = inr parts /\
      Forall Descriptor.well_formed parts /\
      Forall (fun p => head (DescriptorPart.columns p) = Some "D") (tail parts).
Proof.
  intros split range_re_match descr.
  apply DescriptorFacts.interpretDescriptor_ok.
Qed.

(** ** Strings *)

Lemma string_app_cons (c : ascii) (s1 s2 : string) :
  String c s1 +:+ s2 = String c (s1 +:+ s2).
Proof. reflexivity. Qed.

Lemma string_length_app (s1 s2 : string) :
  String.length (s1 +:+ s2) = String.length s1 + String.length s2.
Proof.
  induction s1 as [|c s1 IH]; [done|].
  rewrite string_app_cons. cbn [String.length]. by rewrite IH.
Qed.

Lemma string_app_inj_r (s1 s2 r : string) : s1 +:+ r = s2 +:+ r -> s1 = s2.
Proof.
  revert s2. induction s1 as [|c s1 IH]; intros [|c2 s2] H.
  - done.
  - apply (f_equal String.length) in H.
    rewrite !string_length_app in H. cbn [String.length] in H. lia.
  - apply (f_equal String.length) in H.
    rewrite !string_length_app in H. cbn [String.length] in H. lia.
  - rewrite !string_app_cons in H. injection H as -> H. f_equal. by apply IH.
Qed.

(** ** Reading 1D data *)

Module Reader1DFacts.
Section Reader.
Context {value : Type}.
Variable float : string -> option value.
Variable nan : value.
Variable lower : string -> string.
Variable string_re_match : string -> bool.
Variable py_eval : string -> option value.
Variable of_str : string -> value.
Variable isDateTime : string -> bool.
Variable dateStringToDate : string -> value.

Local Abbreviation guessDataType :=
  (Reader1D.guessDataType float lower string_re_match isDateTime).
Local Abbreviation convert :=
  (Reader1D.convert float nan lower string_re_match py_eval of_str isDateTime
     dateStringToDate).
Local Abbreviation read_columns :=
  (Reader1D.read_columns float nan lower string_re_match py_eval of_str
     isDateTime dateStringToDate).
Local Abbreviation read_indices :=
  (Reader1D.read_indices float nan lower string_re_match py_eval of_str
     isDateTime dateStringToDate).
Local Abbreviation invalid := (Reader1D.invalid float).

Local Abbreviation reads := (Reader1D.reads float lower string_re_match isDateTime).

Lemma convert_spec val p :
  let r := convert val p in
  let dt := default (guessDataType val) (DescriptorPart.datatype p) in
  r.1 = DescriptorPart.with_errorcount
          (DescriptorPart.errorcount p +
           (if decide (dt = dt_float /\ float val = None) then 1 else 0))
          (DescriptorPart.with_datatype (Some dt) p).
Proof.
  unfold Reader1D.convert, Reader1D.guess, Reader1D.convert_as.
  destruct p as [n [d|] cs ec sg a b]; cbn.
  - destruct d; cbn; [destruct (float val) eqn:E; cbn|..].
    + rewrite decide_False by (intros [_ ?]; congruence).
      unfold DescriptorPart.with_errorcount, DescriptorPart.with_datatype.
      cbn. by rewrite Nat.add_0_r.
    + by rewrite decide_True.
    + rewrite decide_False by (intros [? _]; congruence).
      unfold DescriptorPart.with_errorcount, DescriptorPart.with_datatype.
      cbn. by rewrite Nat.add_0_r.
    + rewrite decide_False by (intros [? _]; congruence).
      unfold DescriptorPart.with_errorcount, DescriptorPart.with_datatype.
      cbn. by rewrite Nat.add_0_r.
  - destruct (guessDataType val) eqn:G; cbn;
      [destruct (float val) eqn:E; cbn|..].
    + rewrite decide_False by (intros [_ ?]; congruence).
      unfold DescriptorPart.with_errorcount, DescriptorPart.with_datatype.
      cbn. by rewrite Nat.add_0_r.
    + by rewrite decide_True.
    + rewrite decide_False by (intros [? _]; congruence).
      unfold DescriptorPart.with_errorcount, DescriptorPart.with_datatype.
      cbn. by rewrite Nat.add_0_r.
    + rewrite decide_False by (intros [? _]; congruence).
      unfold DescriptorPart.with_errorcount, DescriptorPart.with_datatype.
      cbn. by rewrite Nat.add_0_r.
Qed.

Lemma reads_refl st : reads 0 st st.
Proof.
  unfold Reader1D.reads. rewrite drop_0, take_0. cbn.
  split_and!; try done.
  - by destruct (Reader1D.self st).
  - by destruct (DescriptorPart.datatype (Reader1D.self st)).
  - case_decide; lia.
Qed.

Lemma read_columns_spec name cols :
  forall st,
    let r := read_columns name cols st in
    reads (length cols) st r.2 /\
    r.1 = bool_decide
            (length cols <= length (Stream.remainingline (Reader1D.stream st))).
Proof.
  induction cols as [|col cols IH]; intros st; cbn.
  - split; [apply reads_refl|]. by rewrite bool_decide_eq_true_2 by lia.
  - destruct st as [p [file rl] ds]. unfold Stream.nextColumn. cbn.
    destruct rl as [|val rl]; cbn.
    { split; [|done]. unfold Reader1D.reads. cbn.
      split_and!; try done.
      - by destruct p.
      - by destruct (DescriptorPart.datatype p).
      - case_decide; lia. }
    pose proof (convert_spec val p) as Hc. cbn in Hc.
    destruct (convert val p) as [p1 dat]. cbn in Hc.
    match goal with
    | |- context [read_columns name cols ?s] =>
        specialize (IH s); destruct (read_columns name cols s) as [b st']
    end.
    cbn in IH. destruct IH as [(Hf & Hrl & Hp & Hdt & Hec & Hds) Hb].
    cbn in *. split.
    2:{ rewrite Hb. apply bool_decide_ext. lia. }
    unfold Reader1D.reads. cbn.
    assert (Hdt1 : DescriptorPart.datatype p1
                   = Some (default (guessDataType val)
                             (DescriptorPart.datatype p)))
      by (rewrite Hc; by destruct p).
    rewrite Hdt1 in Hdt.
    split_and!; try done.
    + rewrite Hp, Hc. by destruct p.
    + rewrite Hdt. by destruct (DescriptorPart.datatype p).
    + rewrite Hec, Hdt, Hc. destruct p as [n d cs ec sg a b']; cbn.
      unfold Reader1D.invalid. clear.
      destruct (decide (float val = None)) as [Hv|Hv];
        repeat case_decide; cbn; try lia.
      all: try (exfalso; destruct_and?; simplify_eq; congruence).
      all: try (exfalso;
                match goal with
                | H : ~ (_ /\ _) |- _ => apply H; split; congruence
                end).
      all: rewrite ?Nat.add_0_r, ?Nat.add_1_r, ?Nat.add_succ_l, ?Nat.add_succ_r;
        reflexivity.
    + intros key. etrans; [|apply Hds]. unfold Reader1D.Datasets in *.
      destruct (decide (key = name +:+ NUL +:+ col)) as [->|Hk].
      * rewrite lookup_insert_eq. cbn. by apply prefix_app_r.
      * by rewrite lookup_insert_ne.
Qed.

Lemma reads_static k st st' :
  reads k st st' ->
  DescriptorPart.columns (Reader1D.self st')
  = DescriptorPart.columns (Reader1D.self st) /\
  DescriptorPart.stopindex (Reader1D.self st')
  = DescriptorPart.stopindex (Reader1D.self st) /\
  DescriptorPart.startindex (Reader1D.self st')
  = DescriptorPart.startindex (Reader1D.self st) /\
  DescriptorPart.name (Reader1D.self st')
  = DescriptorPart.name (Reader1D.self st) /\
  DescriptorPart.single (Reader1D.self st')
  = DescriptorPart.single (Reader1D.self st).
Proof. intros (_ & _ & -> & _). by destruct (Reader1D.self st). Qed.

Lemma reads_trans k1 k2 st st1 st2 :
  reads k1 st st1 -> reads k2 st1 st2 -> reads (k1 + k2) st st2.
Proof.
  intros (Hf1 & Hrl1 & Hp1 & Hdt1 & Hec1 & Hds1)
         (Hf2 & Hrl2 & Hp2 & Hdt2 & Hec2 & Hds2).
  set (rl := Stream.remainingline (Reader1D.stream st)) in *.
  rewrite Hrl1 in Hrl2, Hdt2, Hec2.
  assert (Htake : take (k1 + k2) rl = take k1 rl ++ take k2 (drop k1 rl))
    by by rewrite take_take_drop.
  assert (Hdt : DescriptorPart.datatype (Reader1D.self st2)
                = match DescriptorPart.datatype (Reader1D.self st),
                        take (k1 + k2) rl with
                  | Some d, _ => Some d
                  | None, v :: _ => Some (guessDataType v)
                  | None, [] => None
                  end).
  { rewrite Hdt2, Hdt1, Htake.
    destruct (DescriptorPart.datatype (Reader1D.self st)); [done|].
    by destruct (take k1 rl). }
  unfold Reader1D.reads. fold rl. split_and!.
  - congruence.
  - by rewrite Hrl2, drop_drop.
  - rewrite Hp2 at 1. rewrite Hp1. by destruct (Reader1D.self st).
  - done.
  - rewrite Hec2, Hec1, Htake. unfold Reader1D.invalid.
    rewrite filter_app, length_app.
    destruct (decide (DescriptorPart.datatype (Reader1D.self st2)
                      = Some dt_float)) as [E2|E2].
    + destruct (decide (DescriptorPart.datatype (Reader1D.self st1)
                        = Some dt_float)) as [E1|E1]; [lia|].
      rewrite Hdt1 in E1, Hdt2.
      destruct (DescriptorPart.datatype (Reader1D.self st)) as [d|].
      { congruence. }
      destruct (take k1 rl); [simpl; lia|congruence].
    + destruct (decide (DescriptorPart.datatype (Reader1D.self st1)
                        = Some dt_float)) as [E1|E1]; [|lia].
      rewrite E1 in Hdt2. congruence.
  - intros key. etrans; [apply Hds1|apply Hds2].
Qed.

Lemma reads_ge k k' st st' :
  reads k st st' ->
  length (Stream.remainingline (Reader1D.stream st)) <= k -> k <= k' ->
  reads k' st st'.
Proof.
  intros (Hf & Hrl & Hp & Hdt & Hec & Hds) Hk Hk'.
  unfold Reader1D.reads.
  rewrite (take_ge _ k) in Hdt, Hec by done.
  rewrite (drop_ge _ k) in Hrl by done.
  rewrite (take_ge _ k'), (drop_ge _ k') by lia. done.
Qed.

Lemma read_indices_spec block fuel :
  forall index st,
    DescriptorPart.columns (Reader1D.self st) <> [] ->
    length (Stream.remainingline (Reader1D.stream st)) < fuel ->
    exists st',
      read_indices fuel index block st = Some st' /\
      reads (length (DescriptorPart.columns (Reader1D.self st))
             * Z.to_nat (DescriptorPart.stopindex (Reader1D.self st) + 1 - index))
        st st'.
Proof.
  induction fuel as [|fuel IH]; intros index st Hcols Hfuel; [lia|].
  cbn [Reader1D.read_indices].
  destruct (Z.ltb_spec (DescriptorPart.stopindex (Reader1D.self st)) index)
    as [Hlt|Hle].
  { exists st. split; [done|].
    rewrite Z2Nat.nonpos, Nat.mul_0_r by lia. apply reads_refl. }
  destruct (read_columns_spec
              (Reader1D.part_name (Reader1D.self st) index block)
              (DescriptorPart.columns (Reader1D.self st)) st) as [Hr Hb].
  cbn zeta in Hr, Hb.
  destruct (read_columns _ _ st) as [b st1]. cbn [fst snd] in Hr, Hb.
  set (cols := DescriptorPart.columns (Reader1D.self st)) in *.
  set (stop := DescriptorPart.stopindex (Reader1D.self st)) in *.
  assert (Hn : Z.to_nat (stop + 1 - index)
               = S (Z.to_nat (stop + 1 - (index + 1)))) by lia.
  assert (Hcl : 0 < length cols) by (destruct cols; [done|simpl; lia]).
  destruct b.
  - symmetry in Hb. apply bool_decide_eq_true in Hb.
    destruct (reads_static _ _ _ Hr) as (Hc1 & Hs1 & _).
    destruct (IH (index + 1)%Z st1) as (st2 & Hrun & Hr2).
    + by rewrite Hc1.
    + destruct Hr as (_ & -> & _). rewrite length_drop. lia.
    + exists st2. split; [done|].
      rewrite Hc1, Hs1 in Hr2. fold cols stop in Hr2.
      rewrite Hn, Nat.mul_succ_r, Nat.add_comm.
      by eapply reads_trans.
  - symmetry in Hb. apply bool_decide_eq_false in Hb.
    exists st1. split; [done|].
    eapply reads_ge; [done|lia|]. rewrite Hn. nia.
Qed.

End Reader.

(** *** Setting the data in the document *)

Section Setting.
Context {value : Type}.

Lemma minlength_le (l : list (option (list value))) d :
  Some d ∈ l -> (0 <= Reader1D.minlength l <= Z.of_nat (length d))%Z.
Proof.
  unfold Reader1D.minlength.
  assert (Hgen : forall (m0 : Z),
             (0 <= m0)%Z ->
             let m := foldl (fun m ds =>
                        match ds with
                        | Some d => if (Z.of_nat (length d) <? m)%Z
                                    then Z.of_nat (length d) else m
                        | None => m
                        end) m0 l in
             (0 <= m <= m0)%Z /\
             forall d : list value, Some d ∈ l -> (m <= Z.of_nat (length d))%Z).
  { induction l as [|x l IH]; intros m0 Hm0; cbn.
    - split; [lia|]. by intros d' ?%elem_of_nil.
    - destruct x as [dx|].
      + destruct (Z.ltb_spec (Z.of_nat (length dx)) m0).
        * destruct (IH (Z.of_nat (length dx)) ltac:(lia)) as [Hm Hall].
          split; [lia|]. intros d' [Hd|Hd]%elem_of_cons; [|by apply Hall].
          injection Hd as ->. lia.
        * destruct (IH m0 Hm0) as [Hm Hall].
          split; [lia|]. intros d' [Hd|Hd]%elem_of_cons; [|by apply Hall].
          injection Hd as ->. lia.
      + destruct (IH m0 Hm0) as [Hm Hall]. split; [done|].
        intros d' [Hd|Hd]%elem_of_cons; [done|by apply Hall]. }
  intros Hd. destruct (Hgen 99999999999999%Z ltac:(lia)) as [Hm Hall].
  specialize (Hall d Hd). lia.
Qed.

Lemma length_cut (m : Z) (d : list value) :
  (0 <= m <= Z.of_nat (length d))%Z ->
  length (Reader1D.cut m d) = Z.to_nat m.
Proof.
  intros Hm. unfold Reader1D.cut. case_decide; [lia|].
  rewrite length_take. lia.
Qed.

Lemma cut_prefix (m : Z) (d : list value) : Reader1D.cut m d `prefix_of` d.
Proof. unfold Reader1D.cut. case_decide; [done|apply prefix_take]. Qed.

Lemma length_last_values tail (d1 d2 : list value) :
  length d1 = length d2 ->
  length (Reader1D.last_values tail d1) = length (Reader1D.last_values tail d2).
Proof.
  intros H. destruct tail as [n|]; [|done]. cbn.
  unfold py_slice_from. rewrite !length_drop, H. done.
Qed.

Lemma cut_in_lookup m key (ds : Reader1D.Datasets value) k :
  Reader1D.cut_in m key ds !! k
  = if decide (k = key) then Reader1D.cut m <$> ds !! k else ds !! k.
Proof.
  unfold Reader1D.cut_in, Reader1D.Datasets in *.
  destruct (ds !! key) as [d|] eqn:E; case_decide as Hk; try subst k.
  - by rewrite lookup_insert_eq, E.
  - by rewrite lookup_insert_ne.
  - by rewrite E.
  - done.
Qed.

Lemma cut_in_prefix m key (ds : Reader1D.Datasets value) k :
  option_Forall2 prefix (Reader1D.cut_in m key ds !! k) (ds !! k).
Proof.
  rewrite cut_in_lookup. unfold Reader1D.Datasets in *.
  case_decide; destruct (ds !! k); cbn; constructor;
    [apply cut_prefix|done].
Qed.

Lemma option_Forall2_prefix_trans (a b c : option (list value)) :
  option_Forall2 prefix a b -> option_Forall2 prefix b c ->
  option_Forall2 prefix a c.
Proof.
  intros [x y Hxy|] Hbc; inversion Hbc; subst; constructor. by etrans.
Qed.

Lemma set_one_spec dt linkedfile pre suf tail name
    (ds : Reader1D.Datasets value) :
  match Reader1D.set_one dt linkedfile pre suf tail name ds with
  | None => ds !! (name +:+ NUL +:+ "D") = None
  | Some (finalname, made, ds') =>
      finalname = pre +:+ name +:+ suf /\
      is_Some (ds !! (name +:+ NUL +:+ "D")) /\
      Reader1D.equal_lengths made /\
      forall k, option_Forall2 prefix (ds' !! k) (ds !! k)
  end.
Proof.
  unfold Reader1D.set_one, Reader1D.Datasets in *.
  destruct (ds !! (name +:+ NUL +:+ "D")) as [vals|] eqn:EV; [|done].
  set (pos := ds !! (name +:+ NUL +:+ "+")).
  set (neg := ds !! (name +:+ NUL +:+ "-")).
  set (sym := ds !! (name +:+ NUL +:+ "+-")).
  set (m := Reader1D.minlength [Some vals; pos; neg; sym]).
  split_and!; [done|by eexists| |].
  - assert (Hlen : forall e l, e ∈ [sym; neg; pos] -> e = Some l ->
               length (Reader1D.last_values tail (Reader1D.cut m l))
               = length (Reader1D.last_values tail (Reader1D.cut m vals))).
    { intros e l He ->. apply length_last_values.
      rewrite !length_cut; [done|apply minlength_le..]; set_solver. }
    destruct dt; cbn; [|done|done].
    intros e l He Hl.
    assert (exists e0 l0, e0 ∈ [sym; neg; pos] /\ e0 = Some l0 /\
              l = Reader1D.last_values tail (Reader1D.cut m l0))
      as (e0 & l0 & He0 & Hl0 & ->).
    { repeat (apply elem_of_cons in He as [->|He]);
        [..|by apply elem_of_nil in He].
      - destruct sym as [l0|] eqn:E; [|done]. injection Hl as <-.
        exists (Some l0), l0. split_and!; [set_solver|done|done].
      - destruct neg as [l0|] eqn:E; [|done]. injection Hl as <-.
        exists (Some l0), l0. split_and!; [set_solver|done|done].
      - destruct pos as [l0|] eqn:E; [|done]. injection Hl as <-.
        exists (Some l0), l0. split_and!; [set_solver|done|done]. }
    by eapply Hlen.
  - intros k.
    eapply option_Forall2_prefix_trans; [apply cut_in_prefix|].
    eapply option_Forall2_prefix_trans; [apply cut_in_prefix|].
    eapply option_Forall2_prefix_trans; [apply cut_in_prefix|].
    apply cut_in_prefix.
Qed.

Lemma data_key_inj p block i j :
  DescriptorPart.single p = false ->
  Reader1D.data_key p block i = Reader1D.data_key p block j -> i = j.
Proof.
  unfold Reader1D.data_key, Reader1D.part_name. intros -> H.
  apply string_app_inj_r in H.
  destruct block as [b|]; [apply string_app_inj_r in H|];
    by repeat apply String.app_inj in H; apply (inj pretty) in H.
Qed.

Section SetInDocument.
Variable p : DescriptorPart.t.
Variable dt : DataType.
Variable block : option Z.
Variable linkedfile : option nat.
Variable pre suf : string.
Variable tail : option Z.

Local Abbreviation set_indices :=
  (Reader1D.set_indices p dt block linkedfile pre suf tail).
Local Abbreviation data_key := (Reader1D.data_key p block).
Local Abbreviation final_name := (Reader1D.final_name p block pre suf).

Lemma set_indices_spec fuel :
  forall index names (ds : Reader1D.Datasets value) doc names' ds' doc',
    set_indices fuel index names ds doc = Some (names', (ds', doc')) ->
    exists (n : nat) new,
      names' = names ++ new.*1 /\
      doc' = doc ++ new /\
      new.*1 = final_name <$> seqZ index (Z.of_nat n) /\
      Forall Reader1D.equal_lengths new.*2 /\
      (forall i, (index <= i < index + Z.of_nat n)%Z ->
                 is_Some (ds !! data_key i)) /\
      ((index + Z.of_nat n <= DescriptorPart.stopindex p)%Z ->
       ds !! data_key (index + Z.of_nat n) = None) /\
      ((index <= DescriptorPart.stopindex p + 1)%Z ->
       (index + Z.of_nat n <= DescriptorPart.stopindex p + 1)%Z) /\
      forall k, option_Forall2 prefix (ds' !! k) (ds !! k).
Proof.
  induction fuel as [|fuel IH]; intros index names ds doc names' ds' doc' H;
    cbn [Reader1D.set_indices] in H;
    destruct (Z.ltb_spec (DescriptorPart.stopindex p) index) as [Hlt|Hle].
  1,3: injection H as <- <- <-; exists 0, [];
    rewrite !app_nil_r, Z.add_0_r; split_and!; try done; try lia;
    intros k; unfold Reader1D.Datasets in *; by destruct (ds !! k); constructor.
  { done. }
  pose proof (set_one_spec dt linkedfile pre suf tail
                (Reader1D.part_name p index block) ds) as Hone.
  destruct (Reader1D.set_one _ _ _ _ _ _ ds) as [[[fn made] ds1]|].
  2:{ injection H as <- <- <-. exists 0, [].
      rewrite !app_nil_r, Z.add_0_r. split_and!; try done; try lia. }
  destruct Hone as (Hfn & Hsome & Heq & Hpre).
  apply IH in H as (n & new & -> & -> & Hnames & Hall & His & Hnone & Hbound & Hpre').
  exists (S n), ((fn, made) :: new). split_and!.
  - by rewrite <- app_assoc.
  - by rewrite <- app_assoc.
  - rewrite seqZ_cons by lia. cbn. rewrite Hnames, Hfn.
    do 3 f_equal; lia.
  - by constructor.
  - intros i Hi. destruct (decide (i = index)) as [->|Hne]; [done|].
    destruct (His i ltac:(lia)) as [l Hl].
    specialize (Hpre (data_key i)). rewrite Hl in Hpre.
    inversion Hpre. by eexists.
  - intros Hstop.
    replace (index + Z.of_nat (S n))%Z with (index + 1 + Z.of_nat n)%Z by lia.
    specialize (Hnone ltac:(lia)).
    specialize (Hpre (data_key (index + 1 + Z.of_nat n))).
    rewrite Hnone in Hpre. by inversion Hpre.
  - intros _. specialize (Hbound ltac:(lia)). lia.
  - intros k. eapply option_Forall2_prefix_trans; [apply Hpre'|apply Hpre].
Qed.

Lemma seen_bound (ds : Reader1D.Datasets value) (seen : list Z) :
  DescriptorPart.single p = false ->
  NoDup seen ->
  (forall i, i ∈ seen -> is_Some (ds !! data_key i)) ->
  length seen <= size ds.
Proof.
  intros Hs Hnd Hin. unfold Reader1D.Datasets in *.
  rewrite <- (length_map_to_list ds), <- (length_fmap fst (map_to_list ds)),
    <- (length_fmap data_key seen).
  apply submseteq_length, NoDup_submseteq.
  - apply NoDup_fmap_2_strong; [|done].
    intros i j _ _. by apply data_key_inj.
  - intros k (i & -> & Hi)%list_elem_of_fmap.
    destruct (Hin i Hi) as [l Hl].
    apply list_elem_of_fmap. exists (data_key i, l). split; [done|].
    by apply elem_of_map_to_list.
Qed.

Lemma set_indices_fuel fuel :
  DescriptorPart.single p = false ->
  forall index names (ds : Reader1D.Datasets value) doc (seen : list Z),
    NoDup seen ->
    (forall i, i ∈ seen -> (i < index)%Z /\ is_Some (ds !! data_key i)) ->
    size ds < fuel + length seen ->
    is_Some (set_indices fuel index names ds doc).
Proof.
  intros Hs.
  induction fuel as [|fuel IH]; intros index names ds doc seen Hnd Hseen Hsize;
    cbn [Reader1D.set_indices];
    destruct (Z.ltb_spec (DescriptorPart.stopindex p) index) as [Hlt|Hle];
    try by eexists.
  { pose proof (seen_bound ds seen Hs Hnd (fun i Hi => proj2 (Hseen i Hi))).
    lia. }
  pose proof (set_one_spec dt linkedfile pre suf tail
                (Reader1D.part_name p index block) ds) as Hone.
  destruct (Reader1D.set_one _ _ _ _ _ _ ds) as [[[fn made] ds1]|];
    [|by eexists].
  destruct Hone as (Hfn & Hsome & Heq & Hpre).
  assert (Hdom : forall k, is_Some (ds1 !! k) <-> is_Some (ds !! k)).
  { intros k. specialize (Hpre k). unfold Reader1D.Datasets in *.
    inversion Hpre; split; intros [? ?]; by eauto. }
  assert (Hsz : size ds1 = size ds).
  { unfold Reader1D.Datasets in *.
    rewrite <- !(size_dom (D := gset string)). f_equal.
    apply set_eq. intros k. rewrite !elem_of_dom. apply Hdom. }
  apply (IH _ _ _ _ (index :: seen)).
  - constructor; [|done]. intros Hi. apply Hseen in Hi. lia.
  - intros i [->|Hi]%elem_of_cons.
    + split; [lia|]. by apply Hdom.
    + destruct (Hseen i Hi). split; [lia|]. by apply Hdom.
  - cbn. lia.
Qed.

End SetInDocument.

Lemma setInDocument_total p block linkedfile pre suf tail
    (ds : Reader1D.Datasets value) doc :
  (DescriptorPart.single p = true ->
   (DescriptorPart.stopindex p <= DescriptorPart.startindex p)%Z) ->
  is_Some (Reader1D.setInDocument p block linkedfile pre suf tail ds doc).
Proof.
  intros Hsingle. unfold Reader1D.setInDocument.
  destruct (DescriptorPart.datatype p) as [dt|]; [|by eexists].
  destruct (DescriptorPart.single p) eqn:Hs.
  - specialize (Hsingle eq_refl). cbn [Reader1D.set_indices].
    destruct (Z.ltb_spec (DescriptorPart.stopindex p)
                (DescriptorPart.startindex p)); [by eexists|].
    destruct (Reader1D.set_one _ _ _ _ _ _ ds) as [[[fn made] ds1]|];
      [|by eexists].
    destruct (size ds); cbn [Reader1D.set_indices];
      rewrite (proj2 (Z.ltb_lt _ _)) by lia; by eexists.
  - apply (set_indices_fuel p dt block linkedfile pre suf tail _ Hs _ _ _ _ []).
    + constructor.
    + by intros i ?%elem_of_nil.
    + cbn. lia.
Qed.

End Setting.
End Reader1DFacts.

(** X13. [DescriptorPart.readFromStream] on a part with a column always
    returns, and it takes its items from the front of the line:
    [len(self.columns)] items for every index of the range, or all that
    is left.  So a part with an open range such as [x[:]] takes the whole
    line.  The file is not read, and the lists of [thedatasets] only grow
    at their end. *)
Theorem readFromStream_takes_columns :
  forall (value : Type) (float : string -> option value) (nan : value)
         (lower : string -> string) (string_re_match : string -> bool)
         (py_eval : string -> option value) (of_str : string -> value)
         (isDateTime : string -> bool) (dateStringToDate : string -> value)
         (block : option Z) (st : Reader1D.RS value),
    DescriptorPart.columns (Reader1D.self st) <> [] ->
    exists st',
      Reader1D.readFromStream float nan lower string_re_match py_eval of_str
        isDateTime dateStringToDate block st = Some st' /\
      Stream.file (Reader1D.stream st') = Stream.file (Reader1D.stream st) /\
      Stream.remainingline (Reader1D.stream st')
      = drop (length (DescriptorPart.columns (Reader1D.self st))
              * Z.to_nat (DescriptorPart.stopindex (Reader1D.self st) + 1
                          - DescriptorPart.startindex (Reader1D.self st)))
          (Stream.remainingline (Reader1D.stream st)) /\
      forall key,
        default [] (Reader1D.thedatasets st !! key)
          `prefix_of` default [] (Reader1D.thedatasets st' !! key).
Proof.
  intros value float nan lower srm py_eval of_str isDateTime dateStringToDate
    block st Hcols.
  destruct (Reader1DFacts.read_indices_spec float nan lower srm py_eval of_str
              isDateTime dateStringToDate block
              (S (length (Stream.remainingline (Reader1D.stream st))))
              (DescriptorPart.startindex (Reader1D.self st)) st Hcols
              ltac:(lia))
    as (st' & Hrun & Hf & Hrl & _ & _ & _ & Hds).
  by exists st'.
Qed.

(** X14. The data type of a part without one is guessed once, from the
    first item that the part reads, and a data type that is set is never
    changed by reading: later items are converted as that type whatever
    they look like.  A part that finds the line empty keeps having no
    data type. *)
Theorem readFromStream_fixes_datatype :
  forall (value : Type) (float : string -> option value) (nan : value)
         (lower : string -> string) (string_re_match : string -> bool)
         (py_eval : string -> option value) (of_str : string -> value)
         (isDateTime : string -> bool) (dateStringToDate : string -> value)
         (block : option Z) (st : Reader1D.RS value),
    DescriptorPart.columns (Reader1D.self st) <> [] ->
    (DescriptorPart.startindex (Reader1D.self st)
     <= DescriptorPart.stopindex (Reader1D.self st))%Z ->
    exists st',
      Reader1D.readFromStream float nan lower string_re_match py_eval of_str
        isDateTime dateStringToDate block st = Some st' /\
      DescriptorPart.datatype (Reader1D.self st')
      = match DescriptorPart.datatype (Reader1D.self st),
              Stream.remainingline (Reader1D.stream st) with
        | Some d, _ => Some d
        | None, v :: _ =>
            Some (Reader1D.guessDataType float lower string_re_match
                    isDateTime v)
        | None, [] => None
        end.
Proof.
  intros value float nan lower srm py_eval of_str isDateTime dateStringToDate
    block st Hcols Hrange.
  destruct (Reader1DFacts.read_indices_spec float nan lower srm py_eval of_str
              isDateTime dateStringToDate block
              (S (length (Stream.remainingline (Reader1D.stream st))))
              (DescriptorPart.startindex (Reader1D.self st)) st Hcols
              ltac:(lia))
    as (st' & Hrun & _ & _ & _ & Hdt & _).
  exists st'. split; [done|]. rewrite Hdt.
  destruct (DescriptorPart.datatype (Reader1D.self st)); [done|].
  destruct (DescriptorPart.columns (Reader1D.self st)) as [|c cs]; [done|].
  destruct (Z.to_nat _) as [|n] eqn:En; [lia|].
  by destruct (Stream.remainingline (Reader1D.stream st)).
Qed.

(** X15. A part of data type [float] never fails on an item that is not
    a number: it stores [nan] for it and counts it.  After
    [readFromStream] its [errorcount] has grown by the number of items
    taken from the line that [float] does not accept, and the part is
    still of type [float]. *)
Theorem readFromStream_counts_invalid :
  forall (value : Type) (float : string -> option value) (nan : value)
         (lower : string -> string) (string_re_match : string -> bool)
         (py_eval : string -> option value) (of_str : string -> value)
         (isDateTime : string -> bool) (dateStringToDate : string -> value)
         (block : option Z) (st : Reader1D.RS value),
    DescriptorPart.columns (Reader1D.self st) <> [] ->
    DescriptorPart.datatype (Reader1D.self st) = Some dt_float ->
    exists st',
      Reader1D.readFromStream float nan lower string_re_match py_eval of_str
        isDateTime dateStringToDate block st = Some st' /\
      DescriptorPart.datatype (Reader1D.self st') = Some dt_float /\
      DescriptorPart.errorcount (Reader1D.self st')
      = DescriptorPart.errorcount (Reader1D.self st)
        + length (Reader1D.invalid float
                    (take (length (DescriptorPart.columns (Reader1D.self st))
                           * Z.to_nat
                               (DescriptorPart.stopindex (Reader1D.self st) + 1
                                - DescriptorPart.startindex (Reader1D.self st)))
                       (Stream.remainingline (Reader1D.stream st)))).
Proof.
  intros value float nan lower srm py_eval of_str isDateTime dateStringToDate
    block st Hcols Hfloat.
  destruct (Reader1DFacts.read_indices_spec float nan lower srm py_eval of_str
              isDateTime dateStringToDate block
              (S (length (Stream.remainingline (Reader1D.stream st))))
              (DescriptorPart.startindex (Reader1D.self st)) st Hcols
              ltac:(lia))
    as (st' & Hrun & _ & _ & _ & Hdt & Hec & _).
  rewrite Hfloat in Hdt. rewrite Hdt, decide_True in Hec by done.
  by exists st'.
Qed.

(** X16. [DescriptorPart.setInDocument] always returns.  The datasets it
    sets are those of a run of indices without a gap, from [startindex]
    up to the first index that has no data column in [thedatasets] or
    to [stopindex]: data of a later index is left out.  The names
    returned are the names set, in order, and [thedatasets] keeps its
    keys. *)
Theorem setInDocument_consecutive_names :
  forall (value : Type) (p : DescriptorPart.t) (block : option Z)
         (linkedfile : option nat) (pre suf : string) (tail : option Z)
         (ds : Reader1D.Datasets value) (doc : Reader1D.Doc value),
    (DescriptorPart.single p = true ->
     (DescriptorPart.stopindex p <= DescriptorPart.startindex p)%Z) ->
    is_Some (DescriptorPart.datatype p) ->
    exists (n : nat) ds' new,
      Reader1D.setInDocument p block linkedfile pre suf tail ds doc
      = Some (new.*1, (ds', doc ++ new)) /\
      new.*1 = Reader1D.final_name p block pre suf
               <$> seqZ (DescriptorPart.startindex p) (Z.of_nat n) /\
      (forall i, (DescriptorPart.startindex p <= i
                  < DescriptorPart.startindex p + Z.of_nat n)%Z ->
                 is_Some (ds !! Reader1D.data_key p block i)) /\
      ((DescriptorPart.startindex p + Z.of_nat n
        <= DescriptorPart.stopindex p)%Z ->
       ds !! Reader1D.data_key p block
               (DescriptorPart.startindex p + Z.of_nat n) = None) /\
      forall k, is_Some (ds' !! k) <-> is_Some (ds !! k).
Proof.
  intros value p block linkedfile pre suf tail ds doc Hsingle [dt Hdt].
  destruct (Reader1DFacts.setInDocument_total p block linkedfile pre suf tail
              ds doc Hsingle) as [[names [ds' doc']] Hrun].
  rewrite Hrun. unfold Reader1D.setInDocument in Hrun. rewrite Hdt in Hrun.
  apply Reader1DFacts.set_indices_spec in Hrun
    as (n & new & -> & -> & Hnames & _ & His & Hnone & _ & Hpre).
  exists n, ds', new. split_and!; try done.
  intros k. specialize (Hpre k). unfold Reader1D.Datasets in *.
  inversion Hpre; split; intros [? ?]; by eauto.
Qed.

(** X17. The datasets that [DescriptorPart.setInDocument] sets have
    error bars as long as their data: the lists of a dataset are cut to
    the shortest of them before the dataset is made (and cut in
    [thedatasets] itself, whose lists are never made longer). *)
Theorem setInDocument_equal_lengths :
  forall (value : Type) (p : DescriptorPart.t) (block : option Z)
         (linkedfile : option nat) (pre suf : string) (tail : option Z)
         (ds : Reader1D.Datasets value) (doc : Reader1D.Doc value),
    (DescriptorPart.single p = true ->
     (DescriptorPart.stopindex p <= DescriptorPart.startindex p)%Z) ->
    exists names ds' new,
      Reader1D.setInDocument p block linkedfile pre suf tail ds doc
      = Some (names, (ds', doc ++ new)) /\
      Forall Reader1D.equal_lengths new.*2 /\
      forall k, option_Forall2 prefix (ds' !! k) (ds !! k).
Proof.
  intros value p block linkedfile pre suf tail ds doc Hsingle.
  destruct (Reader1DFacts.setInDocument_total p block linkedfile pre suf tail
              ds doc Hsingle) as [[names [ds' doc']] Hrun].
  rewrite Hrun. unfold Reader1D.setInDocument in Hrun.
  destruct (DescriptorPart.datatype p) as [dt|].
  - apply Reader1DFacts.set_indices_spec in Hrun
      as (n & new & -> & -> & _ & Hall & _ & _ & _ & Hpre).
    by exists ([] ++ new.*1), ds', new.
  - injection Hrun as <- <- <-. exists [], ds, [].
    rewrite app_nil_r. split_and!; [done|constructor|].
    intros k. unfold Reader1D.Datasets in *. by destruct (ds !! k); constructor.
Qed.

(** X18. With [tail] set to 0, [DescriptorPart.setInDocument] does what
    it does with [tail] set to [None]: the slice [vals[-0:]] is the whole
    list, so all the values are kept, not the last none of them. *)
Theorem setInDocument_tail_zero :
  forall (value : Type) (p : DescriptorPart.t) (block : option Z)
         (linkedfile : option nat) (pre suf : string)
         (ds : Reader1D.Datasets value) (doc : Reader1D.Doc value),
    Reader1D.setInDocument p block linkedfile pre suf (Some 0%Z) ds doc
    = Reader1D.setInDocument p block linkedfile pre suf None ds doc.
Proof.
  intros value p block linkedfile pre suf ds doc.
  unfold Reader1D.setInDocument.
  destruct (DescriptorPart.datatype p) as [dt|]; [|done].
  assert (Hgen : forall fuel index names (ds0 : Reader1D.Datasets value) doc0,
             Reader1D.set_indices p dt block linkedfile pre suf (Some 0%Z)
               fuel index names ds0 doc0
             = Reader1D.set_indices p dt block linkedfile pre suf None
                 fuel index names ds0 doc0); [|apply Hgen].
  intros fuel. induction fuel as [|fuel IH]; intros index names ds0 doc0;
    cbn [Reader1D.set_indices]; [done|].
  destruct (_ <? _)%Z; [done|].
  change (Reader1D.set_one dt linkedfile pre suf (Some 0%Z)
            (Reader1D.part_name p index block) ds0)
    with (Reader1D.set_one dt linkedfile pre suf None
            (Reader1D.part_name p index block) ds0).
  destruct (Reader1D.set_one _ _ _ _ _ _ ds0) as [[[fn made] ds1]|]; [|done].
  apply IH.
Qed.

(** ** The reader of 1D data *)

Module SimpleReadFacts.
Section Reader.
Context {value : Type}.
Variable findall : string -> list string.
Variable split : string -> list string.
Variable range_re_match : string -> option (option Z * option Z).
Variable text_start_re_match : string -> bool.
Variable float : string -> option value.
Variable nan : value.
Variable lower : string -> string.
Variable string_re_match : string -> bool.
Variable py_eval : string -> option value.
Variable of_str : string -> value.
Variable isDateTime : string -> bool.
Variable dateStringToDate : string -> value.

Local Abbreviation readFromStream :=
  (Reader1D.readFromStream float nan lower string_re_match py_eval of_str
     isDateTime dateStringToDate).
Local Abbreviation read_parts :=
  (SimpleRead.read_parts float nan lower string_re_match py_eval of_str
     isDateTime dateStringToDate).
Local Abbreviation auto_parts :=
  (SimpleRead.auto_parts float nan lower string_re_match py_eval of_str
     isDateTime dateStringToDate).
Local Abbreviation read_line :=
  (SimpleRead.read_line float nan lower string_re_match py_eval of_str
     isDateTime dateStringToDate).

Lemma same_part_refl p : DescriptorPart.same_part p p.
Proof. unfold DescriptorPart.same_part. by destruct p. Qed.

Lemma same_part_trans p1 p2 p3 :
  DescriptorPart.same_part p1 p2 -> DescriptorPart.same_part p2 p3 ->
  DescriptorPart.same_part p1 p3.
Proof.
  unfold DescriptorPart.same_part. intros H12 H23.
  rewrite H23 at 1. rewrite H12. by destruct p1.
Qed.

Lemma same_part_columns p p' :
  DescriptorPart.same_part p p' ->
  DescriptorPart.columns p' = DescriptorPart.columns p /\
  DescriptorPart.name p' = DescriptorPart.name p /\
  DescriptorPart.single p' = DescriptorPart.single p.
Proof. intros ->. by destruct p. Qed.

Lemma readFromStream_spec block (st : Reader1D.RS value) :
  DescriptorPart.columns (Reader1D.self st) <> [] ->
  exists st',
    readFromStream block st = Some st' /\
    DescriptorPart.same_part (Reader1D.self st) (Reader1D.self st') /\
    Stream.file (Reader1D.stream st') = Stream.file (Reader1D.stream st) /\
    Stream.remainingline (Reader1D.stream st')
    = drop (length (DescriptorPart.columns (Reader1D.self st))
            * Z.to_nat (DescriptorPart.stopindex (Reader1D.self st) + 1
                        - DescriptorPart.startindex (Reader1D.self st)))
        (Stream.remainingline (Reader1D.stream st)).
Proof.
  intros Hcols.
  destruct (Reader1DFacts.read_indices_spec float nan lower string_re_match
              py_eval of_str isDateTime dateStringToDate block
              (S (length (Stream.remainingline (Reader1D.stream st))))
              (DescriptorPart.startindex (Reader1D.self st)) st Hcols
              ltac:(lia))
    as (st' & Hrun & Hf & Hrl & Hp & _).
  by exists st'.
Qed.

Lemma read_parts_spec block ps :
  Forall (fun p => DescriptorPart.columns p <> []) ps ->
  forall stream ds,
    exists ps' stream' ds',
      read_parts block ps stream ds = Some (ps', (stream', ds')) /\
      Forall2 DescriptorPart.same_part ps ps' /\
      Stream.file stream' = Stream.file stream.
Proof.
  induction 1 as [|p ps Hp _ IH]; intros stream ds; cbn [SimpleRead.read_parts].
  - by exists [], stream, ds.
  - destruct (readFromStream_spec block (Reader1D.mkRS p stream ds) Hp)
      as (st' & -> & Hsame & Hf & _).
    destruct (IH (Reader1D.stream st') (Reader1D.thedatasets st'))
      as (ps' & stream' & ds' & -> & Hall & Hf').
    exists (Reader1D.self st' :: ps'), stream', ds'.
    split_and!; [done|by constructor|]. cbn in Hf. congruence.
Qed.

Lemma auto_parts_spec block fuel :
  forall ps stream ds,
    length (Stream.remainingline stream) <= fuel ->
    exists new stream' ds',
      auto_parts fuel block ps stream ds = Some (ps ++ new, (stream', ds')) /\
      Forall2 DescriptorPart.auto_part
        (seq (length ps + 1) (length (Stream.remainingline stream))) new /\
      Stream.file stream' = Stream.file stream /\
      Stream.remainingline stream' = [].
Proof.
  induction fuel as [|fuel IH]; intros ps stream ds Hfuel;
    cbn [SimpleRead.auto_parts];
    destruct (Stream.remainingline stream) as [|v rl] eqn:Erl.
  1,3: exists [], stream, ds; rewrite app_nil_r; by split_and!; try constructor.
  { cbn in Hfuel. lia. }
  cbv zeta.
  set (p := DescriptorPart.init (pretty (length ps + 1)) None ["D"] None).
  destruct (readFromStream_spec block (Reader1D.mkRS p stream ds))
    as (st' & -> & Hsame & Hf & Hrl); [done|].
  cbn in Hsame, Hf, Hrl. rewrite Erl in Hrl.
  change (drop _ (v :: rl)) with rl in Hrl.
  destruct (IH (ps ++ [Reader1D.self st']) (Reader1D.stream st')
              (Reader1D.thedatasets st'))
    as (new & stream' & ds' & -> & Hall & Hf' & Hrl').
  { rewrite Hrl. cbn in Hfuel. lia. }
  exists (Reader1D.self st' :: new), stream', ds'.
  split_and!.
  - by rewrite <- app_assoc.
  - cbn. constructor; [done|].
    rewrite Hrl, length_app in Hall. cbn in Hall.
    by replace (S (length ps + 1)) with (length ps + 1 + 1) by lia.
  - congruence.
  - done.
Qed.

Lemma read_line_spec block (s : SimpleRead.LS value) :
  Forall (fun p => DescriptorPart.columns p <> [])
    (SimpleRead.parts (SimpleRead.self s)) ->
  exists s' ps' new,
    read_line block s = Some s' /\
    SimpleRead.parts (SimpleRead.self s') = ps' ++ new /\
    Forall2 DescriptorPart.same_part (SimpleRead.parts (SimpleRead.self s)) ps' /\
    Forall2 DescriptorPart.auto_part
      (seq (length (SimpleRead.parts (SimpleRead.self s)) + 1) (length new))
      new /\
    (SimpleRead.autodescr (SimpleRead.self s) = false -> new = []) /\
    Stream.file (SimpleRead.stream s') = Stream.file (SimpleRead.stream s) /\
    SimpleRead.earlier s' = SimpleRead.earlier s /\
    SimpleRead.autodescr (SimpleRead.self s')
    = SimpleRead.autodescr (SimpleRead.self s) /\
    SimpleRead.blocks (SimpleRead.self s') = SimpleRead.blocks (SimpleRead.self s) /\
    SimpleRead.tail (SimpleRead.self s') = SimpleRead.tail (SimpleRead.self s).
Proof.
  intros Hcols. unfold SimpleRead.read_line.
  destruct (read_parts_spec block _ Hcols (SimpleRead.stream s)
              (SimpleRead.datasets (SimpleRead.self s)))
    as (ps & stream1 & ds1 & -> & Hsame & Hf).
  destruct (SimpleRead.autodescr (SimpleRead.self s)) eqn:Ha.
  - destruct (auto_parts_spec block (length (Stream.remainingline stream1))
                ps stream1 ds1 ltac:(lia))
      as (new & stream2 & ds2 & -> & Hauto & Hf2 & _).
    eexists _, ps, new. split_and!; try done; cbn; [|congruence].
    assert (Hl : length new = length (Stream.remainingline stream1)).
    { apply Forall2_length in Hauto. by rewrite length_seq in Hauto. }
    rewrite Hl. by rewrite (Forall2_length _ _ _ Hsame).
  - eexists _, ps, []. split_and!; try done; cbn.
    by rewrite app_nil_r.
Qed.

Local Abbreviation cols_ok := DescriptorPart.cols_ok.

Lemma same_part_cols_ok ps ps' :
  Forall2 DescriptorPart.same_part ps ps' -> cols_ok ps -> cols_ok ps'.
Proof.
  induction 1 as [|p p' ps ps' Hp _ IH]; [done|].
  intros [Hc Hcs]%Forall_cons. constructor; [|by apply IH].
  destruct (same_part_columns _ _ Hp) as (-> & _). done.
Qed.

Lemma auto_part_cols_ok l new :
  Forall2 DescriptorPart.auto_part l new -> cols_ok new.
Proof.
  induction 1 as [|i p l new Hp _ IH]; constructor; [|done].
  destruct (same_part_columns _ _ Hp) as (-> & _). done.
Qed.

Lemma newLine_from_clean file :
  Stream.clean findall file ->
  forall rl e s', Stream.newLine_from findall file rl <> (Throw e, s').
Proof.
  induction 1 as [|line file [kept Hk] _ IH]; intros rl e s'; cbn; [done|].
  rewrite Hk. destruct (bool_decide _); [apply IH|done].
Qed.

Lemma newLine_from_throw file :
  forall rl e s',
    Stream.newLine_from findall file rl = (Throw e, s') -> e = IndexError.
Proof.
  induction file as [|line file IH]; intros rl e s'; cbn; [done|].
  destruct (Stream.without_comments _); [|congruence].
  destruct (bool_decide _); [apply IH|done].
Qed.

Lemma clean_suffix consumed file :
  Stream.clean findall (consumed ++ file) -> Stream.clean findall file.
Proof. by intros [_ ?]%Forall_app. Qed.

Section Loop.
Context {L : Type}.
Variable get_stream : L -> Stream.t.
Variable set_stream : Stream.t -> L -> L.
Variable body : L -> option (outcome unit * L).
Variable Inv : L -> Prop.
Hypothesis get_set : forall st s, get_stream (set_stream st s) = st.
Hypothesis Inv_set : forall st s, Inv s -> Inv (set_stream st s).
Hypothesis body_ok :
  forall s, Inv s ->
    exists s', body s = Some (Done tt, s') /\
               Stream.file (get_stream s') = Stream.file (get_stream s) /\
               Inv s'.

Lemma lines_spec fuel :
  forall s,
    Inv s -> length (Stream.file (get_stream s)) < fuel ->
    exists r s',
      SimpleRead.lines findall get_stream set_stream body fuel s = Some (r, s') /\
      match r with
      | Done _ => Inv s'
      | Throw e =>
          e = IndexError /\ ~ Stream.clean findall (Stream.file (get_stream s))
      end.
Proof.
  induction fuel as [|fuel IH]; intros s HI Hfuel; [lia|].
  cbn [SimpleRead.lines].
  destruct (Stream.newLine findall (get_stream s)) as [[[]|e] stream'] eqn:Hn.
  - pose proof (StreamFacts.newLine_shrinks findall _ _ Hn) as Hlt.
    unfold Stream.newLine in Hn.
    pose proof (StreamFacts.newLine_from_consumes findall _ _ _ _ Hn)
      as (consumed & Hfile & _).
    destruct (body_ok (set_stream stream' s) (Inv_set _ _ HI))
      as (s1 & -> & Hf1 & HI1).
    rewrite get_set in Hf1.
    destruct (IH s1 HI1) as (r & s2 & -> & Hr); [rewrite Hf1; lia|].
    exists r, s2. split; [done|]. destruct r as [|e]; [done|].
    destruct Hr as [-> Hnc]. split; [done|]. intros Hc. apply Hnc.
    rewrite Hf1. rewrite Hfile in Hc. by eapply clean_suffix.
  - eexists _, _. split; [done|]. by apply Inv_set.
  - eexists _, _. split; [done|]. unfold Stream.newLine in Hn. split.
    + by eapply newLine_from_throw.
    + intros Hc. by eapply newLine_from_clean.
Qed.
End Loop.

Lemma grown_refl ps : DescriptorPart.grown_from ps ps.
Proof.
  exists ps, []. split; [by rewrite app_nil_r|].
  apply Forall_Forall2_diag, Forall_forall. intros p _. apply same_part_refl.
Qed.

Lemma Forall2_same_part_trans l1 l2 l3 :
  Forall2 DescriptorPart.same_part l1 l2 ->
  Forall2 DescriptorPart.same_part l2 l3 ->
  Forall2 DescriptorPart.same_part l1 l3.
Proof.
  intros H. revert l3. induction H as [|p1 p2 l1 l2 Hp _ IH]; intros l3 H23.
  - by inversion H23.
  - inversion H23 as [|? p3 ? l3' Hp' H']; subst. constructor; [|by apply IH].
    by eapply same_part_trans.
Qed.

Lemma grown_trans l1 l2 l3 :
  DescriptorPart.grown_from l1 l2 -> DescriptorPart.grown_from l2 l3 ->
  DescriptorPart.grown_from l1 l3.
Proof.
  intros (x & y & -> & H12) (x' & y' & -> & H23).
  apply Forall2_app_inv_l in H23 as (x1 & y1 & Hx & Hy & ->).
  exists x1, (y1 ++ y'). split; [by rewrite <- app_assoc|].
  by eapply Forall2_same_part_trans.
Qed.

Lemma grown_app l1 l2 l2' new :
  Forall2 DescriptorPart.same_part l2 l2' ->
  DescriptorPart.grown_from (l1 ++ l2) (l1 ++ l2' ++ new).
Proof.
  intros H. exists (l1 ++ l2'), new. split; [by rewrite <- app_assoc|].
  apply Forall2_app; [|done].
  apply Forall_Forall2_diag, Forall_forall. intros p _. apply same_part_refl.
Qed.

Lemma auto_named_grow autos ps' new :
  DescriptorPart.auto_named autos ->
  Forall2 DescriptorPart.same_part autos ps' ->
  Forall2 DescriptorPart.auto_part (seq (length autos + 1) (length new)) new ->
  DescriptorPart.auto_named (ps' ++ new).
Proof.
  unfold DescriptorPart.auto_named. intros Ha Hs Hn.
  rewrite length_app, seq_app. apply Forall2_app.
  - rewrite <- (Forall2_length _ _ _ Hs).
    clear Hn. revert ps' Hs.
    induction Ha as [|i p l autos Hp _ IH]; intros ps' Hs.
    + by inversion Hs.
    + inversion Hs as [|? p' ? ps'' Hp' H']; subst. constructor; [|by apply IH].
      by eapply same_part_trans.
  - rewrite <- (Forall2_length _ _ _ Hs).
    by replace (1 + length autos) with (length autos + 1) by lia.
Qed.

Local Abbreviation step_ok := (@SimpleRead.step_ok value).

Lemma seqZ_snoc (b : Z) :
  (1 <= b)%Z -> seqZ 1 (b - 1) ++ [b] = seqZ 1 b.
Proof.
  intros Hb.
  assert (Hn : b = Z.of_nat (S (Z.to_nat (b - 1)))) by lia.
  rewrite Hn at 3. rewrite seqZ_S. f_equal; [f_equal; lia|f_equal; lia].
Qed.

Lemma flushLine_step (s s' : SimpleRead.LS value) :
  step_ok s s' -> step_ok s (SimpleRead.flushLine s').
Proof. done. Qed.

Lemma read_line_step block (s : SimpleRead.LS value) :
  cols_ok (SimpleRead.parts (SimpleRead.self s)) ->
  exists s',
    read_line block s = Some s' /\ step_ok s s' /\
    SimpleRead.blocks (SimpleRead.self s') = SimpleRead.blocks (SimpleRead.self s).
Proof.
  intros Hcols.
  destruct (read_line_spec block s Hcols)
    as (s' & ps' & new & Hrun & Hparts & Hsame & Hauto & Hnew & Hf & He & Ha & Hb & _).
  exists s'. unfold SimpleRead.step_ok. split_and!; try done.
  - rewrite Hparts. apply Forall_app. split.
    + by eapply same_part_cols_ok.
    + by eapply auto_part_cols_ok.
  - unfold SimpleRead.allparts. rewrite He, Hparts. by apply grown_app.
  - intros Ha'. rewrite Ha in Ha'. split_and!; try done. by exists ps', new.
Qed.

Lemma unblocked_body_spec ignoretext (s : SimpleRead.LS value) :
  cols_ok (SimpleRead.parts (SimpleRead.self s)) ->
  exists s',
    SimpleRead.unblocked_body split range_re_match text_start_re_match
      float nan lower string_re_match py_eval of_str isDateTime
      dateStringToDate ignoretext s = Some (Done tt, s') /\
    step_ok s s'.
Proof.
  intros Hcols. unfold SimpleRead.unblocked_body, SimpleRead.step_ok.
  case_decide as Hd.
  - destruct (DescriptorFacts.interpretDescriptor_ok range_re_match split
                (String.concat " "
                   (drop 1 (Stream.remainingline (SimpleRead.stream s)))))
      as (new & -> & Hwf & _).
    eexists. split; [done|]. split_and!; cbn; try done.
    + by apply DescriptorFacts.well_formed_cols_ok.
    + unfold SimpleRead.allparts. cbn.
      exists (SimpleRead.allparts s), new. split; [done|].
      apply Forall_Forall2_diag, Forall_forall. intros p _.
      apply same_part_refl.
  - destruct (ignoretext && _).
    + eexists. split; [done|]. apply (flushLine_step s s).
      unfold SimpleRead.step_ok.
      split_and!; try done; [apply grown_refl|].
      intros Ha. split_and!; try done.
      exists (SimpleRead.parts (SimpleRead.self s)), [].
      rewrite app_nil_r. split_and!; [done| |constructor].
      apply Forall_Forall2_diag, Forall_forall. intros p _.
      apply same_part_refl.
    + destruct (read_line_step None s Hcols) as (s' & -> & Hstep & _).
      eexists. split; [done|]. by apply (flushLine_step s s').
Qed.

Lemma blocked_body_spec (s : SimpleRead.BS value) :
  cols_ok (SimpleRead.parts (SimpleRead.self (SimpleRead.ls s))) ->
  exists s',
    SimpleRead.blocked_body float nan lower string_re_match py_eval of_str
      isDateTime dateStringToDate s = Some (Done tt, s') /\
    step_ok (SimpleRead.ls s) (SimpleRead.ls s') /\
    (SimpleRead.numbered (SimpleRead.blocks_seen s) (SimpleRead.block s) ->
     SimpleRead.numbered (SimpleRead.blocks_seen s') (SimpleRead.block s')).
Proof.
  intros Hcols. unfold SimpleRead.blocked_body, SimpleRead.step_ok.
  destruct (_ || _).
  - eexists. split; [done|]. cbn. split.
    + apply (flushLine_step (SimpleRead.ls s) (SimpleRead.ls s)).
      unfold SimpleRead.step_ok.
      split_and!; try done; [apply grown_refl|].
      intros Ha. split_and!; try done.
      exists (SimpleRead.parts (SimpleRead.self (SimpleRead.ls s))), [].
      rewrite app_nil_r. split_and!; [done| |constructor].
      apply Forall_Forall2_diag, Forall_forall. intros p _.
      apply same_part_refl.
    + intros [Hb Hn]. case_decide as Hin; [|done].
      split; [lia|]. left.
      destruct Hn as [Hn|Hn]; rewrite Hn in Hin |- *.
      * apply elem_of_seqZ in Hin. lia.
      * f_equal. lia.
  - destruct (read_line_step (Some (SimpleRead.block s)) (SimpleRead.ls s) Hcols)
      as (s' & -> & Hstep & _).
    eexists. split; [done|]. cbn.
    split; [by apply (flushLine_step (SimpleRead.ls s) s')|].
    intros [Hb Hn]. split; [done|]. right. unfold SimpleRead.set_block.
    case_decide as Hin.
    + destruct Hn as [Hn|Hn]; [|done]. rewrite Hn in Hin.
      apply elem_of_seqZ in Hin. lia.
    + destruct Hn as [Hn|Hn].
      * rewrite Hn. by apply seqZ_snoc.
      * exfalso. apply Hin. rewrite Hn. apply elem_of_seqZ. lia.
Qed.

Section Invariant.
Variable I : SimpleRead.LS value -> Prop.
Hypothesis I_stream : forall st s, I s -> I (SimpleRead.with_stream st s).
Hypothesis I_step :
  forall s s', I s -> cols_ok (SimpleRead.parts (SimpleRead.self s)) ->
               step_ok s s' -> I s'.

Lemma readData_inv useblocks ignoretext (self : SimpleRead.t value) stream :
  cols_ok (SimpleRead.parts self) ->
  I (SimpleRead.mkLS self stream []) ->
  exists r self' stream',
    SimpleRead.readData findall split range_re_match text_start_re_match
      float nan lower string_re_match py_eval of_str isDateTime
      dateStringToDate useblocks ignoretext (self, stream)
    = Some (r, (self', stream')) /\
    match r with
    | Done _ =>
        (exists s, I s /\ SimpleRead.parts self' = SimpleRead.allparts s /\
                   SimpleRead.autodescr self'
                   = SimpleRead.autodescr (SimpleRead.self s)) /\
        if useblocks
        then exists k : nat, SimpleRead.blocks self' = Some (seqZ 1 (Z.of_nat k))
        else SimpleRead.blocks self' = None
    | Throw e =>
        e = IndexError /\ ~ Stream.clean findall (Stream.file stream)
    end.
Proof.
  intros Hcols HI. unfold SimpleRead.readData. destruct useblocks.
  - unfold SimpleRead._readDataBlocked.
    destruct (lines_spec
                (fun s : SimpleRead.BS value => SimpleRead.stream (SimpleRead.ls s))
                (fun stream' s =>
                   SimpleRead.mkBS (SimpleRead.with_stream stream' (SimpleRead.ls s))
                     (SimpleRead.blocks_seen s) (SimpleRead.block s))
                (SimpleRead.blocked_body float nan lower string_re_match
                   py_eval of_str isDateTime dateStringToDate)
                (fun s =>
                   cols_ok (SimpleRead.parts (SimpleRead.self (SimpleRead.ls s))) /\
                   I (SimpleRead.ls s) /\
                   SimpleRead.numbered (SimpleRead.blocks_seen s)
                     (SimpleRead.block s)))
      with (fuel := S (length (Stream.file stream)))
           (s := SimpleRead.mkBS (SimpleRead.mkLS self stream []) [] 1%Z)
      as (r & s' & Hrun & Hr).
    + done.
    + intros st s (? & ? & ?). split_and!; try done. by apply I_stream.
    + intros s (Hc & Hi & Hn).
      destruct (blocked_body_spec s Hc) as (s' & Hb & Hstep & Hnum).
      exists s'. split; [done|]. split; [apply Hstep|].
      split_and!; [apply Hstep|by eapply I_step|by apply Hnum].
    + split_and!; try done. cbn. split; [lia|]. by left.
    + cbn. lia.
    + cbn [fst snd] in *. rewrite Hrun.
      destruct r as [[]|e]; eexists _, _, _; (split; [done|]); [|done].
      destruct Hr as (Hc & Hi & Hb & Hn). cbn. split.
      * by exists (SimpleRead.ls s').
      * destruct Hn as [-> | ->].
        -- exists (Z.to_nat (SimpleRead.block s' - 1)). do 2 f_equal. lia.
        -- exists (Z.to_nat (SimpleRead.block s')). do 2 f_equal. lia.
  - unfold SimpleRead._readDataUnblocked.
    destruct (lines_spec (@SimpleRead.stream value) (@SimpleRead.with_stream value)
                (SimpleRead.unblocked_body split range_re_match
                   text_start_re_match float nan lower string_re_match
                   py_eval of_str isDateTime dateStringToDate ignoretext)
                (fun s => cols_ok (SimpleRead.parts (SimpleRead.self s)) /\ I s))
      with (fuel := S (length (Stream.file stream)))
           (s := SimpleRead.mkLS self stream [])
      as (r & s' & Hrun & Hr).
    + done.
    + intros st s (? & ?). split; [done|]. by apply I_stream.
    + intros s (Hc & Hi).
      destruct (unblocked_body_spec ignoretext s Hc) as (s' & Hb & Hstep).
      exists s'. split; [done|]. split; [apply Hstep|].
      split; [apply Hstep|by eapply I_step].
    + done.
    + cbn. lia.
    + cbn [fst snd] in *. rewrite Hrun.
      destruct r as [[]|e]; eexists _, _, _; (split; [done|]); [|done].
      destruct Hr as (Hc & Hi). cbn. split; [|done]. by exists s'.
Qed.
End Invariant.

End Reader.
End SimpleReadFacts.

(** X19. [SimpleRead.readData] on a reader whose parts have a column
    each always returns, in either mode.  It raises nothing but the
    [IndexError] of [Stream.newLine], and that only when the regular
    expression gives an empty item on some line.  When it returns
    normally, the parts that the reader had are still the first of
    [self.parts], in order, changed in data type and error count only. *)
Theorem readData_always_returns :
  forall (value : Type) (findall split : string -> list string)
         (range_re_match : string -> option (option Z * option Z))
         (text_start_re_match : string -> bool)
         (float : string -> option value) (nan : value)
         (lower : string -> string) (string_re_match : string -> bool)
         (py_eval : string -> option value) (of_str : string -> value)
         (isDateTime : string -> bool) (dateStringToDate : string -> value)
         (useblocks ignoretext : bool)
         (self : SimpleRead.t value) (stream : Stream.t),
    DescriptorPart.cols_ok (SimpleRead.parts self) ->
    exists r self' stream',
      SimpleRead.readData findall split range_re_match text_start_re_match
        float nan lower string_re_match py_eval of_str isDateTime
        dateStringToDate useblocks ignoretext (self, stream)
      = Some (r, (self', stream')) /\
      match r with
      | Done _ =>
          DescriptorPart.grown_from (SimpleRead.parts self)
            (SimpleRead.parts self')
      | Throw e =>
          e = IndexError /\ ~ Stream.clean findall (Stream.file stream)
      end.
Proof.
  intros value findall split range_re_match text_start_re_match float nan
    lower srm py_eval of_str isDateTime dateStringToDate useblocks ignoretext
    self stream Hcols.
  destruct (SimpleReadFacts.readData_inv findall split range_re_match
              text_start_re_match float nan lower srm py_eval of_str
              isDateTime dateStringToDate
              (fun s => DescriptorPart.grown_from (SimpleRead.parts self)
                          (SimpleRead.allparts s)))
    with (useblocks := useblocks) (ignoretext := ignoretext)
         (self := self) (stream := stream)
    as (r & self' & stream' & Hrun & Hr).
  - done.
  - intros s s' Hg _ (_ & _ & Hstep & _).
    by eapply SimpleReadFacts.grown_trans.
  - done.
  - apply SimpleReadFacts.grown_refl.
  - exists r, self', stream'. split; [done|].
    destruct r as [[]|e]; [|done].
    destruct Hr as [(s & Hg & -> & _) _]. done.
Qed.

(** X20. After [readData] with [useblocks], [self.blocks] holds the
    numbers 1, 2, ..., k in order, for some k: blocks are numbered without
    a gap, however many blank lines (or lines starting with [no]) stand
    before the first block or between two blocks.  Without [useblocks],
    [self.blocks] is [None]. *)
Theorem readData_blocks_numbered :
  forall (value : Type) (findall split : string -> list string)
         (range_re_match : string -> option (option Z * option Z))
         (text_start_re_match : string -> bool)
         (float : string -> option value) (nan : value)
         (lower : string -> string) (string_re_match : string -> bool)
         (py_eval : string -> option value) (of_str : string -> value)
         (isDateTime : string -> bool) (dateStringToDate : string -> value)
         (useblocks ignoretext : bool)
         (self : SimpleRead.t value) (stream : Stream.t),
    DescriptorPart.cols_ok (SimpleRead.parts self) ->
    Stream.clean findall (Stream.file stream) ->
    exists self' stream',
      SimpleRead.readData findall split range_re_match text_start_re_match
        float nan lower string_re_match py_eval of_str isDateTime
        dateStringToDate useblocks ignoretext (self, stream)
      = Some (Done tt, (self', stream')) /\
      if useblocks
      then exists k : nat, SimpleRead.blocks self' = Some (seqZ 1 (Z.of_nat k))
      else SimpleRead.blocks self' = None.
Proof.
  intros value findall split range_re_match text_start_re_match float nan
    lower srm py_eval of_str isDateTime dateStringToDate useblocks ignoretext
    self stream Hcols Hclean.
  destruct (SimpleReadFacts.readData_inv findall split range_re_match
              text_start_re_match float nan lower srm py_eval of_str
              isDateTime dateStringToDate (fun _ => True))
    with (useblocks := useblocks) (ignoretext := ignoretext)
         (self := self) (stream := stream)
    as (r & self' & stream' & Hrun & Hr); try done.
  destruct r as [[]|e]; [|by destruct Hr].
  exists self', stream'. split; [done|]. apply Hr.
Qed.

(** X21. Reading without a descriptor.  A reader that starts with no
    parts and an automatic descriptor, as [SimpleRead('')] is, is left by
    [readData] with parts named 1, 2, 3, ... in this order, one for each
    column met, each with the one column ['D'] and no range; parts of
    other names come after them, and only if a line of the file changed
    the descriptor. *)
Theorem readData_automatic_names :
  forall (value : Type) (findall split : string -> list string)
         (range_re_match : string -> option (option Z * option Z))
         (text_start_re_match : string -> bool)
         (float : string -> option value) (nan : value)
         (lower : string -> string) (string_re_match : string -> bool)
         (py_eval : string -> option value) (of_str : string -> value)
         (isDateTime : string -> bool) (dateStringToDate : string -> value)
         (useblocks ignoretext : bool)
         (self : SimpleRead.t value) (stream : Stream.t),
    SimpleRead.parts self = [] ->
    SimpleRead.autodescr self = true ->
    Stream.clean findall (Stream.file stream) ->
    exists self' stream' autos rest,
      SimpleRead.readData findall split range_re_match text_start_re_match
        float nan lower string_re_match py_eval of_str isDateTime
        dateStringToDate useblocks ignoretext (self, stream)
      = Some (Done tt, (self', stream')) /\
      SimpleRead.parts self' = autos ++ rest /\
      DescriptorPart.name <$> autos = pretty <$> seq 1 (length autos) /\
      Forall (fun p => DescriptorPart.columns p = ["D"] /\
                       DescriptorPart.single p = true) autos /\
      (SimpleRead.autodescr self' = true -> rest = []).
Proof.
  intros value findall split range_re_match text_start_re_match float nan
    lower srm py_eval of_str isDateTime dateStringToDate useblocks ignoretext
    self stream Hparts Hauto Hclean.
  destruct (SimpleReadFacts.readData_inv findall split range_re_match
              text_start_re_match float nan lower srm py_eval of_str
              isDateTime dateStringToDate
              (fun s => exists autos rest,
                          SimpleRead.allparts s = autos ++ rest /\
                          DescriptorPart.auto_named autos /\
                          (SimpleRead.autodescr (SimpleRead.self s) = true ->
                           rest = [] /\ SimpleRead.earlier s = [])))
    with (useblocks := useblocks) (ignoretext := ignoretext)
         (self := self) (stream := stream)
    as (r & self' & stream' & Hrun & Hr).
  - done.
  - intros s s' (autos & rest & Hall & Hnamed & Hrest) Hcols
      (_ & _ & Hgrown & Hstep).
    destruct (SimpleRead.autodescr (SimpleRead.self s')) eqn:Ha'.
    + destruct (Hstep eq_refl) as (Ha & He & ps' & new & Hp' & Hsame & Hnew).
      destruct (Hrest Ha) as [-> He0]. rewrite app_nil_r in Hall.
      unfold SimpleRead.allparts in Hall. rewrite He0 in Hall. cbn in Hall.
      rewrite Hall in Hsame, Hnew.
      exists (ps' ++ new), []. split_and!.
      * unfold SimpleRead.allparts. by rewrite He, He0, Hp', app_nil_r.
      * by eapply SimpleReadFacts.auto_named_grow.
      * intros _. split; [done|congruence].
    + destruct Hgrown as (l1 & l2 & Hl & Hsame). rewrite Hall in Hsame.
      apply Forall2_app_inv_l in Hsame as (a' & r' & Ha1 & Hr1 & ->).
      exists a', (r' ++ l2). split_and!.
      * by rewrite Hl, <- app_assoc.
      * pose proof (SimpleReadFacts.auto_named_grow autos a' [] Hnamed Ha1
                      ltac:(constructor)) as Hn.
        by rewrite app_nil_r in Hn.
      * done.
  - rewrite Hparts. constructor.
  - exists [], []. unfold SimpleRead.allparts. cbn. rewrite Hparts.
    split_and!; [done|constructor|done].
  - destruct r as [[]|e]; [|by destruct Hr].
    destruct Hr as [(s & (autos & rest & Hall & Hnamed & Hrest) & Hp & Ha) _].
    exists self', stream', autos, rest. split_and!; try done.
    + congruence.
    + unfold DescriptorPart.auto_named in Hnamed.
      clear -Hnamed. induction Hnamed as [|i p l autos Hp _ IH]; [done|].
      cbn. f_equal; [|done].
      destruct (SimpleReadFacts.same_part_columns _ _ Hp) as (_ & -> & _).
      done.
    + unfold DescriptorPart.auto_named in Hnamed.
      clear -Hnamed. induction Hnamed as [|i p l autos Hp _ IH];
        constructor; [|done].
      destruct (SimpleReadFacts.same_part_columns _ _ Hp) as (-> & _ & ->).
      done.
    + intros Ha'. rewrite Ha in Ha'. by destruct (Hrest Ha').
Qed.

Lemma readFromStream_takes_columns_witness :
  exists st',
    ReadCases1D.readFromStream None ReadCases1D.reading_y = Some st' /\
    Stream.remainingline (Reader1D.stream st') = ["5"].
Proof.
  destruct (readFromStream_takes_columns ReadCases1D.Val ReadCases1D.float
              ReadCases1D.VNan id ReadCases1D.string_re_match
              ReadCases1D.py_eval ReadCases1D.VText ReadCases1D.isDateTime
              ReadCases1D.dateStringToDate None ReadCases1D.reading_y)
    as (st' & Hrun & _ & Hrl & _).
  - discriminate.
  - exists st'. split; [exact Hrun|exact Hrl].
Defined.

Lemma readFromStream_fixes_datatype_witness :
  exists st',
    ReadCases1D.readFromStream None ReadCases1D.reading_x = Some st' /\
    DescriptorPart.datatype (Reader1D.self st') = Some dt_float.
Proof.
  destruct (readFromStream_fixes_datatype ReadCases1D.Val ReadCases1D.float
              ReadCases1D.VNan id ReadCases1D.string_re_match
              ReadCases1D.py_eval ReadCases1D.VText ReadCases1D.isDateTime
              ReadCases1D.dateStringToDate None ReadCases1D.reading_x)
    as (st' & Hrun & Hdt).
  - discriminate.
  - vm_compute. discriminate.
  - exists st'. split; [exact Hrun|exact Hdt].
Defined.

Lemma readFromStream_counts_invalid_witness :
  exists st',
    ReadCases1D.readFromStream None ReadCases1D.reading_y = Some st' /\
    DescriptorPart.errorcount (Reader1D.self st') = 1.
Proof.
  destruct (readFromStream_counts_invalid ReadCases1D.Val ReadCases1D.float
              ReadCases1D.VNan id ReadCases1D.string_re_match
              ReadCases1D.py_eval ReadCases1D.VText ReadCases1D.isDateTime
              ReadCases1D.dateStringToDate None ReadCases1D.reading_y)
    as (st' & Hrun & _ & Hec).
  - discriminate.
  - reflexivity.
  - exists st'. split; [exact Hrun|exact Hec].
Defined.

Lemma setInDocument_consecutive_names_witness :
  exists (n : nat) ds' new,
    Reader1D.setInDocument ReadCases1D.part_y None None "" "" None
      ReadCases1D.read_y [] = Some (new.*1, (ds', [] ++ new)) /\
    new.*1 = Reader1D.final_name ReadCases1D.part_y None "" ""
             <$> seqZ 1 (Z.of_nat n) /\
    (forall i, (1 <= i < 1 + Z.of_nat n)%Z ->
               is_Some (ReadCases1D.read_y
                          !! Reader1D.data_key ReadCases1D.part_y None i)) /\
    ((1 + Z.of_nat n <= 2)%Z ->
     ReadCases1D.read_y
       !! Reader1D.data_key ReadCases1D.part_y None (1 + Z.of_nat n) = None) /\
    forall k, is_Some (ds' !! k) <-> is_Some (ReadCases1D.read_y !! k).
Proof.
  apply (setInDocument_consecutive_names ReadCases1D.Val ReadCases1D.part_y
           None None "" "" None ReadCases1D.read_y []).
  - discriminate.
  - by eexists.
Defined.

Lemma setInDocument_equal_lengths_witness :
  exists names ds' new,
    Reader1D.setInDocument ReadCases1D.part_y None None "" "" None
      ReadCases1D.read_y [] = Some (names, (ds', [] ++ new)) /\
    Forall Reader1D.equal_lengths new.*2 /\
    forall k, option_Forall2 prefix (ds' !! k) (ReadCases1D.read_y !! k).
Proof.
  apply (setInDocument_equal_lengths ReadCases1D.Val ReadCases1D.part_y
           None None "" "" None ReadCases1D.read_y []).
  discriminate.
Defined.

Lemma readData_always_returns_witness :
  exists r self' stream',
    ReadCases1D.readData true false
      (ReadCases1D.reader0, ReadCases1D.two_blocks)
    = Some (r, (self', stream')) /\
    match r with
    | Done _ =>
        DescriptorPart.grown_from (SimpleRead.parts ReadCases1D.reader0)
          (SimpleRead.parts self')
    | Throw e =>
        e = IndexError /\
        ~ Stream.clean ReadCases.findall (Stream.file ReadCases1D.two_blocks)
    end.
Proof.
  apply (readData_always_returns ReadCases1D.Val ReadCases.findall
           ReadCases1D.split ReadCases1D.range_re_match
           ReadCases1D.text_start_re_match ReadCases1D.float ReadCases1D.VNan
           id ReadCases1D.string_re_match ReadCases1D.py_eval
           ReadCases1D.VText ReadCases1D.isDateTime
           ReadCases1D.dateStringToDate true false ReadCases1D.reader0
           ReadCases1D.two_blocks).
  constructor.
Defined.

Lemma readData_blocks_numbered_witness :
  exists self' stream',
    ReadCases1D.readData true false
      (ReadCases1D.reader0, ReadCases1D.two_blocks)
    = Some (Done tt, (self', stream')) /\
    exists k : nat, SimpleRead.blocks self' = Some (seqZ 1 (Z.of_nat k)).
Proof.
  apply (readData_blocks_numbered ReadCases1D.Val ReadCases.findall
           ReadCases1D.split ReadCases1D.range_re_match
           ReadCases1D.text_start_re_match ReadCases1D.float ReadCases1D.VNan
           id ReadCases1D.string_re_match ReadCases1D.py_eval
           ReadCases1D.VText ReadCases1D.isDateTime
           ReadCases1D.dateStringToDate true false ReadCases1D.reader0
           ReadCases1D.two_blocks).
  - constructor.
  - repeat (constructor; [by eexists|]). constructor.
Defined.

Lemma readData_automatic_names_witness :
  exists self' stream' autos rest,
    ReadCases1D.readData false false
      (ReadCases1D.reader0, ReadCases1D.two_blocks)
    = Some (Done tt, (self', stream')) /\
    SimpleRead.parts self' = autos ++ rest /\
    DescriptorPart.name <$> autos = pretty <$> seq 1 (length autos) /\
    Forall (fun p => DescriptorPart.columns p = ["D"] /\
                     DescriptorPart.single p = true) autos /\
    (SimpleRead.autodescr self' = true -> rest = []).
Proof.
  apply (readData_automatic_names ReadCases1D.Val ReadCases.findall
           ReadCases1D.split ReadCases1D.range_re_match
           ReadCases1D.text_start_re_match ReadCases1D.float ReadCases1D.VNan
           id ReadCases1D.string_re_match ReadCases1D.py_eval
           ReadCases1D.VText ReadCases1D.isDateTime
           ReadCases1D.dateStringToDate false false ReadCases1D.reader0
           ReadCases1D.two_blocks).
  - reflexivity.
  - reflexivity.
  - repeat (constructor; [by eexists|]). constructor.
Defined.
